(** * School-Site-SRV: the interactive front end of [script.js]

    A shallow embedding of the widgets of [script.js] (hero slider,
    school-choice slider, exhibition-benefits slider, enquiry-form
    validator, scroll-reveal observer) together with the properties its
    specification states about them.

    Conventions of the embedding:
    - numbers that the script uses as indices, counts and pixel values are
      integers ([Z]); element counts ([NodeList.length]) are [nat];
    - what a handler reads from the browser when it runs
      ([window.innerWidth], the reduced-motion media query, the
      [offsetWidth] of a slider's first card) is passed in as an [env];
    - the part of the DOM a widget writes (inline style of its track,
      classes and ARIA attributes of its controls) is kept in the widget's
      record, next to the fields of the JavaScript object;
    - JavaScript strings that come from the user are sequences of UTF-16
      code units ([list N]); class names and other constants of the script
      are [string]s. *)

From Stdlib Require Import ZArith QArith List Bool Lia.
From stdpp Require Import base list gmap strings.

Close Scope Q_scope.
Open Scope Z_scope.

(** ** What handlers read from the browser *)

Record env := {
  innerWidth : Z;        (* window.innerWidth *)
  reducedMotion : bool;  (* prefersReducedMotion() *)
  offsetWidth : Z        (* this.cards[0].offsetWidth, when there is a card *)
}.

(** Navigation button: the [disabled] property and the [aria-disabled]
    attribute. *)
Record button := { disabled : bool; aria_disabled : bool }.

(** Indicator dot: the active class and the [aria-selected] attribute. *)
Record dot := { dot_active : bool; aria_selected : bool }.

(** ** Hero slider (class [HeroSlider]) *)

Module HeroSlider.

Record pause_button := { aria_label : string; shows_play : bool }.

Record t := {
  slides : nat;                     (* this.slides.length *)
  currentSlide : Z;
  isPaused : bool;
  slide_active : list bool;         (* hero__slide--active on each slide *)
  aria_live : string;               (* aria-live of the container *)
  pauseBtn : option pause_button
}.

(** [updateAriaLabels()] *)
Definition updateAriaLabels (s : t) : t :=
  {| slides := slides s;
     currentSlide := currentSlide s;
     isPaused := isPaused s;
     slide_active := slide_active s;
     aria_live := if isPaused s then "polite" else "off";
     pauseBtn :=
       match pauseBtn s with
       | Some _ =>
           Some {| aria_label :=
                     if isPaused s then "Play slideshow" else "Pause slideshow";
                   shows_play := isPaused s |}
       | None => None
       end |}.

(** [updateSlider()]: slide [index] carries the active class exactly when
    [index === this.currentSlide]. *)
Definition updateSlider (s : t) : t :=
  updateAriaLabels
    {| slides := slides s;
       currentSlide := currentSlide s;
       isPaused := isPaused s;
       slide_active :=
         map (fun index => Z.of_nat index =? currentSlide s) (seq 0 (slides s));
       aria_live := aria_live s;
       pauseBtn := pauseBtn s |}.

Definition set_currentSlide (i : Z) (s : t) : t :=
  {| slides := slides s;
     currentSlide := i;
     isPaused := isPaused s;
     slide_active := slide_active s;
     aria_live := aria_live s;
     pauseBtn := pauseBtn s |}.

(** [goToNextSlide()]; JavaScript's [%] is the truncating remainder. *)
Definition goToNextSlide (s : t) : t :=
  updateSlider
    (set_currentSlide (Z.rem (currentSlide s + 1) (Z.of_nat (slides s))) s).

(** [goToPrevSlide()] *)
Definition goToPrevSlide (s : t) : t :=
  updateSlider
    (set_currentSlide
       (Z.rem (currentSlide s - 1 + Z.of_nat (slides s)) (Z.of_nat (slides s))) s).

(** [handleSwipe(startX, endX)] *)
Definition handleSwipe (startX endX : Z) (s : t) : t :=
  let diff := startX - endX in
  let threshold := 50 in
  if threshold <? Z.abs diff then
    if 0 <? diff then goToNextSlide s else goToPrevSlide s
  else s.

(** [new HeroSlider(container)], for a container with [n] slides whose
    markup carries the classes [active0]: [init()] returns early, attaching
    no listener, when the track is missing or there is no slide. *)
Definition create (track : bool) (n : nat) (active0 : list bool)
    (live0 : string) (pause0 : option pause_button) : t :=
  let s :=
    {| slides := n; currentSlide := 0; isPaused := false;
       slide_active := active0; aria_live := live0; pauseBtn := pause0 |} in
  if negb track || Nat.eqb n 0 then s else updateAriaLabels s.

(** The last slide: the hero shows one slide at a time. *)
Definition maxIndex (s : t) : Z := Z.max 0 (Z.of_nat (slides s) - 1).

Inductive op := Next | Prev.

Definition perform (s : t) (o : op) : t :=
  match o with
  | Next => goToNextSlide s
  | Prev => goToPrevSlide s
  end.

Definition run (s : t) (ops : list op) : t := fold_left perform ops s.

End HeroSlider.

(** ** School-choice slider (class [ChooseSchoolSlider]) *)

Module ChooseSchoolSlider.

Record t := {
  cards : nat;               (* this.cards.length *)
  prevBtn : option button;
  nextBtn : option button;
  dots : list dot;
  currentIndex : Z;
  cardsPerView : Z;
  maxIndex : Z;
  transform : option Z;      (* track.style.transform = translateX(<z>px) *)
  transition_none : bool     (* track.style.transition = 'none' *)
}.

(** [getCardsPerView()], as a function of [window.innerWidth]. *)
Definition getCardsPerView (width : Z) : Z :=
  if width <? 480 then 1
  else if width <? 768 then 1
  else if width <? 1024 then 2
  else 4.

(** [this.cards[0]?.offsetWidth || 0] *)
Definition cardWidth (e : env) (s : t) : Z :=
  match cards s with
  | O => 0
  | S _ => offsetWidth e
  end.

Definition set_currentIndex (i : Z) (s : t) : t :=
  {| cards := cards s;
     prevBtn := prevBtn s;
     nextBtn := nextBtn s;
     dots := dots s;
     currentIndex := i;
     cardsPerView := cardsPerView s;
     maxIndex := maxIndex s;
     transform := transform s;
     transition_none := transition_none s |}.

Definition set_transform (tr : option Z) (s : t) : t :=
  {| cards := cards s;
     prevBtn := prevBtn s;
     nextBtn := nextBtn s;
     dots := dots s;
     currentIndex := currentIndex s;
     cardsPerView := cardsPerView s;
     maxIndex := maxIndex s;
     transform := tr;
     transition_none := transition_none s |}.

Definition set_transition_none (b : bool) (s : t) : t :=
  {| cards := cards s;
     prevBtn := prevBtn s;
     nextBtn := nextBtn s;
     dots := dots s;
     currentIndex := currentIndex s;
     cardsPerView := cardsPerView s;
     maxIndex := maxIndex s;
     transform := transform s;
     transition_none := b |}.

Definition set_dots (l : list dot) (s : t) : t :=
  {| cards := cards s;
     prevBtn := prevBtn s;
     nextBtn := nextBtn s;
     dots := l;
     currentIndex := currentIndex s;
     cardsPerView := cardsPerView s;
     maxIndex := maxIndex s;
     transform := transform s;
     transition_none := transition_none s |}.

Definition set_prevBtn (btn : option button) (s : t) : t :=
  {| cards := cards s;
     prevBtn := btn;
     nextBtn := nextBtn s;
     dots := dots s;
     currentIndex := currentIndex s;
     cardsPerView := cardsPerView s;
     maxIndex := maxIndex s;
     transform := transform s;
     transition_none := transition_none s |}.

Definition set_nextBtn (btn : option button) (s : t) : t :=
  {| cards := cards s;
     prevBtn := prevBtn s;
     nextBtn := btn;
     dots := dots s;
     currentIndex := currentIndex s;
     cardsPerView := cardsPerView s;
     maxIndex := maxIndex s;
     transform := transform s;
     transition_none := transition_none s |}.

(** [updateSlider()] *)
Definition updateSlider (e : env) (s : t) : t :=
  let cardWidth := cardWidth e s in
  let gap := 24 in
  let offset := - (currentIndex s * (cardWidth + gap)) in
  let s1 :=
    if negb (reducedMotion e) then set_transform (Some offset) s
    else set_transition_none true (set_transform (Some offset) s) in
  let s2 :=
    set_dots
      (imap (fun index _ =>
               let isActive := Z.of_nat index =? currentIndex s1 in
               {| dot_active := isActive; aria_selected := isActive |})
            (dots s1)) s1 in
  let s3 :=
    match prevBtn s2 with
    | Some _ =>
        set_prevBtn (Some {| disabled := currentIndex s2 =? 0;
                             aria_disabled := currentIndex s2 =? 0 |}) s2
    | None => s2
    end in
  match nextBtn s3 with
  | Some _ =>
      set_nextBtn (Some {| disabled := currentIndex s3 =? maxIndex s3;
                           aria_disabled := currentIndex s3 =? maxIndex s3 |}) s3
  | None => s3
  end.

(** [goToNext()] *)
Definition goToNext (e : env) (s : t) : t :=
  if currentIndex s <? maxIndex s
  then updateSlider e (set_currentIndex (currentIndex s + 1) s)
  else s.

(** [goToPrev()] *)
Definition goToPrev (e : env) (s : t) : t :=
  if 0 <? currentIndex s
  then updateSlider e (set_currentIndex (currentIndex s - 1) s)
  else s.

(** [goToIndex(index)] *)
Definition goToIndex (e : env) (index : Z) (s : t) : t :=
  updateSlider e (set_currentIndex (Z.min index (maxIndex s)) s).

(** The debounced callback registered by [handleResize()]. *)
Definition onResize (e : env) (s : t) : t :=
  let cpv := getCardsPerView (innerWidth e) in
  let mx := Z.max 0 (Z.of_nat (cards s) - cpv) in
  updateSlider e
    {| cards := cards s; prevBtn := prevBtn s; nextBtn := nextBtn s;
       dots := dots s;
       currentIndex := Z.min (currentIndex s) mx;
       cardsPerView := cpv;
       maxIndex := mx;
       transform := transform s; transition_none := transition_none s |}.

(** [handleSwipe(startX, endX)] *)
Definition handleSwipe (e : env) (startX endX : Z) (s : t) : t :=
  let diff := startX - endX in
  let threshold := 50 in
  if threshold <? Z.abs diff then
    if 0 <? diff then goToNext e s else goToPrev e s
  else s.

(** What the container holds when the script starts. *)
Record markup := {
  m_track : bool;            (* a .choose-school__track was found *)
  m_cards : nat;
  m_prevBtn : option button;
  m_nextBtn : option button;
  m_dots : list dot;
  m_transform : option Z;
  m_transition_none : bool
}.

(** The constructor up to the call of [init()]. *)
Definition construct (e : env) (m : markup) : t :=
  let cpv := getCardsPerView (innerWidth e) in
  {| cards := m_cards m; prevBtn := m_prevBtn m; nextBtn := m_nextBtn m;
     dots := m_dots m;
     currentIndex := 0;
     cardsPerView := cpv;
     maxIndex := Z.max 0 (Z.of_nat (m_cards m) - cpv);
     transform := m_transform m;
     transition_none := m_transition_none m |}.

(** [init()] returns early, attaching nothing, without a track or cards. *)
Definition initialised (m : markup) : bool :=
  m_track m && negb (Nat.eqb (m_cards m) 0).

(** [new ChooseSchoolSlider(container)] *)
Definition create (e : env) (m : markup) : t :=
  if initialised m then updateSlider e (construct e m) else construct e m.

(** Calls made by the listeners: each carries what the browser reports
    when it runs. *)
Inductive op :=
| Next
| Prev
| GoToIndex (index : Z)
| Resize.

Definition perform (s : t) (c : env * op) : t :=
  match snd c with
  | Next => goToNext (fst c) s
  | Prev => goToPrev (fst c) s
  | GoToIndex index => goToIndex (fst c) index s
  | Resize => onResize (fst c) s
  end.

Definition run (s : t) (calls : list (env * op)) : t :=
  fold_left perform calls s.

(** The dot listeners call [goToIndex] with the dot's position. *)
Definition from_dot (o : op) : Prop :=
  match o with
  | GoToIndex index => 0 <= index
  | _ => True
  end.

(** The viewport width the slider last sized itself for: that of the
    latest resize callback, or else the one read by the constructor. *)
Definition lastWidth (w0 : Z) (calls : list (env * op)) : Z :=
  fold_left
    (fun w c => match snd c with Resize => innerWidth (fst c) | _ => w end)
    calls w0.

End ChooseSchoolSlider.

(** ** Exhibition-benefits slider (class [ExhibitionBenefitsSlider]) *)

Module ExhibitionBenefitsSlider.

(** Variables captured by the listeners of [setupEventListeners()]. *)
Record closure := {
  touchStartX : Z;
  touchEndX : Z;
  isDragging : bool;
  startX : Z;
  prevTranslate : Z;
  currentTranslate : Z
}.

Record t := {
  track : bool;              (* a .exhibition-benefits__track was found *)
  cards : nat;               (* this.cards.length *)
  prevBtn : option button;
  nextBtn : option button;
  currentIndex : Z;
  cardsPerView : Z;
  maxIndex : Z;
  _activated : bool;
  transform : option Z;      (* track.style.transform = translateX(<z>px) *)
  transition_none : bool;    (* track.style.transition = 'none' *)
  vars : closure
}.

(** [getCardsPerView()], as a function of [window.innerWidth]. *)
Definition getCardsPerView (width : Z) : Z :=
  if width <? 480 then 1
  else if width <? 768 then 1
  else if width <? 1024 then 2
  else 4.

(** [this.cards[0]?.offsetWidth || 0] *)
Definition cardWidth (e : env) (s : t) : Z :=
  match cards s with
  | O => 0
  | S _ => offsetWidth e
  end.

Definition set_currentIndex (i : Z) (s : t) : t :=
  {| track := track s;
     cards := cards s;
     prevBtn := prevBtn s;
     nextBtn := nextBtn s;
     currentIndex := i;
     cardsPerView := cardsPerView s;
     maxIndex := maxIndex s;
     _activated := _activated s;
     transform := transform s;
     transition_none := transition_none s;
     vars := vars s |}.

Definition set_vars (v : closure) (s : t) : t :=
  {| track := track s;
     cards := cards s;
     prevBtn := prevBtn s;
     nextBtn := nextBtn s;
     currentIndex := currentIndex s;
     cardsPerView := cardsPerView s;
     maxIndex := maxIndex s;
     _activated := _activated s;
     transform := transform s;
     transition_none := transition_none s;
     vars := v |}.

Definition set_transform (tr : option Z) (s : t) : t :=
  {| track := track s;
     cards := cards s;
     prevBtn := prevBtn s;
     nextBtn := nextBtn s;
     currentIndex := currentIndex s;
     cardsPerView := cardsPerView s;
     maxIndex := maxIndex s;
     _activated := _activated s;
     transform := tr;
     transition_none := transition_none s;
     vars := vars s |}.

Definition set_transition_none (b : bool) (s : t) : t :=
  {| track := track s;
     cards := cards s;
     prevBtn := prevBtn s;
     nextBtn := nextBtn s;
     currentIndex := currentIndex s;
     cardsPerView := cardsPerView s;
     maxIndex := maxIndex s;
     _activated := _activated s;
     transform := transform s;
     transition_none := b;
     vars := vars s |}.

Definition set_prevBtn (btn : option button) (s : t) : t :=
  {| track := track s;
     cards := cards s;
     prevBtn := btn;
     nextBtn := nextBtn s;
     currentIndex := currentIndex s;
     cardsPerView := cardsPerView s;
     maxIndex := maxIndex s;
     _activated := _activated s;
     transform := transform s;
     transition_none := transition_none s;
     vars := vars s |}.

Definition set_nextBtn (btn : option button) (s : t) : t :=
  {| track := track s;
     cards := cards s;
     prevBtn := prevBtn s;
     nextBtn := btn;
     currentIndex := currentIndex s;
     cardsPerView := cardsPerView s;
     maxIndex := maxIndex s;
     _activated := _activated s;
     transform := transform s;
     transition_none := transition_none s;
     vars := vars s |}.

(** [updateSlider()] *)
Definition updateSlider (e : env) (s : t) : t :=
  let cardWidth := cardWidth e s in
  let gap := 24 in
  let offset := - (currentIndex s * (cardWidth + gap)) in
  let s1 :=
    if negb (reducedMotion e) then set_transform (Some offset) s
    else set_transition_none true (set_transform (Some offset) s) in
  let s2 :=
    match prevBtn s1 with
    | Some _ =>
        set_prevBtn (Some {| disabled := currentIndex s1 =? 0;
                             aria_disabled := currentIndex s1 =? 0 |}) s1
    | None => s1
    end in
  match nextBtn s2 with
  | Some _ =>
      set_nextBtn (Some {| disabled := currentIndex s2 =? maxIndex s2;
                           aria_disabled := currentIndex s2 =? maxIndex s2 |}) s2
  | None => s2
  end.

(** [goToNext()] *)
Definition goToNext (e : env) (s : t) : t :=
  if currentIndex s <? maxIndex s
  then updateSlider e (set_currentIndex (currentIndex s + 1) s)
  else s.

(** [goToPrev()] *)
Definition goToPrev (e : env) (s : t) : t :=
  if 0 <? currentIndex s
  then updateSlider e (set_currentIndex (currentIndex s - 1) s)
  else s.

(** The debounced callback registered by [handleResize()]. *)
Definition onResize (e : env) (s : t) : t :=
  let cpv := getCardsPerView (innerWidth e) in
  let mx := Z.max 0 (Z.of_nat (cards s) - cpv) in
  updateSlider e
    {| track := track s; cards := cards s;
       prevBtn := prevBtn s; nextBtn := nextBtn s;
       currentIndex := Z.min (currentIndex s) mx;
       cardsPerView := cpv;
       maxIndex := mx;
       _activated := _activated s;
       transform := transform s; transition_none := transition_none s;
       vars := vars s |}.

(** [handleSwipe(startX, endX)] *)
Definition handleSwipe (e : env) (startX endX : Z) (s : t) : t :=
  let diff := startX - endX in
  let threshold := 50 in
  if threshold <? Z.abs diff then
    if 0 <? diff then goToNext e s else goToPrev e s
  else s.

(** [Math.round(a / b)] for integers [a] and [b] with [0 < b]: the nearest
    integer, a tie going up. *)
Definition round_div (a b : Z) : Z := (2 * a + b) / (2 * b).

(** First [touchstart] listener of the track. *)
Definition onTouchStart (screenX : Z) (s : t) : t :=
  let v := vars s in
  set_vars {| touchStartX := screenX; touchEndX := touchEndX v;
              isDragging := isDragging v; startX := startX v;
              prevTranslate := prevTranslate v;
              currentTranslate := currentTranslate v |} s.

(** First [touchend] listener of the track. *)
Definition onTouchEnd (e : env) (screenX : Z) (s : t) : t :=
  let v := vars s in
  handleSwipe e (touchStartX v) screenX
    (set_vars {| touchStartX := touchStartX v; touchEndX := screenX;
                 isDragging := isDragging v; startX := startX v;
                 prevTranslate := prevTranslate v;
                 currentTranslate := currentTranslate v |} s).

(** [onPointerDown], with [x = e.pageX ?? e.touches[0].pageX]. *)
Definition onPointerDown (x : Z) (s : t) : t :=
  let v := vars s in
  set_transition_none true
    (set_vars {| touchStartX := touchStartX v; touchEndX := touchEndX v;
                 isDragging := true; startX := x;
                 prevTranslate := currentTranslate v;
                 currentTranslate := currentTranslate v |} s).

(** [onPointerMove] *)
Definition onPointerMove (x : Z) (s : t) : t :=
  let v := vars s in
  if negb (isDragging v) then s
  else
    let movedBy := x - startX v in
    let ct := prevTranslate v + movedBy in
    set_transform (Some ct)
      (set_vars {| touchStartX := touchStartX v; touchEndX := touchEndX v;
                   isDragging := isDragging v; startX := startX v;
                   prevTranslate := prevTranslate v;
                   currentTranslate := ct |} s).

(** [onPointerUp] *)
Definition onPointerUp (e : env) (s : t) : t :=
  let v := vars s in
  if negb (isDragging v) then s
  else
    let s1 :=
      set_transition_none false
        (set_vars {| touchStartX := touchStartX v; touchEndX := touchEndX v;
                     isDragging := false; startX := startX v;
                     prevTranslate := prevTranslate v;
                     currentTranslate := currentTranslate v |} s) in
    let gap := 24 in
    let slideWidth := cardWidth e s1 + gap in
    let index := round_div (- currentTranslate v) slideWidth in
    updateSlider e
      (set_currentIndex (Z.max 0 (Z.min (maxIndex s1) index)) s1).

(** The [wheel] listener of the track. *)
Definition onWheel (e : env) (deltaX deltaY : Z) (s : t) : t :=
  if Z.abs deltaX <? Z.abs deltaY then
    if 5 <? deltaY then goToNext e s
    else if deltaY <? -5 then goToPrev e s
    else s
  else s.

(** The [keydown] listener of the container. *)
Definition onKeyDown (e : env) (key : string) (s : t) : t :=
  let s1 := if String.eqb key "ArrowLeft" then goToPrev e s else s in
  if String.eqb key "ArrowRight" then goToNext e s1 else s1.

(** What the container holds when the script starts. *)
Record markup := {
  m_track : bool;
  m_cards : nat;
  m_prevBtn : option button;
  m_nextBtn : option button;
  m_transform : option Z;
  m_transition_none : bool
}.

(** The constructor up to [if (autoInit) this.init()]. *)
Definition construct (e : env) (m : markup) : t :=
  let cpv := getCardsPerView (innerWidth e) in
  {| track := m_track m; cards := m_cards m;
     prevBtn := m_prevBtn m; nextBtn := m_nextBtn m;
     currentIndex := 0;
     cardsPerView := cpv;
     maxIndex := Z.max 0 (Z.of_nat (m_cards m) - cpv);
     _activated := false;
     transform := m_transform m;
     transition_none := m_transition_none m;
     vars := {| touchStartX := 0; touchEndX := 0; isDragging := false;
                startX := 0; prevTranslate := 0; currentTranslate := 0 |} |}.

Definition set_activated (b : bool) (s : t) : t :=
  {| track := track s;
     cards := cards s;
     prevBtn := prevBtn s;
     nextBtn := nextBtn s;
     currentIndex := currentIndex s;
     cardsPerView := cardsPerView s;
     maxIndex := maxIndex s;
     _activated := b;
     transform := transform s;
     transition_none := transition_none s;
     vars := vars s |}.

(** [init()] *)
Definition init (e : env) (s : t) : t :=
  if _activated s then s
  else if negb (track s) || Nat.eqb (cards s) 0 then s
  else updateSlider e (set_activated true s).

(** [new ExhibitionBenefitsSlider(container, autoInit)] *)
Definition create (e : env) (m : markup) (autoInit : bool) : t :=
  if autoInit then init e (construct e m) else construct e m.

(** Calls made by the buttons and the resize callback. *)
Inductive op :=
| Next
| Prev
| Resize.

Definition perform (s : t) (c : env * op) : t :=
  match snd c with
  | Next => goToNext (fst c) s
  | Prev => goToPrev (fst c) s
  | Resize => onResize (fst c) s
  end.

Definition run (s : t) (calls : list (env * op)) : t :=
  fold_left perform calls s.

(** The viewport width the slider last sized itself for. *)
Definition lastWidth (w0 : Z) (calls : list (env * op)) : Z :=
  fold_left
    (fun w c => match snd c with Resize => innerWidth (fst c) | _ => w end)
    calls w0.

(** Browser events that reach the listeners attached by [init()]. *)
Inductive event :=
| ClickPrev
| ClickNext
| TouchStart (screenX pageX : Z)
| TouchMove (pageX : Z)
| TouchEnd (screenX : Z)
| MouseDown (pageX : Z)
| MouseMove (pageX : Z)
| MouseUp
| Wheel (deltaX deltaY : Z)
| KeyDown (key : string)
| WindowResize.

(** Listeners run in the order in which [setupEventListeners()] attached
    them; before [init()] has run there is none. *)
Definition dispatch (s : t) (c : env * event) : t :=
  let e := fst c in
  if negb (_activated s) then s
  else
    match snd c with
    | ClickPrev => match prevBtn s with Some _ => goToPrev e s | None => s end
    | ClickNext => match nextBtn s with Some _ => goToNext e s | None => s end
    | TouchStart screenX pageX => onPointerDown pageX (onTouchStart screenX s)
    | TouchMove pageX => onPointerMove pageX s
    | TouchEnd screenX => onPointerUp e (onTouchEnd e screenX s)
    | MouseDown pageX => onPointerDown pageX s
    | MouseMove pageX => onPointerMove pageX s
    | MouseUp => onPointerUp e s
    | Wheel deltaX deltaY => onWheel e deltaX deltaY s
    | KeyDown key => onKeyDown e key s
    | WindowResize => onResize e s
    end.

Definition dispatch_all (s : t) (evs : list (env * event)) : t :=
  fold_left dispatch evs s.

End ExhibitionBenefitsSlider.

(** ** JavaScript strings *)

Module JS.

(** A string of ASCII characters as UTF-16 code units. *)
Definition of_string (s : string) : list N :=
  map Ascii.N_of_ascii (String.list_ascii_of_string s).

(** Code units removed by [String.prototype.trim]: ECMAScript's WhiteSpace
    and LineTerminator. *)
Definition isWhiteSpace (c : N) : bool :=
  ((9 <=? c) && (c <=? 13)         (* TAB, LF, VT, FF, CR *)
   || (c =? 32)                    (* SPACE *)
   || (c =? 160)                   (* NO-BREAK SPACE *)
   || (c =? 5760)                  (* U+1680 *)
   || ((8192 <=? c) && (c <=? 8202))  (* U+2000 .. U+200A *)
   || (c =? 8232) || (c =? 8233)   (* LINE and PARAGRAPH SEPARATOR *)
   || (c =? 8239)                  (* U+202F *)
   || (c =? 8287)                  (* U+205F *)
   || (c =? 12288)                 (* U+3000 *)
   || (c =? 65279))%N.             (* U+FEFF *)

Fixpoint trimStart (s : list N) : list N :=
  match s with
  | c :: s' => if isWhiteSpace c then trimStart s' else s
  | [] => []
  end.

Definition trimEnd (s : list N) : list N := rev (trimStart (rev s)).

(** [s.trim()] *)
Definition trim (s : list N) : list N := trimEnd (trimStart s).

(** Truthiness of a string: [!s] holds of the empty string only. *)
Definition truthy (s : list N) : bool :=
  match s with
  | [] => false
  | _ :: _ => true
  end.

(** The class [[0-9]]. *)
Definition isDigit (c : N) : bool := ((48 <=? c) && (c <=? 57))%N.

(** [[0-9]{n}] at the head of [s]: what is left after it, if it matches. *)
Fixpoint digits (n : nat) (s : list N) : option (list N) :=
  match n with
  | O => Some s
  | S n' =>
      match s with
      | c :: s' => if isDigit c then digits n' s' else None
      | [] => None
      end
  end.

(** [/^[0-9]{10}$/.test(s)]: ten digits from the start, then the end of
    the input (no flag is set, so [$] is the end of the string). *)
Definition phoneRegex_test (s : list N) : bool :=
  match digits 10 s with
  | Some [] => true
  | _ => false
  end.

(** Surrogate code units, U+D800 to U+DBFF and U+DC00 to U+DFFF. *)
Definition isLeadSurrogate (c : N) : bool := ((55296 <=? c) && (c <=? 56319))%N.

Definition isTrailSurrogate (c : N) : bool := ((56320 <=? c) && (c <=? 57343))%N.

(** Conversion to a scalar value string ([String.prototype.toWellFormed]):
    every surrogate that is not part of a pair becomes U+FFFD. *)
Fixpoint toWellFormed (s : list N) : list N :=
  match s with
  | c :: s' =>
      if isLeadSurrogate c then
        match s' with
        | d :: s'' =>
            if isTrailSurrogate d then c :: d :: toWellFormed s''
            else 65533%N :: toWellFormed s'
        | [] => [65533%N]
        end
      else if isTrailSurrogate c then 65533%N :: toWellFormed s'
      else c :: toWellFormed s'
  | [] => []
  end.

(** ASCII lowercase of a string. *)
Fixpoint toASCIILower (s : string) : string :=
  match s with
  | String a s' =>
      let n := Ascii.nat_of_ascii a in
      String (if Nat.leb 65 n && Nat.leb n 90 then Ascii.ascii_of_nat (n + 32) else a)
             (toASCIILower s')
  | EmptyString => EmptyString
  end.

(** The delay [setTimeout] works with: its argument converted to a 32-bit
    signed integer (Web IDL [long]), a negative result counting as 0. *)
Definition toInt32 (z : Z) : Z :=
  let m := z mod 4294967296 in
  if m <? 2147483648 then m else m - 4294967296.

Definition timerDelay (ms : Z) : Z := Z.max 0 (toInt32 ms).

End JS.

(** ** Enquiry form (class [FormValidator]) *)

Module FormValidator.

(** An [input] of the form.  [f_parent] names its parent node.  The inputs
    found under the form are taken to be exactly its controls (no
    [select], [textarea] or [button] element, no [form] attribute), none
    of them inside a [datalist] or carrying a [dirname] attribute. *)
Record field := {
  f_id : string;
  f_name : string;
  f_type : string;                     (* field.type *)
  f_required : bool;                   (* field.hasAttribute('required') *)
  f_value : list N;
  f_default : list N;                  (* the value the form resets to *)
  f_parent : nat;
  aria_invalid : bool;
  aria_describedby : option string;
  error_class : bool;                  (* enquiry-form__input--error *)
  f_checked : bool;                    (* field.checked *)
  f_default_checked : bool;            (* field.defaultChecked *)
  f_disabled : bool;                   (* disabled, by itself or by a fieldset *)
  f_files : list (list N)              (* names of the selected files *)
}.

(** The value of an entry of a [FormData] object: a string, or a file
    (known here by its name). *)
Inductive entry_value :=
| Text (v : list N)
| File (name : list N).

(** A [div.enquiry-form__error] ([role="alert"]) and the node it hangs
    under. *)
Record error_div := { e_parent : nat; e_id : string; e_text : string }.

(** The form, the timers it has armed and the console.  [errors] lists the
    error elements in document order; parent nodes of inputs are taken not
    to be nested in one another.  [success] holds the success elements
    that are children of the form, named by their creation number. *)
Record state := {
  inputs : list field;                 (* form.querySelectorAll('input') *)
  errors : list error_div;
  success : list nat;
  created : nat;
  timers : list (Z * nat);             (* due time, success element to remove *)
  now : Z;                             (* milliseconds *)
  console : list (gmap string entry_value)
}.

Definition requiredMessage : string := "This field is required".
Definition phoneMessage : string := "Please enter a valid 10-digit phone number".
Definition successMessage : string := "Thank you! We will contact you soon.".

(** The decision of [validateField(field)]: [(isValid, errorMessage)]. *)
Definition check (x : field) : bool * string :=
  let value := JS.trim (f_value x) in
  if f_required x && negb (JS.truthy value) then (false, requiredMessage)
  else if String.eqb (f_type x) "tel" && JS.truthy value then
    if negb (JS.phoneRegex_test value) then (false, phoneMessage)
    else (true, EmptyString)
  else (true, EmptyString).

(** [parent.querySelector('.enquiry-form__error')?.remove()] *)
Fixpoint remove_first_error (p : nat) (l : list error_div) : list error_div :=
  match l with
  | d :: l' => if Nat.eqb (e_parent d) p then l' else d :: remove_first_error p l'
  | [] => []
  end.

Definition set_inputs (l : list field) (st : state) : state :=
  {| inputs := l; errors := errors st; success := success st;
     created := created st; timers := timers st; now := now st;
     console := console st |}.

Definition set_errors (l : list error_div) (st : state) : state :=
  {| inputs := inputs st; errors := l; success := success st;
     created := created st; timers := timers st; now := now st;
     console := console st |}.

Definition mark (invalid : bool) (describedby : option string) (x : field) : field :=
  {| f_id := f_id x; f_name := f_name x; f_type := f_type x;
     f_required := f_required x; f_value := f_value x;
     f_default := f_default x; f_parent := f_parent x;
     aria_invalid := invalid;
     aria_describedby := describedby;
     error_class := invalid;
     f_checked := f_checked x; f_default_checked := f_default_checked x;
     f_disabled := f_disabled x; f_files := f_files x |}.

(** [clearError(field)], for the input at position [i]. *)
Definition clearError (i : nat) (st : state) : state :=
  match inputs st !! i with
  | Some x =>
      set_errors (remove_first_error (f_parent x) (errors st))
        (set_inputs (<[i := mark false None x]> (inputs st)) st)
  | None => st
  end.

(** [showError(field, message)] *)
Definition showError (i : nat) (message : string) (st : state) : state :=
  let st1 := clearError i st in
  match inputs st1 !! i with
  | Some x =>
      let errorDiv :=
        {| e_parent := f_parent x;
           e_id := String.append (f_id x) "-error";
           e_text := message |} in
      set_errors (errors st1 ++ [errorDiv])
        (set_inputs (<[i := mark true (Some (e_id errorDiv)) x]> (inputs st1)) st1)
  | None => st1
  end.

(** [validateField(field)]: the new state and the returned [isValid]. *)
Definition validateField (i : nat) (st : state) : state * bool :=
  match inputs st !! i with
  | Some x =>
      let '(isValid, errorMessage) := check x in
      (if negb isValid then showError i errorMessage st else clearError i st,
       isValid)
  | None => (st, true)
  end.

(** Positions of [form.querySelectorAll('input[required]')]. *)
Definition requiredInputs (st : state) : list nat :=
  omap (fun p => if f_required (snd p) then Some (fst p) else None)
       (imap pair (inputs st)).

(** [validateForm()] *)
Definition validateForm (st : state) : state * bool :=
  fold_left
    (fun acc i =>
       let '(st1, ok) := validateField i (fst acc) in
       (st1, if negb ok then false else snd acc))
    (requiredInputs st) (st, true).

(** Input types that are buttons: [new FormData(form)] has no submitter,
    so none of them contributes. *)
Definition isButton (type : string) : bool :=
  existsb (String.eqb type) ["submit"; "image"; "reset"; "button"].

(** The entries one input contributes to [new FormData(form)] (HTML,
    constructing the entry list): none for a disabled input, a button, an
    unchecked checkbox or radio button, or an input without a name; one
    per selected file for a file input (an empty file when none is
    selected); the encoding's name for a hidden input named [_charset_];
    otherwise the input's value.  Strings are stored as scalar value
    strings. *)
Definition entries (x : field) : list (string * entry_value) :=
  if f_disabled x then []
  else if isButton (f_type x) then []
  else if (String.eqb (f_type x) "checkbox" || String.eqb (f_type x) "radio")
          && negb (f_checked x) then []
  else if String.eqb (f_name x) EmptyString then []
  else if String.eqb (f_type x) "file" then
    match f_files x with
    | [] => [(f_name x, File [])]
    | files => map (fun name => (f_name x, File name)) files
    end
  else if String.eqb (f_type x) "hidden"
          && String.eqb (JS.toASCIILower (f_name x)) "_charset_" then
    [(f_name x, Text (JS.of_string "UTF-8"))]
  else [(f_name x, Text (JS.toWellFormed (f_value x)))].

(** [Object.fromEntries(new FormData(form).entries())]: the entries of the
    inputs in document order, a later entry replacing an earlier one of
    the same name. *)
Definition formData (st : state) : gmap string entry_value :=
  fold_left
    (fun (m : gmap string entry_value) p => <[fst p := snd p]> m)
    (flat_map entries (inputs st)) ∅.

(** [showSuccessMessage()] *)
Definition showSuccessMessage (st : state) : state :=
  {| inputs := inputs st; errors := errors st;
     success := success st ++ [created st];
     created := S (created st);
     timers := timers st ++ [(now st + 5000, created st)];
     now := now st;
     console := console st |}.

Definition reset_field (x : field) : field :=
  {| f_id := f_id x; f_name := f_name x; f_type := f_type x;
     f_required := f_required x; f_value := f_default x;
     f_default := f_default x; f_parent := f_parent x;
     aria_invalid := aria_invalid x;
     aria_describedby := aria_describedby x;
     error_class := error_class x;
     f_checked := f_default_checked x;
     f_default_checked := f_default_checked x;
     f_disabled := f_disabled x; f_files := [] |}.

(** [this.form.reset()] *)
Definition reset (st : state) : state :=
  set_inputs (map reset_field (inputs st)) st.

(** [handleSubmit()] *)
Definition handleSubmit (st : state) : state :=
  let data := formData st in
  let st1 :=
    {| inputs := inputs st; errors := errors st; success := success st;
       created := created st; timers := timers st; now := now st;
       console := console st ++ [data] |} in
  reset (showSuccessMessage st1).

(** The [submit] listener. *)
Definition onSubmit (st : state) : state :=
  let '(st1, ok) := validateForm st in
  if ok then handleSubmit st1 else st1.

(** The [blur] listener of input [i]. *)
Definition onBlur (i : nat) (st : state) : state := fst (validateField i st).

(** The [input] listener of input [i], run after the browser stored the
    new value [v]. *)
Definition onInput (i : nat) (v : list N) (st : state) : state :=
  match inputs st !! i with
  | Some x =>
      clearError i
        (set_inputs
           (<[i := {| f_id := f_id x; f_name := f_name x; f_type := f_type x;
                      f_required := f_required x; f_value := v;
                      f_default := f_default x; f_parent := f_parent x;
                      aria_invalid := aria_invalid x;
                      aria_describedby := aria_describedby x;
                      error_class := error_class x;
                      f_checked := f_checked x;
                      f_default_checked := f_default_checked x;
                      f_disabled := f_disabled x;
                      f_files := f_files x |}]> (inputs st)) st)
  | None => st
  end.

(** [dt] milliseconds pass: the timers that are due run, each removing its
    success element. *)
Definition advance (dt : Z) (st : state) : state :=
  let t := now st + dt in
  let due := List.filter (fun p => Z.leb (fst p) t) (timers st) in
  {| inputs := inputs st; errors := errors st;
     success :=
       List.filter (fun n => negb (existsb (fun p => Nat.eqb (snd p) n) due))
              (success st);
     created := created st;
     timers := List.filter (fun p => negb (Z.leb (fst p) t)) (timers st);
     now := t;
     console := console st |}.

(** The form as the script finds it: nothing logged, no timer armed. *)
Definition load (fields : list field) (errs : list error_div) : state :=
  {| inputs := fields; errors := errs; success := []; created := O;
     timers := []; now := 0; console := [] |}.

(** What can happen to the form afterwards. *)
Inductive event :=
| Blur (i : nat)
| Input (i : nat) (v : list N)
| Submit
| Elapse (dt : Z).

Definition handle (st : state) (ev : event) : state :=
  match ev with
  | Blur i => onBlur i st
  | Input i v => onInput i v st
  | Submit => onSubmit st
  | Elapse dt => advance dt st
  end.

Definition run (st : state) (evs : list event) : state := fold_left handle evs st.

End FormValidator.

(** ** Scroll-reveal observer ([initScrollAnimations]) and the page *)

Module Page.

(** The options handed to [new IntersectionObserver]. *)
Record options := { threshold : Q; rootMargin : string }.

Definition observerOptions : options :=
  {| threshold := (1 # 10)%Q; rootMargin := "0px 0px -50px 0px" |}.

(** The observer: its options and the elements it currently observes,
    named by their position in the document. *)
Record observer := { opts : options; observed : gset nat }.

(** The page: the class list of each element of the document, the
    observer if one was installed, and [window.__benefitsSlider]. *)
Record t := {
  elements : list (gset string);
  scrollObserver : option observer;
  benefitsSlider : option ExhibitionBenefitsSlider.t
}.

(** The selector of [initScrollAnimations]:
    [.stats, .participating-schools, .choose-school, .appointments,
     .exhibition-benefits]. *)
Definition trackedClasses : list string :=
  ["stats"; "participating-schools"; "choose-school"; "appointments";
   "exhibition-benefits"].

Definition contains (c : string) (classList : gset string) : bool :=
  bool_decide (c ∈ classList).

Definition tracked (classList : gset string) : bool :=
  existsb (fun c => contains c classList) trackedClasses.

(** Positions of the elements the selector matches. *)
Definition trackedSections (doc : list (gset string)) : list nat :=
  omap (fun p => if tracked (snd p) then Some (fst p) else None)
       (imap pair doc).

(** [initScrollAnimations()] *)
Definition initScrollAnimations (e : env) (p : t) : t :=
  if reducedMotion e then p
  else
    {| elements := elements p;
       scrollObserver :=
         Some {| opts := observerOptions;
                 observed := list_to_set (trackedSections (elements p)) |};
       benefitsSlider := benefitsSlider p |}.

(** One [IntersectionObserverEntry]. *)
Record entry := { target : nat; isIntersecting : bool }.

Definition hasClass (c : string) (i : nat) (p : t) : bool :=
  match elements p !! i with
  | Some classList => contains c classList
  | None => false
  end.

(** [classList.add(c)] on element [i]. *)
Definition addClass (c : string) (i : nat) (p : t) : t :=
  {| elements := alter (fun classList => {[c]} ∪ classList) i (elements p);
     scrollObserver := scrollObserver p;
     benefitsSlider := benefitsSlider p |}.

(** [window.__benefitsSlider.init()] *)
Definition initBenefits (e : env) (p : t) : t :=
  {| elements := elements p;
     scrollObserver := scrollObserver p;
     benefitsSlider :=
       match benefitsSlider p with
       | Some slider => Some (ExhibitionBenefitsSlider.init e slider)
       | None => None
       end |}.

(** [observer.unobserve(element i)] *)
Definition unobserve (i : nat) (p : t) : t :=
  {| elements := elements p;
     scrollObserver :=
       match scrollObserver p with
       | Some o => Some {| opts := opts o; observed := observed o ∖ {[i]} |}
       | None => None
       end;
     benefitsSlider := benefitsSlider p |}.

(** The body of the observer callback for one entry. *)
Definition onEntry (e : env) (p : t) (en : entry) : t :=
  if isIntersecting en then
    let p1 := addClass "animate-in" (target en) p in
    let p2 :=
      if hasClass "exhibition-benefits" (target en) p1
         && bool_decide (is_Some (benefitsSlider p1))
      then initBenefits e p1
      else p1 in
    unobserve (target en) p2
  else p.

(** The observer callback: [entries.forEach(...)]. *)
Definition callback (e : env) (p : t) (entries : list entry) : t :=
  fold_left (onEntry e) entries p.

(** The part of the start-up routine [init()] that concerns the observer:
    the benefits slider is built with [autoInit = false] when its
    container exists, then [initScrollAnimations()] runs. *)
Definition load (e : env) (doc : list (gset string))
    (benefitsContainer : option ExhibitionBenefitsSlider.markup) : t :=
  initScrollAnimations e
    {| elements := doc;
       scrollObserver := None;
       benefitsSlider :=
         match benefitsContainer with
         | Some m => Some (ExhibitionBenefitsSlider.create e m false)
         | None => None
         end |}.

(** What can happen to the page afterwards: the browser reports
    intersection changes, or an event reaches the benefits slider's
    container, track or the window. *)
Inductive event :=
| Intersections (entries : list entry)
| Benefits (ev : ExhibitionBenefitsSlider.event).

(** Without an observer no callback runs. *)
Definition step (p : t) (c : env * event) : t :=
  match snd c with
  | Intersections entries =>
      match scrollObserver p with
      | Some _ => callback (fst c) p entries
      | None => p
      end
  | Benefits ev =>
      {| elements := elements p;
         scrollObserver := scrollObserver p;
         benefitsSlider :=
           match benefitsSlider p with
           | Some slider =>
               Some (ExhibitionBenefitsSlider.dispatch slider (fst c, ev))
           | None => None
           end |}
  end.

Definition steps (p : t) (evs : list (env * event)) : t := fold_left step evs p.

(** The browser reports entries only for elements the observer observes
    when the callback starts. *)
Definition deliverable (p : t) (entries : list entry) : Prop :=
  match scrollObserver p with
  | Some o => Forall (fun en => target en ∈ observed o) entries
  | None => entries = []
  end.

(** A sequence of callback runs, each deliverable when it starts. *)
Fixpoint deliveries (p : t) (batches : list (env * list entry)) : Prop :=
  match batches with
  | [] => True
  | (e, entries) :: rest =>
      deliverable p entries ∧ deliveries (callback e p entries) rest
  end.

Definition run (p : t) (batches : list (env * list entry)) : t :=
  fold_left (fun q b => callback (fst b) q (snd b)) batches p.

(** The entries of a batch that reveal element [i]. *)
Definition reveals (i : nat) (entries : list entry) : bool :=
  existsb (fun en => isIntersecting en && Nat.eqb (target en) i) entries.

End Page.

(** * Vocabulary of the properties *)

(** The same environment with the reduced-motion preference set to [b]. *)
Definition with_reducedMotion (b : bool) (e : env) : env :=
  {| innerWidth := innerWidth e; reducedMotion := b; offsetWidth := offsetWidth e |}.

(** The index lies within the slider and the slider is sized for a
    viewport of width [w]. *)
Definition school_sized (w : Z) (s : ChooseSchoolSlider.t) : Prop :=
  0 <= ChooseSchoolSlider.currentIndex s <= ChooseSchoolSlider.maxIndex s ∧
  ChooseSchoolSlider.maxIndex s
  = Z.max 0 (Z.of_nat (ChooseSchoolSlider.cards s)
             - ChooseSchoolSlider.cardsPerView s) ∧
  ChooseSchoolSlider.cardsPerView s = ChooseSchoolSlider.getCardsPerView w.

Definition benefits_sized (w : Z) (s : ExhibitionBenefitsSlider.t) : Prop :=
  0 <= ExhibitionBenefitsSlider.currentIndex s
    <= ExhibitionBenefitsSlider.maxIndex s ∧
  ExhibitionBenefitsSlider.maxIndex s
  = Z.max 0 (Z.of_nat (ExhibitionBenefitsSlider.cards s)
             - ExhibitionBenefitsSlider.cardsPerView s) ∧
  ExhibitionBenefitsSlider.cardsPerView s
  = ExhibitionBenefitsSlider.getCardsPerView w.

Definition hero_within (s : HeroSlider.t) : Prop :=
  0 <= HeroSlider.currentSlide s <= HeroSlider.maxIndex s.

(** Sample inputs: a desktop viewport, a school-choice container of six
    cards and three dots, a benefits container of eight cards. *)
Definition desktop : env :=
  {| innerWidth := 1400; reducedMotion := false; offsetWidth := 300 |}.

Definition phone : env :=
  {| innerWidth := 390; reducedMotion := false; offsetWidth := 340 |}.

Definition plain_button : button := {| disabled := false; aria_disabled := false |}.

Definition plain_dot : dot := {| dot_active := false; aria_selected := false |}.

Definition six_schools : ChooseSchoolSlider.markup :=
  {| ChooseSchoolSlider.m_track := true;
     ChooseSchoolSlider.m_cards := 6;
     ChooseSchoolSlider.m_prevBtn := Some plain_button;
     ChooseSchoolSlider.m_nextBtn := Some plain_button;
     ChooseSchoolSlider.m_dots := [plain_dot; plain_dot; plain_dot];
     ChooseSchoolSlider.m_transform := None;
     ChooseSchoolSlider.m_transition_none := false |}.

Definition eight_benefits : ExhibitionBenefitsSlider.markup :=
  {| ExhibitionBenefitsSlider.m_track := true;
     ExhibitionBenefitsSlider.m_cards := 8;
     ExhibitionBenefitsSlider.m_prevBtn := Some plain_button;
     ExhibitionBenefitsSlider.m_nextBtn := Some plain_button;
     ExhibitionBenefitsSlider.m_transform := None;
     ExhibitionBenefitsSlider.m_transition_none := false |}.

Definition three_slides : HeroSlider.t :=
  HeroSlider.create true 3 [true; false; false] "off" None.

(** The decimal digits, U+0030 to U+0039. *)
Definition decimal_digit (c : N) : Prop := (48 <= c <= 57)%N.

(** Exactly ten decimal digits, nothing else. *)
Definition ten_digits (v : list N) : Prop :=
  length v = 10%nat ∧ Forall decimal_digit v.

(** Only characters that [trim()] removes (or no character at all). *)
Definition whitespace_only (v : list N) : Prop :=
  Forall (fun c => JS.isWhiteSpace c = true) v.

(** The error element [showError] builds for a field. *)
Definition error_of (x : FormValidator.field) (message : string)
  : FormValidator.error_div :=
  {| FormValidator.e_parent := FormValidator.f_parent x;
     FormValidator.e_id := String.append (FormValidator.f_id x) "-error";
     FormValidator.e_text := message |}.

(** The field as [showError] leaves it: flagged invalid and described by
    its error element. *)
Definition flagged (x : FormValidator.field) : FormValidator.field :=
  FormValidator.mark true
    (Some (String.append (FormValidator.f_id x) "-error")) x.

(** The field as [clearError] leaves it. *)
Definition cleared (x : FormValidator.field) : FormValidator.field :=
  FormValidator.mark false None x.

(** Sample fields. *)
Definition text_input (id : string) (parent : nat) (required : bool)
    (value : list N) : FormValidator.field :=
  {| FormValidator.f_id := id; FormValidator.f_name := id;
     FormValidator.f_type := "text"; FormValidator.f_required := required;
     FormValidator.f_value := value; FormValidator.f_default := [];
     FormValidator.f_parent := parent;
     FormValidator.aria_invalid := false;
     FormValidator.aria_describedby := None;
     FormValidator.error_class := false;
     FormValidator.f_checked := false;
     FormValidator.f_default_checked := false;
     FormValidator.f_disabled := false;
     FormValidator.f_files := [] |}.

Definition tel_input (id : string) (parent : nat) (required : bool)
    (value : list N) : FormValidator.field :=
  {| FormValidator.f_id := id; FormValidator.f_name := id;
     FormValidator.f_type := "tel"; FormValidator.f_required := required;
     FormValidator.f_value := value; FormValidator.f_default := [];
     FormValidator.f_parent := parent;
     FormValidator.aria_invalid := false;
     FormValidator.aria_describedby := None;
     FormValidator.error_class := false;
     FormValidator.f_checked := false;
     FormValidator.f_default_checked := false;
     FormValidator.f_disabled := false;
     FormValidator.f_files := [] |}.





(** The field as a validation leaves it. *)
Definition verdict (x : FormValidator.field) : FormValidator.field :=
  if fst (FormValidator.check x) then cleared x else flagged x.


(** Two states hold the same inputs up to the marks of validation. *)
Definition same_static (st st0 : FormValidator.state) : Prop :=
  cleared <$> FormValidator.inputs st = cleared <$> FormValidator.inputs st0.

(** Success elements, timers, clock and console agree. *)
Definition same_frame (st st0 : FormValidator.state) : Prop :=
  FormValidator.success st = FormValidator.success st0 ∧
  FormValidator.created st = FormValidator.created st0 ∧
  FormValidator.timers st = FormValidator.timers st0 ∧
  FormValidator.now st = FormValidator.now st0 ∧
  FormValidator.console st = FormValidator.console st0.

(** The field at position [i] passes (positions outside the form do). *)
Definition valid_at (st : FormValidator.state) (i : nat) : bool :=
  match FormValidator.inputs st !! i with
  | Some x => fst (FormValidator.check x)
  | None => true
  end.


(** One turn of the loop of [validateForm()]. *)
Definition validate_step (acc : FormValidator.state * bool) (i : nat)
  : FormValidator.state * bool :=
  let '(st1, ok) := FormValidator.validateField i (fst acc) in
  (st1, if negb ok then false else snd acc).

(** Sample forms: a required name and a required phone number, each input
    under a parent of its own. *)
Definition blank_form : list FormValidator.field :=
  [text_input "name" 0 true []; tel_input "phone" 1 true (JS.of_string "123456789")].

Definition filled_form : list FormValidator.field :=
  [text_input "name" 0 true (JS.of_string "Asha");
   tel_input "phone" 1 true (JS.of_string "9876543210")].



(** Element [i] is under observation. *)
Definition observedBy (i : nat) (p : Page.t) : Prop :=
  match Page.scrollObserver p with
  | Some o => i ∈ Page.observed o
  | None => False
  end.

(** Sample page: a hero, the statistics section and the benefits section
    holding the deferred slider. *)
Definition sample_doc : list (gset string) :=
  [{["hero"]}; {["stats"]}; {["exhibition-benefits"]}].

Definition sample_batches : list (env * list Page.entry) :=
  [(desktop, [{| Page.target := 1; Page.isIntersecting := false |};
              {| Page.target := 2; Page.isIntersecting := true |}]);
   (desktop, [{| Page.target := 1; Page.isIntersecting := true |}])].

Definition calm : env :=
  {| innerWidth := 1400; reducedMotion := true; offsetWidth := 300 |}.

(** * Further widgets and listeners *)

(** ** [debounce(func, wait)] *)

Module Debounce.

Section Debounced.

(** The arguments of a call. *)
Variable A : Type.

(** The clock, the timer held in [timeout] while it is pending (when it
    is due, and the arguments of the call that armed it) and the calls of
    [func] made so far. *)
Record t := {
  now : Z;                       (* milliseconds *)
  timeout : option (Z * A);
  invoked : list A
}.

Definition start (t0 : Z) : t :=
  {| now := t0; timeout := None; invoked := [] |}.

(** [executedFunction(...args)]: the pending timer is cleared and a new
    one armed, due after the delay [setTimeout] makes of [wait]. *)
Definition call (wait : Z) (args : A) (d : t) : t :=
  {| now := now d;
     timeout := Some (now d + JS.timerDelay wait, args);
     invoked := invoked d |}.

(** [dt] milliseconds pass: a timer that is due runs [later], which calls
    [func] with the arguments of its call. *)
Definition elapse (dt : Z) (d : t) : t :=
  let t1 := now d + dt in
  match timeout d with
  | Some (due, args) =>
      if due <=? t1
      then {| now := t1; timeout := None; invoked := invoked d ++ [args] |}
      else {| now := t1; timeout := timeout d; invoked := invoked d |}
  | None => {| now := t1; timeout := None; invoked := invoked d |}
  end.

Inductive event :=
| Call (args : A)
| Elapse (dt : Z).

Definition handle (wait : Z) (d : t) (ev : event) : t :=
  match ev with
  | Call args => call wait args d
  | Elapse dt => elapse dt d
  end.

Definition run (wait : Z) (d : t) (evs : list event) : t :=
  fold_left (handle wait) evs d.

(** A burst: a call, then further calls, each [fst] milliseconds after the
    one before. *)
Definition burst (first : A) (more : list (Z * A)) : list event :=
  Call first :: flat_map (fun p => [Elapse (fst p); Call (snd p)]) more.

End Debounced.

Arguments now {A} _.
Arguments timeout {A} _.
Arguments invoked {A} _.
Arguments start {A} _.
Arguments call {A} _ _ _.
Arguments elapse {A} _ _.
Arguments Call {A} _.
Arguments Elapse {A} _.
Arguments handle {A} _ _ _.
Arguments run {A} _ _ _.
Arguments burst {A} _ _.

End Debounce.

(** ** School-choice slider: the listeners of [setupEventListeners()] *)

Module SchoolEvents.

(** The slider object with the variables its touch listeners capture;
    [listening] tells whether [init()] attached the listeners. *)
Record t := {
  slider : ChooseSchoolSlider.t;
  touchStartX : Z;
  touchEndX : Z;
  listening : bool
}.

(** [new ChooseSchoolSlider(container)] *)
Definition attach (e : env) (m : ChooseSchoolSlider.markup) : t :=
  {| slider := ChooseSchoolSlider.create e m;
     touchStartX := 0;
     touchEndX := 0;
     listening := ChooseSchoolSlider.initialised m |}.

Definition set_slider (s : ChooseSchoolSlider.t) (w : t) : t :=
  {| slider := s; touchStartX := touchStartX w; touchEndX := touchEndX w;
     listening := listening w |}.

Inductive event :=
| ClickPrev
| ClickNext
| ClickDot (index : nat)
| TouchStart (screenX : Z)
| TouchEnd (screenX : Z)
| KeyDown (key : string)
| WindowResize.

(** The [keydown] listener of the container. *)
Definition onKeyDown (e : env) (key : string) (s : ChooseSchoolSlider.t)
  : ChooseSchoolSlider.t :=
  if String.eqb key "ArrowLeft" then ChooseSchoolSlider.goToPrev e s
  else if String.eqb key "ArrowRight" then ChooseSchoolSlider.goToNext e s
  else s.

(** A listener runs only if [init()] attached it, a button's only if the
    button exists, a dot's only for a dot of the container. *)
Definition dispatch (w : t) (c : env * event) : t :=
  let e := fst c in
  let s := slider w in
  if negb (listening w) then w
  else
    match snd c with
    | ClickPrev =>
        match ChooseSchoolSlider.prevBtn s with
        | Some _ => set_slider (ChooseSchoolSlider.goToPrev e s) w
        | None => w
        end
    | ClickNext =>
        match ChooseSchoolSlider.nextBtn s with
        | Some _ => set_slider (ChooseSchoolSlider.goToNext e s) w
        | None => w
        end
    | ClickDot index =>
        if Nat.ltb index (length (ChooseSchoolSlider.dots s))
        then set_slider (ChooseSchoolSlider.goToIndex e (Z.of_nat index) s) w
        else w
    | TouchStart screenX =>
        {| slider := s; touchStartX := screenX; touchEndX := touchEndX w;
           listening := listening w |}
    | TouchEnd screenX =>
        {| slider := ChooseSchoolSlider.handleSwipe e (touchStartX w) screenX s;
           touchStartX := touchStartX w; touchEndX := screenX;
           listening := listening w |}
    | KeyDown key => set_slider (onKeyDown e key s) w
    | WindowResize => set_slider (ChooseSchoolSlider.onResize e s) w
    end.

Definition dispatch_all (w : t) (evs : list (env * event)) : t :=
  fold_left dispatch evs w.

End SchoolEvents.

(** ** Hero slider: autoplay and the listeners of [setupEventListeners()] *)

Module HeroAutoplay.

(** The slider object, its navigation buttons, the interval timers the
    browser holds for it, and the variables its touch listeners capture.
    Timer ids are positive, as [setInterval] returns them. *)
Record t := {
  slider : HeroSlider.t;
  prevBtn : bool;
  nextBtn : bool;
  autoplayInterval : option positive;
  intervals : list positive;
  nextTimer : positive;            (* the id the next [setInterval] returns *)
  touchStartX : Z;
  touchEndX : Z;
  listening : bool
}.

Definition set_slider (s : HeroSlider.t) (h : t) : t :=
  {| slider := s; prevBtn := prevBtn h; nextBtn := nextBtn h;
     autoplayInterval := autoplayInterval h; intervals := intervals h;
     nextTimer := nextTimer h;
     touchStartX := touchStartX h; touchEndX := touchEndX h;
     listening := listening h |}.

Definition set_isPaused (b : bool) (s : HeroSlider.t) : HeroSlider.t :=
  {| HeroSlider.slides := HeroSlider.slides s;
     HeroSlider.currentSlide := HeroSlider.currentSlide s;
     HeroSlider.isPaused := b;
     HeroSlider.slide_active := HeroSlider.slide_active s;
     HeroSlider.aria_live := HeroSlider.aria_live s;
     HeroSlider.pauseBtn := HeroSlider.pauseBtn s |}.

(** [stopAutoplay()] *)
Definition stopAutoplay (h : t) : t :=
  match autoplayInterval h with
  | Some id =>
      {| slider := slider h; prevBtn := prevBtn h; nextBtn := nextBtn h;
         autoplayInterval := None;
         intervals := List.filter (fun j => negb (Pos.eqb j id)) (intervals h);
         nextTimer := nextTimer h;
         touchStartX := touchStartX h; touchEndX := touchEndX h;
         listening := listening h |}
  | None => h
  end.

(** [startAutoplay()] *)
Definition startAutoplay (e : env) (h : t) : t :=
  if reducedMotion e then h
  else
    let h1 := stopAutoplay h in
    {| slider := slider h1; prevBtn := prevBtn h1; nextBtn := nextBtn h1;
       autoplayInterval := Some (nextTimer h1);
       intervals := intervals h1 ++ [nextTimer h1];
       nextTimer := Pos.succ (nextTimer h1);
       touchStartX := touchStartX h1; touchEndX := touchEndX h1;
       listening := listening h1 |}.

(** [pauseAutoplay()] *)
Definition pauseAutoplay (h : t) : t := stopAutoplay h.

(** [toggleAutoplay()] *)
Definition toggleAutoplay (e : env) (h : t) : t :=
  let h1 := set_slider (set_isPaused (negb (HeroSlider.isPaused (slider h)))
                          (slider h)) h in
  let h2 :=
    if HeroSlider.isPaused (slider h1) then stopAutoplay h1
    else startAutoplay e h1 in
  set_slider (HeroSlider.updateAriaLabels (slider h2)) h2.

(** [new HeroSlider(container)] *)
Definition attach (e : env) (track : bool) (n : nat) (active0 : list bool)
    (live0 : string) (pause0 : option HeroSlider.pause_button)
    (prev0 next0 : bool) (firstTimer : positive) : t :=
  let h :=
    {| slider :=
         {| HeroSlider.slides := n; HeroSlider.currentSlide := 0;
            HeroSlider.isPaused := false;
            HeroSlider.slide_active := active0;
            HeroSlider.aria_live := live0;
            HeroSlider.pauseBtn := pause0 |};
       prevBtn := prev0; nextBtn := next0;
       autoplayInterval := None; intervals := [];
       nextTimer := firstTimer;
       touchStartX := 0; touchEndX := 0;
       listening := false |} in
  if negb track || Nat.eqb n 0 then h
  else
    let h1 :=
      {| slider := slider h; prevBtn := prev0; nextBtn := next0;
         autoplayInterval := None; intervals := [];
         nextTimer := firstTimer;
         touchStartX := 0; touchEndX := 0;
         listening := true |} in
    let h2 := if negb (reducedMotion e) then startAutoplay e h1 else h1 in
    set_slider (HeroSlider.updateAriaLabels (slider h2)) h2.

Inductive event :=
| ClickPrev
| ClickNext
| ClickPause
| KeyDown (key : string)
| MouseEnter
| MouseLeave
| TouchStart (screenX : Z)
| TouchEnd (screenX : Z)
| Tick (id : positive).          (* the browser runs interval timer [id] *)

(** The [keydown] listener of the container. *)
Definition onKeyDown (e : env) (key : string) (h : t) : t :=
  if String.eqb key "ArrowLeft"
  then set_slider (HeroSlider.goToPrevSlide (slider h)) h
  else if String.eqb key "ArrowRight"
  then set_slider (HeroSlider.goToNextSlide (slider h)) h
  else if String.eqb key " " then toggleAutoplay e h
  else h.

Definition dispatch (h : t) (c : env * event) : t :=
  let e := fst c in
  if negb (listening h) then h
  else
    match snd c with
    | ClickPrev =>
        if prevBtn h then set_slider (HeroSlider.goToPrevSlide (slider h)) h
        else h
    | ClickNext =>
        if nextBtn h then set_slider (HeroSlider.goToNextSlide (slider h)) h
        else h
    | ClickPause =>
        match HeroSlider.pauseBtn (slider h) with
        | Some _ => toggleAutoplay e h
        | None => h
        end
    | KeyDown key => onKeyDown e key h
    | MouseEnter => pauseAutoplay h
    | MouseLeave =>
        if negb (HeroSlider.isPaused (slider h)) then startAutoplay e h else h
    | TouchStart screenX =>
        {| slider := slider h; prevBtn := prevBtn h; nextBtn := nextBtn h;
           autoplayInterval := autoplayInterval h; intervals := intervals h;
           nextTimer := nextTimer h;
           touchStartX := screenX; touchEndX := touchEndX h;
           listening := listening h |}
    | TouchEnd screenX =>
        {| slider := HeroSlider.handleSwipe (touchStartX h) screenX (slider h);
           prevBtn := prevBtn h; nextBtn := nextBtn h;
           autoplayInterval := autoplayInterval h; intervals := intervals h;
           nextTimer := nextTimer h;
           touchStartX := touchStartX h; touchEndX := screenX;
           listening := listening h |}
    | Tick id =>
        if existsb (Pos.eqb id) (intervals h)
        then set_slider (HeroSlider.goToNextSlide (slider h)) h
        else h
    end.

Definition dispatch_all (h : t) (evs : list (env * event)) : t :=
  fold_left dispatch evs h.

End HeroAutoplay.

(** ** Logo strip (class [SchoolLogosSlider], one container) *)

Module LogosSlider.

Inductive play := Running | Paused.

(** The variables captured by the listeners of [setupContainer], the
    [is-dragging] class of the container, the inline
    [animation-play-state] of the track and the last value the listeners
    assigned to [container.scrollLeft]. *)
Record t := {
  isDown : bool;
  startX : Z;
  scrollLeft : Z;
  dragging : bool;
  animationPlayState : option play;
  assigned : option Z
}.

(** The state [setupContainer] leaves, for a container that has a track
    and whose markup carries the [is-dragging] class or not. *)
Definition setup (dragging0 : bool) : t :=
  {| isDown := false; startX := 0; scrollLeft := 0;
     dragging := dragging0; animationPlayState := None; assigned := None |}.

(** [pointerDown], with [x = e.pageX ?? e.touches[0].pageX] and [cur] the
    container's scroll position at that moment. *)
Definition pointerDown (x cur : Z) (s : t) : t :=
  {| isDown := true; startX := x; scrollLeft := cur;
     dragging := true; animationPlayState := Some Paused;
     assigned := assigned s |}.

(** [pointerMove] *)
Definition pointerMove (x : Z) (s : t) : t :=
  if negb (isDown s) then s
  else
    let walk := startX s - x in
    {| isDown := isDown s; startX := startX s; scrollLeft := scrollLeft s;
       dragging := dragging s; animationPlayState := animationPlayState s;
       assigned := Some (scrollLeft s + walk) |}.

(** [pointerUp] *)
Definition pointerUp (s : t) : t :=
  {| isDown := false; startX := startX s; scrollLeft := scrollLeft s;
     dragging := false; animationPlayState := Some Running;
     assigned := assigned s |}.

Definition set_play (p : play) (s : t) : t :=
  {| isDown := isDown s; startX := startX s; scrollLeft := scrollLeft s;
     dragging := dragging s; animationPlayState := Some p;
     assigned := assigned s |}.

Definition assign (v : Z) (s : t) : t :=
  {| isDown := isDown s; startX := startX s; scrollLeft := scrollLeft s;
     dragging := dragging s; animationPlayState := animationPlayState s;
     assigned := Some v |}.

(** The [wheel] listener. *)
Definition onWheel (deltaX deltaY cur : Z) (s : t) : t :=
  let delta := if Z.abs deltaY <? Z.abs deltaX then deltaX else deltaY in
  assign (cur + delta) s.

(** The [keydown] listener. *)
Definition onKeyDown (key : string) (cur : Z) (s : t) : t :=
  let s1 := if String.eqb key "ArrowLeft" then assign (cur - 200) s else s in
  if String.eqb key "ArrowRight" then assign (cur + 200) s1 else s1.

(** Events carry what the listener reads from the browser: the pointer's
    [pageX] and the container's current scroll position. *)
Inductive event :=
| MouseDown (pageX cur : Z)
| MouseMove (pageX : Z)
| MouseUp
| MouseEnter
| MouseLeave
| TouchStart (pageX cur : Z)
| TouchMove (pageX : Z)
| TouchEnd
| Wheel (deltaX deltaY cur : Z)
| KeyDown (key : string) (cur : Z).

(** Listeners run in the order in which [setupContainer] attached them. *)
Definition dispatch (s : t) (ev : event) : t :=
  match ev with
  | MouseDown x cur => pointerDown x cur s
  | MouseMove x => pointerMove x s
  | MouseUp => pointerUp s
  | MouseEnter => set_play Paused s
  | MouseLeave => set_play Running (pointerUp s)
  | TouchStart x cur => set_play Paused (pointerDown x cur s)
  | TouchMove x => pointerMove x s
  | TouchEnd => set_play Running (pointerUp s)
  | Wheel deltaX deltaY cur => onWheel deltaX deltaY cur s
  | KeyDown key cur => onKeyDown key cur s
  end.

Definition dispatch_all (s : t) (evs : list event) : t :=
  fold_left dispatch evs s.

End LogosSlider.

(** ** Header state (the at-top block of [init()]) *)

Module Header.

(** The two classes of the header element, the captured [wasAtTop], the
    timer held in [_headerAnimTimer] while it is pending (its due time),
    whether the animation-frame callback of the start-up is still to run,
    and the clock. *)
Record t := {
  at_top : bool;                 (* header--at-top *)
  is_animated : bool;            (* is-animated *)
  wasAtTop : bool;
  animTimer : option Z;
  frameRequested : bool;
  now : Z
}.

Definition ANIM_TIMEOUT : Z := 700.

(** Add [is-animated], clear the timer, arm a new one. *)
Definition animate (h : t) : t :=
  {| at_top := at_top h; is_animated := true; wasAtTop := wasAtTop h;
     animTimer := Some (now h + ANIM_TIMEOUT);
     frameRequested := frameRequested h; now := now h |}.

(** [updateHeaderAtTop()], with [scrollY = window.scrollY]. *)
Definition updateHeaderAtTop (e : env) (scrollY : Z) (h : t) : t :=
  let atTop := scrollY =? 0 in
  let h1 :=
    {| at_top := atTop; is_animated := is_animated h; wasAtTop := wasAtTop h;
       animTimer := animTimer h; frameRequested := frameRequested h;
       now := now h |} in
  let h2 :=
    if negb (reducedMotion e) && atTop && negb (wasAtTop h1)
    then animate h1 else h1 in
  {| at_top := at_top h2; is_animated := is_animated h2; wasAtTop := atTop;
     animTimer := animTimer h2; frameRequested := frameRequested h2;
     now := now h2 |}.

(** The block as it runs at start-up, for a header whose markup carries
    the two classes or not. *)
Definition setup (e : env) (scrollY : Z) (atTop0 animated0 : bool) (t0 : Z) : t :=
  let h :=
    {| at_top := atTop0; is_animated := animated0;
       wasAtTop := scrollY =? 0;
       animTimer := None; frameRequested := false; now := t0 |} in
  let h1 := updateHeaderAtTop e scrollY h in
  {| at_top := at_top h1; is_animated := is_animated h1;
     wasAtTop := wasAtTop h1; animTimer := animTimer h1;
     frameRequested := negb (reducedMotion e) && wasAtTop h1;
     now := now h1 |}.

Inductive event :=
| Update (scrollY : Z)           (* the debounced scroll callback, or pageshow *)
| Frame                          (* the browser runs animation-frame callbacks *)
| Elapse (dt : Z).

Definition handle (h : t) (c : env * event) : t :=
  match snd c with
  | Update scrollY => updateHeaderAtTop (fst c) scrollY h
  | Frame =>
      if frameRequested h then
        let h1 := animate h in
        {| at_top := at_top h1; is_animated := is_animated h1;
           wasAtTop := wasAtTop h1; animTimer := animTimer h1;
           frameRequested := false; now := now h1 |}
      else h
  | Elapse dt =>
      let t1 := now h + dt in
      match animTimer h with
      | Some due =>
          if due <=? t1
          then {| at_top := at_top h; is_animated := false;
                  wasAtTop := wasAtTop h; animTimer := None;
                  frameRequested := frameRequested h; now := t1 |}
          else {| at_top := at_top h; is_animated := is_animated h;
                  wasAtTop := wasAtTop h; animTimer := animTimer h;
                  frameRequested := frameRequested h; now := t1 |}
      | None =>
          {| at_top := at_top h; is_animated := is_animated h;
             wasAtTop := wasAtTop h; animTimer := None;
             frameRequested := frameRequested h; now := t1 |}
      end
  end.

Definition run (h : t) (evs : list (env * event)) : t := fold_left handle evs h.

End Header.

(** ** Vocabulary of the further properties *)

(** The navigation controls show where the slider stands: the prev button
    is disabled exactly at index 0, the next button exactly at maxIndex,
    and the active dot is the one at the index. *)
Definition school_rendered (s : ChooseSchoolSlider.t) : Prop :=
  (∀ b, ChooseSchoolSlider.prevBtn s = Some b →
        disabled b = (ChooseSchoolSlider.currentIndex s =? 0) ∧
        aria_disabled b = (ChooseSchoolSlider.currentIndex s =? 0)) ∧
  (∀ b, ChooseSchoolSlider.nextBtn s = Some b →
        disabled b = (ChooseSchoolSlider.currentIndex s
                      =? ChooseSchoolSlider.maxIndex s) ∧
        aria_disabled b = (ChooseSchoolSlider.currentIndex s
                           =? ChooseSchoolSlider.maxIndex s)) ∧
  (∀ i d, ChooseSchoolSlider.dots s !! i = Some d →
          dot_active d = (Z.of_nat i =? ChooseSchoolSlider.currentIndex s) ∧
          aria_selected d = (Z.of_nat i =? ChooseSchoolSlider.currentIndex s)).

Definition benefits_rendered (s : ExhibitionBenefitsSlider.t) : Prop :=
  (∀ b, ExhibitionBenefitsSlider.prevBtn s = Some b →
        disabled b = (ExhibitionBenefitsSlider.currentIndex s =? 0) ∧
        aria_disabled b = (ExhibitionBenefitsSlider.currentIndex s =? 0)) ∧
  (∀ b, ExhibitionBenefitsSlider.nextBtn s = Some b →
        disabled b = (ExhibitionBenefitsSlider.currentIndex s
                      =? ExhibitionBenefitsSlider.maxIndex s) ∧
        aria_disabled b = (ExhibitionBenefitsSlider.currentIndex s
                           =? ExhibitionBenefitsSlider.maxIndex s)).

(** Events of the benefits slider other than those of a pointer or touch
    drag. *)
Definition not_pointer (ev : ExhibitionBenefitsSlider.event) : Prop :=
  match ev with
  | ExhibitionBenefitsSlider.ClickPrev
  | ExhibitionBenefitsSlider.ClickNext
  | ExhibitionBenefitsSlider.Wheel _ _
  | ExhibitionBenefitsSlider.KeyDown _
  | ExhibitionBenefitsSlider.WindowResize => True
  | _ => False
  end.

(** Button, wheel and key events of the benefits slider. *)
Definition stepping (ev : ExhibitionBenefitsSlider.event) : Prop :=
  match ev with
  | ExhibitionBenefitsSlider.ClickPrev
  | ExhibitionBenefitsSlider.ClickNext
  | ExhibitionBenefitsSlider.Wheel _ _
  | ExhibitionBenefitsSlider.KeyDown _ => True
  | _ => False
  end.

(** The hero's timer bookkeeping: the browser holds exactly the interval
    the object remembers, and none while the slideshow is paused. *)
Definition hero_timers_tidy (h : HeroAutoplay.t) : Prop :=
  HeroAutoplay.intervals h
  = match HeroAutoplay.autoplayInterval h with
    | Some id => [id]
    | None => []
    end ∧
  (HeroSlider.isPaused (HeroAutoplay.slider h) = true →
   HeroAutoplay.autoplayInterval h = None).

(** The field with the value [v] typed into it. *)
Definition typed (v : list N) (x : FormValidator.field) : FormValidator.field :=
  {| FormValidator.f_id := FormValidator.f_id x;
     FormValidator.f_name := FormValidator.f_name x;
     FormValidator.f_type := FormValidator.f_type x;
     FormValidator.f_required := FormValidator.f_required x;
     FormValidator.f_value := v;
     FormValidator.f_default := FormValidator.f_default x;
     FormValidator.f_parent := FormValidator.f_parent x;
     FormValidator.aria_invalid := FormValidator.aria_invalid x;
     FormValidator.aria_describedby := FormValidator.aria_describedby x;
     FormValidator.error_class := FormValidator.error_class x;
     FormValidator.f_checked := FormValidator.f_checked x;
     FormValidator.f_default_checked := FormValidator.f_default_checked x;
     FormValidator.f_disabled := FormValidator.f_disabled x;
     FormValidator.f_files := FormValidator.f_files x |}.

(** The error elements under parent node [p]. *)
Definition errors_under (p : nat) (st : FormValidator.state)
  : list FormValidator.error_div :=
  List.filter (fun d => Nat.eqb (FormValidator.e_parent d) p)
              (FormValidator.errors st).

(** Time only moves forward. *)
Definition forward (ev : FormValidator.event) : Prop :=
  match ev with
  | FormValidator.Elapse dt => 0 <= dt
  | _ => True
  end.

(** Each success element on the page has its removal timer pending, due
    within the next 5000 ms. *)
Definition success_timed (st : FormValidator.state) : Prop :=
  FormValidator.success st = map snd (FormValidator.timers st) ∧
  Forall (fun p => FormValidator.now st < fst p <= FormValidator.now st + 5000)
         (FormValidator.timers st) ∧
  Forall (fun p => (snd p < FormValidator.created st)%nat)
         (FormValidator.timers st) ∧
  NoDup (map snd (FormValidator.timers st)).

Definition header_forward (c : env * Header.event) : Prop :=
  match snd c with
  | Header.Elapse dt => 0 <= dt
  | _ => True
  end.

(** The animation class is on exactly while its removal timer is pending,
    and that timer is due within the next 700 ms. *)
Definition header_tidy (h : Header.t) : Prop :=
  Header.at_top h = Header.wasAtTop h ∧
  (Header.is_animated h = true ↔ is_Some (Header.animTimer h)) ∧
  (∀ due, Header.animTimer h = Some due →
          Header.now h < due <= Header.now h + 700).

(** The arguments of the calls made to a debounced function, in order. *)
Definition called {A : Type} (evs : list (Debounce.event A)) : list A :=
  omap (fun ev => match ev with
                  | Debounce.Call args => Some args
                  | Debounce.Elapse _ => None
                  end) evs.

(** What a debounced function still owes: the arguments of the call whose
    timer is pending. *)
Definition pending {A : Type} (d : Debounce.t A) : list A :=
  match Debounce.timeout d with
  | Some (_, args) => [args]
  | None => []
  end.

(** Calls separated by pauses: each call is followed by [fst] milliseconds
    without a call. *)
Definition spaced {A : Type} (l : list (Z * A)) : list (Debounce.event A) :=
  flat_map (fun p => [Debounce.Call (snd p); Debounce.Elapse (fst p)]) l.

(** Events of the logo strip that neither start nor end a drag. *)
Definition keeps_drag (ev : LogosSlider.event) : Prop :=
  match ev with
  | LogosSlider.MouseMove _
  | LogosSlider.TouchMove _
  | LogosSlider.MouseEnter
  | LogosSlider.Wheel _ _ _
  | LogosSlider.KeyDown _ _ => True
  | _ => False
  end.

(** Every event happens under the reduced-motion preference. *)
Definition header_calm (c : env * Header.event) : Prop :=
  reducedMotion (fst c) = true.

(** Sample slider stages. *)
Definition six_schools_listening : SchoolEvents.t :=
  SchoolEvents.attach desktop six_schools.

Definition hero_stage : HeroAutoplay.t :=
  HeroAutoplay.attach desktop true 3 [true; false; false] "off"
    (Some {| HeroSlider.aria_label := "Pause slideshow";
             HeroSlider.shows_play := false |}) true true 1%positive.

(** * Properties *)

(** ** Sliders: items per view and the applied offset *)

(** C8. The items-per-view function of the viewport width gives 1 for
    every width below 480px, 2 at 900px and 4 at 1400px, in the
    school-choice slider and in the benefits slider alike. *)
Theorem getCardsPerView_buckets (width : Z) (Hnarrow : width < 480) :
  ChooseSchoolSlider.getCardsPerView width = 1 ∧
  ExhibitionBenefitsSlider.getCardsPerView width = 1 ∧
  ChooseSchoolSlider.getCardsPerView 900 = 2 ∧
  ExhibitionBenefitsSlider.getCardsPerView 900 = 2 ∧
  ChooseSchoolSlider.getCardsPerView 1400 = 4 ∧
  ExhibitionBenefitsSlider.getCardsPerView 1400 = 4.
Proof.
  unfold ChooseSchoolSlider.getCardsPerView,
    ExhibitionBenefitsSlider.getCardsPerView.
  destruct (Z.ltb_spec width 480); [| lia].
  repeat split; reflexivity.
Qed.

Lemma getCardsPerView_buckets_witness :
  ChooseSchoolSlider.getCardsPerView 320 = 1 ∧
  ExhibitionBenefitsSlider.getCardsPerView 479 = 1.
Proof.
  split.
  - apply (getCardsPerView_buckets 320). lia.
  - apply (getCardsPerView_buckets 479). lia.
Defined.

Section SchoolUpdate.
Import ChooseSchoolSlider.
Variables (e : env) (s : t).

Local Ltac update_cases e s :=
  unfold updateSlider; cbn;
  destruct (reducedMotion e); cbn;
  destruct (prevBtn s); cbn;
  destruct (nextBtn s); reflexivity.

Lemma school_update_transform :
  transform (updateSlider e s)
  = Some (- (currentIndex s * (cardWidth e s + 24))).
Proof. update_cases e s. Qed.

Lemma school_update_currentIndex :
  currentIndex (updateSlider e s) = currentIndex s.
Proof. update_cases e s. Qed.

Lemma school_update_maxIndex : maxIndex (updateSlider e s) = maxIndex s.
Proof. update_cases e s. Qed.

Lemma school_update_cards : cards (updateSlider e s) = cards s.
Proof. update_cases e s. Qed.

Lemma school_update_cardsPerView :
  cardsPerView (updateSlider e s) = cardsPerView s.
Proof. update_cases e s. Qed.

Lemma school_update_transition :
  transition_none (updateSlider e s)
  = if reducedMotion e then true else transition_none s.
Proof. update_cases e s. Qed.

End SchoolUpdate.

Section BenefitsUpdate.
Import ExhibitionBenefitsSlider.
Variables (e : env) (s : t).

Local Ltac update_cases e s :=
  unfold updateSlider; cbn;
  destruct (reducedMotion e); cbn;
  destruct (prevBtn s); cbn;
  destruct (nextBtn s); reflexivity.

Lemma benefits_update_transform :
  transform (updateSlider e s)
  = Some (- (currentIndex s * (cardWidth e s + 24))).
Proof. update_cases e s. Qed.

Lemma benefits_update_currentIndex :
  currentIndex (updateSlider e s) = currentIndex s.
Proof. update_cases e s. Qed.

Lemma benefits_update_maxIndex : maxIndex (updateSlider e s) = maxIndex s.
Proof. update_cases e s. Qed.

Lemma benefits_update_cards : cards (updateSlider e s) = cards s.
Proof. update_cases e s. Qed.

Lemma benefits_update_cardsPerView :
  cardsPerView (updateSlider e s) = cardsPerView s.
Proof. update_cases e s. Qed.

Lemma benefits_update_activated : _activated (updateSlider e s) = _activated s.
Proof. update_cases e s. Qed.

Lemma benefits_update_vars : vars (updateSlider e s) = vars s.
Proof. update_cases e s. Qed.

Lemma benefits_update_transition :
  transition_none (updateSlider e s)
  = if reducedMotion e then true else transition_none s.
Proof. update_cases e s. Qed.

End BenefitsUpdate.

(** C7. Every [updateSlider()] of the school-choice and of the benefits
    slider sets the track's offset to -(index * (width + 24)), where
    width is the [offsetWidth] of the first card (0 when there is no
    card), whether or not the user prefers reduced motion; under the
    reduced-motion preference the inline transition is switched off, and
    the result differs in nothing else.  (The hero slider applies no
    pixel offset.) *)
Theorem updateSlider_offset (e : env) (s : ChooseSchoolSlider.t)
    (b : ExhibitionBenefitsSlider.t) (rm : bool) :
  ChooseSchoolSlider.transform
    (ChooseSchoolSlider.updateSlider (with_reducedMotion rm e) s)
  = Some (- (ChooseSchoolSlider.currentIndex s
             * (match ChooseSchoolSlider.cards s with
                | O => 0
                | S _ => offsetWidth e
                end + 24))) ∧
  ExhibitionBenefitsSlider.transform
    (ExhibitionBenefitsSlider.updateSlider (with_reducedMotion rm e) b)
  = Some (- (ExhibitionBenefitsSlider.currentIndex b
             * (match ExhibitionBenefitsSlider.cards b with
                | O => 0
                | S _ => offsetWidth e
                end + 24))) ∧
  ChooseSchoolSlider.transition_none
    (ChooseSchoolSlider.updateSlider (with_reducedMotion true e) s) = true ∧
  ChooseSchoolSlider.transition_none
    (ChooseSchoolSlider.updateSlider (with_reducedMotion false e) s)
  = ChooseSchoolSlider.transition_none s ∧
  ExhibitionBenefitsSlider.transition_none
    (ExhibitionBenefitsSlider.updateSlider (with_reducedMotion true e) b)
  = true ∧
  ExhibitionBenefitsSlider.transition_none
    (ExhibitionBenefitsSlider.updateSlider (with_reducedMotion false e) b)
  = ExhibitionBenefitsSlider.transition_none b ∧
  ChooseSchoolSlider.updateSlider (with_reducedMotion true e) s
  = ChooseSchoolSlider.set_transition_none true
      (ChooseSchoolSlider.updateSlider (with_reducedMotion false e) s) ∧
  ExhibitionBenefitsSlider.updateSlider (with_reducedMotion true e) b
  = ExhibitionBenefitsSlider.set_transition_none true
      (ExhibitionBenefitsSlider.updateSlider (with_reducedMotion false e) b).
Proof.
  split; [exact (school_update_transform (with_reducedMotion rm e) s) |].
  split; [exact (benefits_update_transform (with_reducedMotion rm e) b) |].
  split; [exact (school_update_transition (with_reducedMotion true e) s) |].
  split; [exact (school_update_transition (with_reducedMotion false e) s) |].
  split; [exact (benefits_update_transition (with_reducedMotion true e) b) |].
  split; [exact (benefits_update_transition (with_reducedMotion false e) b) |].
  split.
  - unfold ChooseSchoolSlider.updateSlider. cbn.
    destruct (ChooseSchoolSlider.prevBtn s); cbn;
      destruct (ChooseSchoolSlider.nextBtn s); reflexivity.
  - unfold ExhibitionBenefitsSlider.updateSlider. cbn.
    destruct (ExhibitionBenefitsSlider.prevBtn b); cbn;
      destruct (ExhibitionBenefitsSlider.nextBtn b); reflexivity.
Qed.

Lemma updateSlider_offset_witness :
  let s := ChooseSchoolSlider.set_currentIndex 2
             (ChooseSchoolSlider.create desktop six_schools) in
  let b := ExhibitionBenefitsSlider.set_currentIndex 3
             (ExhibitionBenefitsSlider.create desktop eight_benefits true) in
  (ChooseSchoolSlider.transform (ChooseSchoolSlider.updateSlider desktop s)
   = Some (-648) ∧
   ChooseSchoolSlider.transform
     (ChooseSchoolSlider.updateSlider (with_reducedMotion true desktop) s)
   = Some (-648) ∧
   ChooseSchoolSlider.transition_none
     (ChooseSchoolSlider.updateSlider desktop s) = false ∧
   ChooseSchoolSlider.transition_none
     (ChooseSchoolSlider.updateSlider (with_reducedMotion true desktop) s)
   = true) ∧
  (ExhibitionBenefitsSlider.transform
     (ExhibitionBenefitsSlider.updateSlider desktop b) = Some (-972) ∧
   ExhibitionBenefitsSlider.transform
     (ExhibitionBenefitsSlider.updateSlider (with_reducedMotion true desktop) b)
   = Some (-972) ∧
   ExhibitionBenefitsSlider.transition_none
     (ExhibitionBenefitsSlider.updateSlider (with_reducedMotion true desktop) b)
   = true).
Proof.
  cbv zeta.
  destruct (updateSlider_offset desktop
              (ChooseSchoolSlider.set_currentIndex 2
                 (ChooseSchoolSlider.create desktop six_schools))
              (ExhibitionBenefitsSlider.set_currentIndex 3
                 (ExhibitionBenefitsSlider.create desktop eight_benefits true))
              false)
    as (Hschool & Hbenefits & _ & Hplain & _).
  destruct (updateSlider_offset desktop
              (ChooseSchoolSlider.set_currentIndex 2
                 (ChooseSchoolSlider.create desktop six_schools))
              (ExhibitionBenefitsSlider.set_currentIndex 3
                 (ExhibitionBenefitsSlider.create desktop eight_benefits true))
              true)
    as (Hschool' & Hbenefits' & Hoff & _ & Hoff' & _).
  split.
  - split; [exact Hschool |]. split; [exact Hschool' |].
    split; [exact Hplain | exact Hoff].
  - split; [exact Hbenefits |]. split; [exact Hbenefits' | exact Hoff'].
Defined.

(** ** Sliders: next, prev and the bounds of the index *)

Section SchoolSteps.
Import ChooseSchoolSlider.
Variables (e : env) (s : t).

Lemma school_next_currentIndex :
  currentIndex (goToNext e s)
  = if currentIndex s <? maxIndex s then currentIndex s + 1 else currentIndex s.
Proof.
  unfold goToNext. destruct (currentIndex s <? maxIndex s); [| reflexivity].
  apply school_update_currentIndex.
Qed.

Lemma school_prev_currentIndex :
  currentIndex (goToPrev e s)
  = if 0 <? currentIndex s then currentIndex s - 1 else currentIndex s.
Proof.
  unfold goToPrev. destruct (0 <? currentIndex s); [| reflexivity].
  apply school_update_currentIndex.
Qed.

Lemma school_next_static :
  maxIndex (goToNext e s) = maxIndex s ∧ cards (goToNext e s) = cards s ∧
  cardsPerView (goToNext e s) = cardsPerView s.
Proof.
  unfold goToNext. destruct (currentIndex s <? maxIndex s); [| tauto].
  rewrite school_update_maxIndex, school_update_cards,
    school_update_cardsPerView. tauto.
Qed.

Lemma school_prev_static :
  maxIndex (goToPrev e s) = maxIndex s ∧ cards (goToPrev e s) = cards s ∧
  cardsPerView (goToPrev e s) = cardsPerView s.
Proof.
  unfold goToPrev. destruct (0 <? currentIndex s); [| tauto].
  rewrite school_update_maxIndex, school_update_cards,
    school_update_cardsPerView. tauto.
Qed.

Lemma school_goToIndex_currentIndex (index : Z) :
  currentIndex (goToIndex e index s) = Z.min index (maxIndex s).
Proof. unfold goToIndex. apply school_update_currentIndex. Qed.

Lemma school_goToIndex_static (index : Z) :
  maxIndex (goToIndex e index s) = maxIndex s ∧
  cards (goToIndex e index s) = cards s ∧
  cardsPerView (goToIndex e index s) = cardsPerView s.
Proof.
  unfold goToIndex.
  rewrite school_update_maxIndex, school_update_cards,
    school_update_cardsPerView. tauto.
Qed.

Lemma school_resize_fields :
  cardsPerView (onResize e s) = getCardsPerView (innerWidth e) ∧
  maxIndex (onResize e s)
  = Z.max 0 (Z.of_nat (cards s) - getCardsPerView (innerWidth e)) ∧
  currentIndex (onResize e s)
  = Z.min (currentIndex s)
      (Z.max 0 (Z.of_nat (cards s) - getCardsPerView (innerWidth e))) ∧
  cards (onResize e s) = cards s.
Proof.
  unfold onResize.
  rewrite school_update_maxIndex, school_update_cards,
    school_update_cardsPerView, school_update_currentIndex. tauto.
Qed.

End SchoolSteps.

Section BenefitsSteps.
Import ExhibitionBenefitsSlider.
Variables (e : env) (s : t).

Lemma benefits_next_currentIndex :
  currentIndex (goToNext e s)
  = if currentIndex s <? maxIndex s then currentIndex s + 1 else currentIndex s.
Proof.
  unfold goToNext. destruct (currentIndex s <? maxIndex s); [| reflexivity].
  apply benefits_update_currentIndex.
Qed.

Lemma benefits_prev_currentIndex :
  currentIndex (goToPrev e s)
  = if 0 <? currentIndex s then currentIndex s - 1 else currentIndex s.
Proof.
  unfold goToPrev. destruct (0 <? currentIndex s); [| reflexivity].
  apply benefits_update_currentIndex.
Qed.

Lemma benefits_next_static :
  maxIndex (goToNext e s) = maxIndex s ∧ cards (goToNext e s) = cards s ∧
  cardsPerView (goToNext e s) = cardsPerView s ∧
  _activated (goToNext e s) = _activated s ∧ vars (goToNext e s) = vars s.
Proof.
  unfold goToNext. destruct (currentIndex s <? maxIndex s); [| tauto].
  rewrite benefits_update_maxIndex, benefits_update_cards,
    benefits_update_cardsPerView, benefits_update_activated,
    benefits_update_vars. tauto.
Qed.

Lemma benefits_prev_static :
  maxIndex (goToPrev e s) = maxIndex s ∧ cards (goToPrev e s) = cards s ∧
  cardsPerView (goToPrev e s) = cardsPerView s ∧
  _activated (goToPrev e s) = _activated s ∧ vars (goToPrev e s) = vars s.
Proof.
  unfold goToPrev. destruct (0 <? currentIndex s); [| tauto].
  rewrite benefits_update_maxIndex, benefits_update_cards,
    benefits_update_cardsPerView, benefits_update_activated,
    benefits_update_vars. tauto.
Qed.

Lemma benefits_resize_fields :
  cardsPerView (onResize e s) = getCardsPerView (innerWidth e) ∧
  maxIndex (onResize e s)
  = Z.max 0 (Z.of_nat (cards s) - getCardsPerView (innerWidth e)) ∧
  currentIndex (onResize e s)
  = Z.min (currentIndex s)
      (Z.max 0 (Z.of_nat (cards s) - getCardsPerView (innerWidth e))) ∧
  cards (onResize e s) = cards s ∧ _activated (onResize e s) = _activated s.
Proof.
  unfold onResize.
  rewrite benefits_update_maxIndex, benefits_update_cards,
    benefits_update_cardsPerView, benefits_update_currentIndex,
    benefits_update_activated. tauto.
Qed.

End BenefitsSteps.

Section HeroSteps.
Import HeroSlider.
Variable s : t.

Lemma hero_update_currentSlide : currentSlide (updateSlider s) = currentSlide s.
Proof. reflexivity. Qed.

Lemma hero_next_currentSlide :
  currentSlide (goToNextSlide s)
  = Z.rem (currentSlide s + 1) (Z.of_nat (slides s)).
Proof. reflexivity. Qed.

Lemma hero_prev_currentSlide :
  currentSlide (goToPrevSlide s)
  = Z.rem (currentSlide s - 1 + Z.of_nat (slides s)) (Z.of_nat (slides s)).
Proof. reflexivity. Qed.

Lemma hero_next_slides : slides (goToNextSlide s) = slides s.
Proof. reflexivity. Qed.

Lemma hero_prev_slides : slides (goToPrevSlide s) = slides s.
Proof. reflexivity. Qed.

(** Within the slides, next and prev move by one and wrap at the ends. *)
Lemma hero_next_wraps :
  0 <= currentSlide s < Z.of_nat (slides s) →
  currentSlide (goToNextSlide s)
  = if currentSlide s + 1 <? Z.of_nat (slides s) then currentSlide s + 1 else 0.
Proof.
  intros H. rewrite hero_next_currentSlide.
  destruct (Z.ltb_spec (currentSlide s + 1) (Z.of_nat (slides s))).
  - apply Z.rem_small. lia.
  - replace (currentSlide s + 1) with (Z.of_nat (slides s)) by lia.
    apply Z.rem_same. lia.
Qed.

Lemma hero_prev_wraps :
  0 <= currentSlide s < Z.of_nat (slides s) →
  currentSlide (goToPrevSlide s)
  = if 0 <? currentSlide s then currentSlide s - 1 else Z.of_nat (slides s) - 1.
Proof.
  intros H. rewrite hero_prev_currentSlide.
  destruct (Z.ltb_spec 0 (currentSlide s)).
  - rewrite Z.rem_mod_nonneg by lia.
    replace (currentSlide s - 1 + Z.of_nat (slides s))
      with (currentSlide s - 1 + 1 * Z.of_nat (slides s)) by lia.
    rewrite Z_mod_plus_full. apply Z.mod_small. lia.
  - replace (currentSlide s - 1 + Z.of_nat (slides s))
      with (Z.of_nat (slides s) - 1) by lia.
    apply Z.rem_small. lia.
Qed.

End HeroSteps.

Section SchoolInvariant.
Import ChooseSchoolSlider.

Lemma school_create_sized (e : env) (m : markup) :
  school_sized (innerWidth e) (create e m).
Proof.
  unfold school_sized, create.
  destruct (initialised m);
    rewrite ?school_update_currentIndex, ?school_update_maxIndex,
      ?school_update_cards, ?school_update_cardsPerView;
    cbn; repeat split; lia.
Qed.

Lemma school_perform_sized (w : Z) (s : t) (c : env * op) :
  from_dot (snd c) →
  school_sized w s →
  school_sized (lastWidth w [c]) (perform s c).
Proof.
  destruct c as [e o]. unfold school_sized, perform, lastWidth.
  cbn [fst snd fold_left].
  intros Hdot (Hidx & Hmax & Hcpv).
  destruct o as [| | index |]; cbn [from_dot] in Hdot.
  - destruct (school_next_static e s) as (-> & -> & ->).
    rewrite school_next_currentIndex.
    destruct (Z.ltb_spec (currentIndex s) (maxIndex s)); repeat split; lia.
  - destruct (school_prev_static e s) as (-> & -> & ->).
    rewrite school_prev_currentIndex.
    destruct (Z.ltb_spec 0 (currentIndex s)); repeat split; lia.
  - destruct (school_goToIndex_static e s index) as (-> & -> & ->).
    rewrite school_goToIndex_currentIndex. repeat split; lia.
  - destruct (school_resize_fields e s) as (-> & -> & -> & ->).
    repeat split; lia.
Qed.

Lemma school_run_sized (calls : list (env * op)) :
  ∀ (w : Z) (s : t),
    Forall (fun c => from_dot (snd c)) calls →
    school_sized w s →
    school_sized (lastWidth w calls) (run s calls).
Proof.
  induction calls as [| c calls IH]; intros w s Hdots Hs; [exact Hs |].
  inversion Hdots as [| ? ? Hc Hrest]; subst.
  apply (IH (lastWidth w [c]) (perform s c) Hrest).
  now apply school_perform_sized.
Qed.

End SchoolInvariant.

Section BenefitsInvariant.
Import ExhibitionBenefitsSlider.

Lemma benefits_construct_sized (e : env) (m : markup) :
  benefits_sized (innerWidth e) (construct e m).
Proof. unfold benefits_sized. cbn. repeat split; lia. Qed.

Lemma benefits_init_sized (e : env) (w : Z) (s : t) :
  benefits_sized w s → benefits_sized w (init e s).
Proof.
  unfold benefits_sized, init. intros Hs.
  destruct (_activated s); [exact Hs |].
  destruct (negb (track s) || Nat.eqb (cards s) 0); [exact Hs |].
  rewrite benefits_update_currentIndex, benefits_update_maxIndex,
    benefits_update_cards, benefits_update_cardsPerView. exact Hs.
Qed.

Lemma benefits_next_sized (e : env) (w : Z) (s : t) :
  benefits_sized w s → benefits_sized w (goToNext e s).
Proof.
  unfold benefits_sized. intros (Hidx & Hmax & Hcpv).
  destruct (benefits_next_static e s) as (-> & -> & -> & _).
  rewrite benefits_next_currentIndex.
  destruct (Z.ltb_spec (currentIndex s) (maxIndex s)); repeat split; lia.
Qed.

Lemma benefits_prev_sized (e : env) (w : Z) (s : t) :
  benefits_sized w s → benefits_sized w (goToPrev e s).
Proof.
  unfold benefits_sized. intros (Hidx & Hmax & Hcpv).
  destruct (benefits_prev_static e s) as (-> & -> & -> & _).
  rewrite benefits_prev_currentIndex.
  destruct (Z.ltb_spec 0 (currentIndex s)); repeat split; lia.
Qed.

Lemma benefits_resize_sized (e : env) (w : Z) (s : t) :
  benefits_sized w s → benefits_sized (innerWidth e) (onResize e s).
Proof.
  unfold benefits_sized. intros (Hidx & Hmax & Hcpv).
  destruct (benefits_resize_fields e s) as (-> & -> & -> & -> & _).
  repeat split; lia.
Qed.

Lemma benefits_run_sized (calls : list (env * op)) :
  ∀ (w : Z) (s : t),
    benefits_sized w s → benefits_sized (lastWidth w calls) (run s calls).
Proof.
  induction calls as [| [e o] calls IH]; intros w s Hs; [exact Hs |].
  apply (IH (lastWidth w [(e, o)]) (perform s (e, o))).
  destruct o; unfold perform, lastWidth; cbn [fst snd fold_left].
  - now apply benefits_next_sized.
  - now apply benefits_prev_sized.
  - now apply (benefits_resize_sized e w).
Qed.

End BenefitsInvariant.

Section HeroInvariant.
Import HeroSlider.

Lemma hero_perform_within (s : t) (o : op) :
  (0 < slides s)%nat → hero_within s →
  hero_within (perform s o) ∧ slides (perform s o) = slides s.
Proof.
  unfold hero_within, maxIndex. intros Hn Hs.
  assert (Hin : 0 <= currentSlide s < Z.of_nat (slides s)) by lia.
  destruct o; cbn [perform].
  - rewrite hero_next_slides, (hero_next_wraps s Hin).
    destruct (Z.ltb_spec (currentSlide s + 1) (Z.of_nat (slides s)));
      split; try reflexivity; lia.
  - rewrite hero_prev_slides, (hero_prev_wraps s Hin).
    destruct (Z.ltb_spec 0 (currentSlide s)); split; try reflexivity; lia.
Qed.

Lemma hero_run_within (ops : list op) :
  ∀ s : t, (0 < slides s)%nat → hero_within s →
    hero_within (run s ops) ∧ slides (run s ops) = slides s.
Proof.
  induction ops as [| o ops IH]; intros s Hn Hs; [split; [exact Hs | reflexivity] |].
  destruct (hero_perform_within s o Hn Hs) as [Hs' Hn'].
  destruct (IH (perform s o)) as [H1 H2]; [rewrite Hn'; exact Hn | exact Hs' |].
  split; [exact H1 |]. cbn [run fold_left] in *. unfold run in H2. congruence.
Qed.

End HeroInvariant.

Lemma school_run_cards (calls : list (env * ChooseSchoolSlider.op)) :
  ∀ s, ChooseSchoolSlider.cards (ChooseSchoolSlider.run s calls)
       = ChooseSchoolSlider.cards s.
Proof.
  induction calls as [| [e o] calls IH]; intros s; [reflexivity |].
  unfold ChooseSchoolSlider.run in *. cbn [fold_left]. rewrite IH.
  destruct o as [| | index |]; unfold ChooseSchoolSlider.perform; cbn [fst snd].
  - apply school_next_static.
  - apply school_prev_static.
  - apply school_goToIndex_static.
  - apply school_resize_fields.
Qed.

Lemma school_create_cards (e : env) (m : ChooseSchoolSlider.markup) :
  ChooseSchoolSlider.cards (ChooseSchoolSlider.create e m)
  = ChooseSchoolSlider.m_cards m.
Proof.
  unfold ChooseSchoolSlider.create.
  destruct (ChooseSchoolSlider.initialised m);
    rewrite ?school_update_cards; reflexivity.
Qed.

Lemma benefits_run_cards (calls : list (env * ExhibitionBenefitsSlider.op)) :
  ∀ s, ExhibitionBenefitsSlider.cards (ExhibitionBenefitsSlider.run s calls)
       = ExhibitionBenefitsSlider.cards s.
Proof.
  induction calls as [| [e o] calls IH]; intros s; [reflexivity |].
  unfold ExhibitionBenefitsSlider.run in *. cbn [fold_left]. rewrite IH.
  destruct o; unfold ExhibitionBenefitsSlider.perform; cbn [fst snd].
  - apply benefits_next_static.
  - apply benefits_prev_static.
  - apply benefits_resize_fields.
Qed.

Lemma benefits_init_cards (e : env) (s : ExhibitionBenefitsSlider.t) :
  ExhibitionBenefitsSlider.cards (ExhibitionBenefitsSlider.init e s)
  = ExhibitionBenefitsSlider.cards s.
Proof.
  unfold ExhibitionBenefitsSlider.init.
  destruct (ExhibitionBenefitsSlider._activated s); [reflexivity |].
  destruct (negb (ExhibitionBenefitsSlider.track s)
            || Nat.eqb (ExhibitionBenefitsSlider.cards s) 0); [reflexivity |].
  rewrite benefits_update_cards. reflexivity.
Qed.

Lemma benefits_create_sized (e : env) (m : ExhibitionBenefitsSlider.markup)
    (autoInit : bool) :
  benefits_sized (innerWidth e) (ExhibitionBenefitsSlider.create e m autoInit) ∧
  ExhibitionBenefitsSlider.cards (ExhibitionBenefitsSlider.create e m autoInit)
  = ExhibitionBenefitsSlider.m_cards m.
Proof.
  unfold ExhibitionBenefitsSlider.create. destruct autoInit.
  - split; [apply benefits_init_sized, benefits_construct_sized |].
    apply benefits_init_cards.
  - split; [apply benefits_construct_sized | reflexivity].
Qed.

(** C1, as stated, fails on the hero slider: on the last of three slides
    [goToNextSlide()] goes back to slide 0, and on slide 0
    [goToPrevSlide()] goes to the last slide. *)
Lemma hero_next_prev_wrap_around :
  let last := HeroSlider.run three_slides [HeroSlider.Next; HeroSlider.Next] in
  HeroSlider.currentSlide last = HeroSlider.maxIndex last ∧
  HeroSlider.currentSlide (HeroSlider.goToNextSlide last) = 0 ∧
  HeroSlider.goToNextSlide last ≠ last ∧
  HeroSlider.currentSlide three_slides = 0 ∧
  HeroSlider.currentSlide (HeroSlider.goToPrevSlide three_slides) = 2 ∧
  HeroSlider.goToPrevSlide three_slides ≠ three_slides.
Proof.
  cbv zeta. repeat split; try reflexivity; vm_compute; discriminate.
Qed.

(** C1, amended. On the school-choice and the benefits slider, [next()] at
    index = maxIndex and [prev()] at index = 0 change nothing, neither the
    index nor what is rendered, and within the slider they move the index
    by one clamped to [0, maxIndex].  The hero slider wraps instead:
    [next()] on its last slide shows slide 0 and [prev()] on slide 0 shows
    the last slide. *)
Theorem next_prev_at_the_ends (e : env) (s : ChooseSchoolSlider.t)
    (b : ExhibitionBenefitsSlider.t) (h : HeroSlider.t) :
  (ChooseSchoolSlider.currentIndex s = ChooseSchoolSlider.maxIndex s →
   ChooseSchoolSlider.goToNext e s = s) ∧
  (ChooseSchoolSlider.currentIndex s = 0 →
   ChooseSchoolSlider.goToPrev e s = s) ∧
  (0 <= ChooseSchoolSlider.currentIndex s <= ChooseSchoolSlider.maxIndex s →
   ChooseSchoolSlider.currentIndex (ChooseSchoolSlider.goToNext e s)
   = Z.min (ChooseSchoolSlider.currentIndex s + 1) (ChooseSchoolSlider.maxIndex s) ∧
   ChooseSchoolSlider.currentIndex (ChooseSchoolSlider.goToPrev e s)
   = Z.max (ChooseSchoolSlider.currentIndex s - 1) 0) ∧
  (ExhibitionBenefitsSlider.currentIndex b = ExhibitionBenefitsSlider.maxIndex b →
   ExhibitionBenefitsSlider.goToNext e b = b) ∧
  (ExhibitionBenefitsSlider.currentIndex b = 0 →
   ExhibitionBenefitsSlider.goToPrev e b = b) ∧
  (0 <= ExhibitionBenefitsSlider.currentIndex b
     <= ExhibitionBenefitsSlider.maxIndex b →
   ExhibitionBenefitsSlider.currentIndex (ExhibitionBenefitsSlider.goToNext e b)
   = Z.min (ExhibitionBenefitsSlider.currentIndex b + 1)
       (ExhibitionBenefitsSlider.maxIndex b) ∧
   ExhibitionBenefitsSlider.currentIndex (ExhibitionBenefitsSlider.goToPrev e b)
   = Z.max (ExhibitionBenefitsSlider.currentIndex b - 1) 0) ∧
  ((0 < HeroSlider.slides h)%nat →
   HeroSlider.currentSlide h = HeroSlider.maxIndex h →
   HeroSlider.currentSlide (HeroSlider.goToNextSlide h) = 0) ∧
  ((0 < HeroSlider.slides h)%nat →
   HeroSlider.currentSlide h = 0 →
   HeroSlider.currentSlide (HeroSlider.goToPrevSlide h) = HeroSlider.maxIndex h).
Proof.
  repeat apply conj.
  - intros H. unfold ChooseSchoolSlider.goToNext.
    destruct (Z.ltb_spec (ChooseSchoolSlider.currentIndex s)
                (ChooseSchoolSlider.maxIndex s)); [lia | reflexivity].
  - intros H. unfold ChooseSchoolSlider.goToPrev.
    destruct (Z.ltb_spec 0 (ChooseSchoolSlider.currentIndex s));
      [lia | reflexivity].
  - intros H.
    rewrite school_next_currentIndex, school_prev_currentIndex.
    destruct (Z.ltb_spec (ChooseSchoolSlider.currentIndex s)
                (ChooseSchoolSlider.maxIndex s));
      destruct (Z.ltb_spec 0 (ChooseSchoolSlider.currentIndex s)); lia.
  - intros H. unfold ExhibitionBenefitsSlider.goToNext.
    destruct (Z.ltb_spec (ExhibitionBenefitsSlider.currentIndex b)
                (ExhibitionBenefitsSlider.maxIndex b)); [lia | reflexivity].
  - intros H. unfold ExhibitionBenefitsSlider.goToPrev.
    destruct (Z.ltb_spec 0 (ExhibitionBenefitsSlider.currentIndex b));
      [lia | reflexivity].
  - intros H.
    rewrite benefits_next_currentIndex, benefits_prev_currentIndex.
    destruct (Z.ltb_spec (ExhibitionBenefitsSlider.currentIndex b)
                (ExhibitionBenefitsSlider.maxIndex b));
      destruct (Z.ltb_spec 0 (ExhibitionBenefitsSlider.currentIndex b)); lia.
  - unfold HeroSlider.maxIndex. intros Hn Hlast.
    rewrite hero_next_wraps by lia.
    destruct (Z.ltb_spec (HeroSlider.currentSlide h + 1)
                (Z.of_nat (HeroSlider.slides h))); [lia | reflexivity].
  - unfold HeroSlider.maxIndex. intros Hn Hfirst.
    rewrite hero_prev_wraps by lia.
    destruct (Z.ltb_spec 0 (HeroSlider.currentSlide h)); lia.
Qed.

Lemma next_prev_at_the_ends_witness :
  let s := ChooseSchoolSlider.create phone six_schools in
  let s5 := ChooseSchoolSlider.goToIndex phone 5 s in
  let b := ExhibitionBenefitsSlider.create phone eight_benefits true in
  let b7 := ExhibitionBenefitsSlider.onPointerUp phone
              (ExhibitionBenefitsSlider.onPointerMove (-5000)
                 (ExhibitionBenefitsSlider.onPointerDown 0 b)) in
  let h2 := HeroSlider.run three_slides [HeroSlider.Prev] in
  ChooseSchoolSlider.goToNext phone s5 = s5 ∧
  ChooseSchoolSlider.goToPrev phone s = s ∧
  ChooseSchoolSlider.currentIndex (ChooseSchoolSlider.goToNext phone s) = 1 ∧
  ExhibitionBenefitsSlider.goToNext phone b7 = b7 ∧
  ExhibitionBenefitsSlider.goToPrev phone b = b ∧
  ExhibitionBenefitsSlider.currentIndex
    (ExhibitionBenefitsSlider.goToNext phone b) = 1 ∧
  HeroSlider.currentSlide (HeroSlider.goToNextSlide h2) = 0 ∧
  HeroSlider.currentSlide (HeroSlider.goToPrevSlide three_slides) = 2.
Proof.
  cbv zeta.
  pose proof (next_prev_at_the_ends phone
                (ChooseSchoolSlider.goToIndex phone 5
                   (ChooseSchoolSlider.create phone six_schools))
                (ExhibitionBenefitsSlider.onPointerUp phone
                   (ExhibitionBenefitsSlider.onPointerMove (-5000)
                      (ExhibitionBenefitsSlider.onPointerDown 0
                         (ExhibitionBenefitsSlider.create phone eight_benefits true))))
                (HeroSlider.run three_slides [HeroSlider.Prev]))
    as (Hs5 & _ & _ & Hb7 & _ & _ & Hh2 & _).
  pose proof (next_prev_at_the_ends phone
                (ChooseSchoolSlider.create phone six_schools)
                (ExhibitionBenefitsSlider.create phone eight_benefits true)
                three_slides)
    as (_ & Hs0 & Hs & _ & Hb0 & Hb & _ & Hh0).
  split; [apply Hs5; reflexivity |].
  split; [apply Hs0; reflexivity |].
  split; [exact (proj1 (Hs ltac:(vm_compute; split; discriminate))) |].
  split; [apply Hb7; reflexivity |].
  split; [apply Hb0; reflexivity |].
  split; [exact (proj1 (Hb ltac:(vm_compute; split; discriminate))) |].
  split; [apply Hh2; [vm_compute; lia | reflexivity] |].
  apply Hh0; [vm_compute; lia | reflexivity].
Defined.

(** C2, as stated, fails for a negative argument: [goToIndex(-1)] on the
    freshly built school-choice slider leaves the index at -1. *)
Lemma school_goToIndex_below_zero :
  let s := ChooseSchoolSlider.run
             (ChooseSchoolSlider.create desktop six_schools)
             [(desktop, ChooseSchoolSlider.GoToIndex (-1))] in
  ChooseSchoolSlider.currentIndex s = -1 ∧
  ¬ (0 <= ChooseSchoolSlider.currentIndex s <= ChooseSchoolSlider.maxIndex s).
Proof.
  cbv zeta. split; [reflexivity |]. vm_compute. intros [H _]. apply H. reflexivity.
Qed.

(** C2, amended. After any sequence of [next()], [prev()], [goToIndex(i)]
    with [i >= 0] (the dot listeners pass a dot's position) and resize
    callbacks, starting from the freshly built slider, the index satisfies
    0 <= index <= maxIndex, where maxIndex = max(0, itemCount -
    itemsPerView) and itemsPerView is the one for the viewport width of
    the latest resize; this holds for the school-choice slider and, with
    the calls it has, for the benefits slider; the hero slider's index
    stays within its slides. *)
Theorem index_within_bounds
    (e : env) (m : ChooseSchoolSlider.markup)
    (calls : list (env * ChooseSchoolSlider.op))
    (e' : env) (bm : ExhibitionBenefitsSlider.markup) (autoInit : bool)
    (bcalls : list (env * ExhibitionBenefitsSlider.op))
    (track : bool) (n : nat) (active0 : list bool) (live0 : string)
    (pause0 : option HeroSlider.pause_button) (ops : list HeroSlider.op)
    (Hdots : Forall (fun c => ChooseSchoolSlider.from_dot (snd c)) calls)
    (Hslides : (0 < n)%nat) :
  let s := ChooseSchoolSlider.run (ChooseSchoolSlider.create e m) calls in
  let b := ExhibitionBenefitsSlider.run
             (ExhibitionBenefitsSlider.init e'
                (ExhibitionBenefitsSlider.create e bm autoInit)) bcalls in
  let h := HeroSlider.run (HeroSlider.create track n active0 live0 pause0) ops in
  (0 <= ChooseSchoolSlider.currentIndex s <= ChooseSchoolSlider.maxIndex s ∧
   ChooseSchoolSlider.maxIndex s
   = Z.max 0 (Z.of_nat (ChooseSchoolSlider.m_cards m)
              - ChooseSchoolSlider.getCardsPerView
                  (ChooseSchoolSlider.lastWidth (innerWidth e) calls))) ∧
  (0 <= ExhibitionBenefitsSlider.currentIndex b
     <= ExhibitionBenefitsSlider.maxIndex b ∧
   ExhibitionBenefitsSlider.maxIndex b
   = Z.max 0 (Z.of_nat (ExhibitionBenefitsSlider.m_cards bm)
              - ExhibitionBenefitsSlider.getCardsPerView
                  (ExhibitionBenefitsSlider.lastWidth (innerWidth e) bcalls))) ∧
  0 <= HeroSlider.currentSlide h <= Z.of_nat n - 1.
Proof.
  cbv zeta. split; [| split].
  - destruct (school_run_sized calls (innerWidth e)
                (ChooseSchoolSlider.create e m) Hdots
                (school_create_sized e m)) as (Hidx & Hmax & Hcpv).
    split; [exact Hidx |].
    rewrite Hmax, Hcpv, school_run_cards, school_create_cards. reflexivity.
  - destruct (benefits_create_sized e bm autoInit) as [Hsized Hcards].
    destruct (benefits_run_sized bcalls (innerWidth e) _
                (benefits_init_sized e' _ _ Hsized)) as (Hidx & Hmax & Hcpv).
    split; [exact Hidx |].
    rewrite Hmax, Hcpv, benefits_run_cards, benefits_init_cards, Hcards.
    reflexivity.
  - assert (Hcreate :
              HeroSlider.slides (HeroSlider.create track n active0 live0 pause0) = n
              ∧ HeroSlider.currentSlide
                  (HeroSlider.create track n active0 live0 pause0) = 0).
    { unfold HeroSlider.create. cbv zeta.
      destruct (negb track || Nat.eqb n 0); split; reflexivity. }
    destruct Hcreate as [Hn0 Hc0].
    destruct (hero_run_within ops
                (HeroSlider.create track n active0 live0 pause0)) as [Hin Hn].
    + rewrite Hn0. exact Hslides.
    + unfold hero_within, HeroSlider.maxIndex. rewrite Hn0, Hc0. lia.
    + unfold hero_within, HeroSlider.maxIndex in Hin. rewrite Hn, Hn0 in Hin.
      lia.
Qed.

Lemma index_within_bounds_witness :
  let s := ChooseSchoolSlider.run
             (ChooseSchoolSlider.create desktop six_schools)
             [(desktop, ChooseSchoolSlider.GoToIndex 2);
              (phone, ChooseSchoolSlider.Resize);
              (phone, ChooseSchoolSlider.GoToIndex 7);
              (desktop, ChooseSchoolSlider.Resize);
              (desktop, ChooseSchoolSlider.Next);
              (desktop, ChooseSchoolSlider.Prev)] in
  0 <= ChooseSchoolSlider.currentIndex s <= ChooseSchoolSlider.maxIndex s ∧
  ChooseSchoolSlider.maxIndex s = 2.
Proof.
  cbv zeta.
  refine (proj1 (index_within_bounds desktop six_schools
                   [(desktop, ChooseSchoolSlider.GoToIndex 2);
                    (phone, ChooseSchoolSlider.Resize);
                    (phone, ChooseSchoolSlider.GoToIndex 7);
                    (desktop, ChooseSchoolSlider.Resize);
                    (desktop, ChooseSchoolSlider.Next);
                    (desktop, ChooseSchoolSlider.Prev)]
                   phone eight_benefits false
                   [(phone, ExhibitionBenefitsSlider.Next)]
                   true 3 [true; false; false] "off" None [HeroSlider.Prev] _ _)).
  - repeat constructor; cbn; lia.
  - lia.
Defined.

(** ** Sliders: swipes *)

(** C3, as stated, fails at the end of the slider: on the last index of the
    school-choice slider a leftward swipe of 100px leaves the index where
    it is. *)
Lemma school_swipe_at_last_index :
  let s := ChooseSchoolSlider.run
             (ChooseSchoolSlider.create desktop six_schools)
             [(desktop, ChooseSchoolSlider.Next);
              (desktop, ChooseSchoolSlider.Next)] in
  50 < Z.abs (200 - 100) ∧
  ChooseSchoolSlider.currentIndex s = 2 ∧
  ChooseSchoolSlider.currentIndex
    (ChooseSchoolSlider.handleSwipe desktop 200 100 s) = 2.
Proof. cbv zeta. repeat split; reflexivity. Qed.

(** C3, amended. For a swipe from [startX] to [endX], with
    dx = startX - endX: if |dx| <= 50, [handleSwipe] changes nothing; if
    |dx| > 50 it takes exactly one step, [next()] for a leftward swipe
    (startX > endX) and [prev()] for a rightward one.  On the school-choice
    and benefits sliders that step moves the index by one unless the index
    is already at maxIndex (leftward) or at 0 (rightward), where it stays;
    on the hero slider it moves by one and wraps at the ends. *)
Theorem handleSwipe_one_step (e : env) (s : ChooseSchoolSlider.t)
    (b : ExhibitionBenefitsSlider.t) (h : HeroSlider.t) (startX endX : Z) :
  (Z.abs (startX - endX) <= 50 →
   ChooseSchoolSlider.handleSwipe e startX endX s = s ∧
   ExhibitionBenefitsSlider.handleSwipe e startX endX b = b ∧
   HeroSlider.handleSwipe startX endX h = h) ∧
  (50 < startX - endX →
   ChooseSchoolSlider.handleSwipe e startX endX s
   = ChooseSchoolSlider.goToNext e s ∧
   ChooseSchoolSlider.currentIndex (ChooseSchoolSlider.handleSwipe e startX endX s)
   = (if ChooseSchoolSlider.currentIndex s <? ChooseSchoolSlider.maxIndex s
      then ChooseSchoolSlider.currentIndex s + 1
      else ChooseSchoolSlider.currentIndex s) ∧
   ExhibitionBenefitsSlider.handleSwipe e startX endX b
   = ExhibitionBenefitsSlider.goToNext e b ∧
   ExhibitionBenefitsSlider.currentIndex
     (ExhibitionBenefitsSlider.handleSwipe e startX endX b)
   = (if ExhibitionBenefitsSlider.currentIndex b
         <? ExhibitionBenefitsSlider.maxIndex b
      then ExhibitionBenefitsSlider.currentIndex b + 1
      else ExhibitionBenefitsSlider.currentIndex b) ∧
   HeroSlider.handleSwipe startX endX h = HeroSlider.goToNextSlide h ∧
   (0 <= HeroSlider.currentSlide h < Z.of_nat (HeroSlider.slides h) →
    HeroSlider.currentSlide (HeroSlider.handleSwipe startX endX h)
    = (if HeroSlider.currentSlide h + 1 <? Z.of_nat (HeroSlider.slides h)
       then HeroSlider.currentSlide h + 1 else 0))) ∧
  (startX - endX < -50 →
   ChooseSchoolSlider.handleSwipe e startX endX s
   = ChooseSchoolSlider.goToPrev e s ∧
   ChooseSchoolSlider.currentIndex (ChooseSchoolSlider.handleSwipe e startX endX s)
   = (if 0 <? ChooseSchoolSlider.currentIndex s
      then ChooseSchoolSlider.currentIndex s - 1
      else ChooseSchoolSlider.currentIndex s) ∧
   ExhibitionBenefitsSlider.handleSwipe e startX endX b
   = ExhibitionBenefitsSlider.goToPrev e b ∧
   ExhibitionBenefitsSlider.currentIndex
     (ExhibitionBenefitsSlider.handleSwipe e startX endX b)
   = (if 0 <? ExhibitionBenefitsSlider.currentIndex b
      then ExhibitionBenefitsSlider.currentIndex b - 1
      else ExhibitionBenefitsSlider.currentIndex b) ∧
   HeroSlider.handleSwipe startX endX h = HeroSlider.goToPrevSlide h ∧
   (0 <= HeroSlider.currentSlide h < Z.of_nat (HeroSlider.slides h) →
    HeroSlider.currentSlide (HeroSlider.handleSwipe startX endX h)
    = (if 0 <? HeroSlider.currentSlide h
       then HeroSlider.currentSlide h - 1
       else Z.of_nat (HeroSlider.slides h) - 1))).
Proof.
  unfold ChooseSchoolSlider.handleSwipe, ExhibitionBenefitsSlider.handleSwipe,
    HeroSlider.handleSwipe. cbv zeta.
  destruct (Z.ltb_spec 50 (Z.abs (startX - endX))) as [Hfar | Hnear];
    destruct (Z.ltb_spec 0 (startX - endX)) as [Hleft | Hright].
  - split; [lia |]. split; [| lia]. intros _.
    rewrite school_next_currentIndex, benefits_next_currentIndex.
    repeat split. apply hero_next_wraps.
  - split; [lia |]. split; [lia |]. intros _.
    rewrite school_prev_currentIndex, benefits_prev_currentIndex.
    repeat split. apply hero_prev_wraps.
  - split; [tauto |]. split; lia.
  - split; [tauto |]. split; lia.
Qed.

Lemma handleSwipe_one_step_witness :
  let s := ChooseSchoolSlider.create phone six_schools in
  (ChooseSchoolSlider.handleSwipe phone 120 80 s = s) ∧
  ChooseSchoolSlider.currentIndex (ChooseSchoolSlider.handleSwipe phone 200 100 s) = 1 ∧
  ChooseSchoolSlider.currentIndex
    (ChooseSchoolSlider.handleSwipe phone 100 200
       (ChooseSchoolSlider.handleSwipe phone 200 100 s)) = 0 ∧
  HeroSlider.currentSlide (HeroSlider.handleSwipe 100 200 three_slides) = 2.
Proof.
  cbv zeta. repeat apply conj.
  - refine (proj1 (proj1
             (handleSwipe_one_step phone
                (ChooseSchoolSlider.create phone six_schools)
                (ExhibitionBenefitsSlider.create phone eight_benefits true)
                three_slides 120 80) _)). lia.
  - refine (proj1 (proj2 (proj1 (proj2
             (handleSwipe_one_step phone
                (ChooseSchoolSlider.create phone six_schools)
                (ExhibitionBenefitsSlider.create phone eight_benefits true)
                three_slides 200 100)) _))). lia.
  - refine (proj1 (proj2 (proj2 (proj2
             (handleSwipe_one_step phone
                (ChooseSchoolSlider.handleSwipe phone 200 100
                   (ChooseSchoolSlider.create phone six_schools))
                (ExhibitionBenefitsSlider.create phone eight_benefits true)
                three_slides 100 200)) _))). lia.
  - refine (proj2 (proj2 (proj2 (proj2 (proj2 (proj2 (proj2
             (handleSwipe_one_step phone
                (ChooseSchoolSlider.create phone six_schools)
                (ExhibitionBenefitsSlider.create phone eight_benefits true)
                three_slides 100 200)) _))))) _).
    + lia.
    + vm_compute. split; [discriminate | reflexivity].
Defined.

(** ** Benefits slider: every listener keeps the index within bounds *)

Section BenefitsEvents.
Import ExhibitionBenefitsSlider.

Lemma benefits_swipe_sized (e : env) (w x0 x1 : Z) (s : t) :
  benefits_sized w s → benefits_sized w (handleSwipe e x0 x1 s).
Proof.
  intros Hs. unfold handleSwipe. cbv zeta.
  destruct (50 <? Z.abs (x0 - x1)); [| exact Hs].
  destruct (0 <? x0 - x1);
    [now apply benefits_next_sized | now apply benefits_prev_sized].
Qed.

Lemma benefits_pointerUp_sized (e : env) (w : Z) (s : t) :
  benefits_sized w s → benefits_sized w (onPointerUp e s).
Proof.
  intros Hs. unfold onPointerUp. cbv zeta.
  destruct (negb (isDragging (vars s))); [exact Hs |].
  destruct Hs as (Hidx & Hmax & Hcpv). unfold benefits_sized.
  rewrite benefits_update_currentIndex, benefits_update_maxIndex,
    benefits_update_cards, benefits_update_cardsPerView.
  cbn. repeat split; lia.
Qed.

Lemma benefits_dispatch_sized (w : Z) (s : t) (c : env * event) :
  benefits_sized w s → ∃ w', benefits_sized w' (dispatch s c).
Proof.
  intros Hs. destruct c as [e ev]. unfold dispatch. cbn [fst snd].
  destruct (negb (_activated s)); [now exists w |].
  destruct ev.
  - exists w. destruct (prevBtn s); [now apply benefits_prev_sized | exact Hs].
  - exists w. destruct (nextBtn s); [now apply benefits_next_sized | exact Hs].
  - exists w. exact Hs.
  - exists w. unfold onPointerMove. cbv zeta.
    destruct (negb (isDragging (vars s))); exact Hs.
  - exists w. apply benefits_pointerUp_sized.
    unfold onTouchEnd. cbv zeta. apply benefits_swipe_sized. exact Hs.
  - exists w. exact Hs.
  - exists w. unfold onPointerMove. cbv zeta.
    destruct (negb (isDragging (vars s))); exact Hs.
  - exists w. now apply benefits_pointerUp_sized.
  - exists w. unfold onWheel.
    destruct (Z.abs deltaX <? Z.abs deltaY); [| exact Hs].
    destruct (5 <? deltaY); [now apply benefits_next_sized |].
    destruct (deltaY <? -5); [now apply benefits_prev_sized | exact Hs].
  - exists w. unfold onKeyDown. cbv zeta.
    destruct (String.eqb key "ArrowLeft"), (String.eqb key "ArrowRight");
      auto using benefits_next_sized, benefits_prev_sized.
  - exists (innerWidth e). now apply (benefits_resize_sized e w).
Qed.

(** Whatever reaches the listeners, touch and mouse drags, wheel and keys
    included, the index stays within [0, maxIndex]. *)
Lemma benefits_dispatch_all_within (evs : list (env * event)) :
  ∀ (w : Z) (s : t),
    benefits_sized w s →
    0 <= currentIndex (dispatch_all s evs) <= maxIndex (dispatch_all s evs).
Proof.
  induction evs as [| c evs IH]; intros w s Hs; [apply Hs |].
  destruct (benefits_dispatch_sized w s c Hs) as [w' Hs'].
  exact (IH w' (dispatch s c) Hs').
Qed.

(** A touch swipe on the benefits track reaches two [touchend] listeners:
    [handleSwipe] first, then [onPointerUp], which snaps the index to the
    dragged offset.  From index 2 a leftward swipe of 60px is taken to
    index 3 by [handleSwipe] alone, and ends on index 0. *)
Example benefits_touch_swipe_then_snap :
  let b := dispatch_all
             (init desktop (create desktop eight_benefits false))
             [(desktop, ClickNext); (desktop, ClickNext)] in
  currentIndex b = 2 ∧
  currentIndex (handleSwipe desktop 300 240 b) = 3 ∧
  currentIndex
    (dispatch_all b
       [(desktop, TouchStart 300 300); (desktop, TouchMove 240);
        (desktop, TouchEnd 240)]) = 0.
Proof. cbv zeta. repeat split; reflexivity. Qed.

End BenefitsEvents.

(** ** Strings: trimming and the phone pattern *)

Section Strings.
Import JS.

Lemma isDigit_spec (c : N) : isDigit c = true ↔ decimal_digit c.
Proof.
  unfold isDigit, decimal_digit.
  rewrite andb_true_iff, !N.leb_le. reflexivity.
Qed.

Lemma digits_spec (n : nat) :
  ∀ s r : list N,
    digits n s = Some r ↔
    ∃ p, s = p ++ r ∧ length p = n ∧ Forall decimal_digit p.
Proof.
  induction n as [| n IH]; intros s r; cbn [digits].
  - split.
    + intros [= ->]. exists []. repeat split. constructor.
    + intros (p & -> & Hlen & _). destruct p; [reflexivity | discriminate].
  - destruct s as [| c s].
    + split; [discriminate |].
      intros (p & Hs & Hlen & _). destruct p; discriminate.
    + destruct (isDigit c) eqn:Hc.
      * rewrite IH. split.
        -- intros (p & -> & Hlen & Hp). exists (c :: p).
           repeat split; [cbn; lia |]. constructor; [| exact Hp].
           now apply isDigit_spec.
        -- intros (p & Hs & Hlen & Hp). destruct p as [| c' p]; [discriminate |].
           injection Hs as -> ->. inversion Hp; subst.
           exists p. repeat split; [cbn in Hlen; lia | assumption].
      * split; [discriminate |].
        intros (p & Hs & Hlen & Hp). destruct p as [| c' p]; [discriminate |].
        injection Hs as -> ->. inversion Hp as [| ? ? Hd _]; subst.
        apply isDigit_spec in Hd. congruence.
Qed.

(** The pattern accepts exactly the strings of ten decimal digits. *)
Lemma phoneRegex_test_spec (s : list N) :
  phoneRegex_test s = true ↔ ten_digits s.
Proof.
  unfold phoneRegex_test, ten_digits.
  destruct (digits 10 s) as [r |] eqn:Hd.
  - apply digits_spec in Hd as (p & -> & Hlen & Hp).
    destruct r as [| c r].
    + rewrite app_nil_r. tauto.
    + split; [discriminate |]. rewrite length_app. cbn. lia.
  - split; [discriminate |]. intros [Hlen Hs].
    assert (digits 10 s = Some []) as Hd'; [| congruence].
    apply digits_spec. exists s. rewrite app_nil_r. tauto.
Qed.

Lemma digit_not_whitespace (c : N) : decimal_digit c → isWhiteSpace c = false.
Proof.
  unfold decimal_digit, isWhiteSpace. intros Hc.
  repeat match goal with
         | |- context [N.leb ?a ?b] =>
             destruct (N.leb_spec a b); cbn [andb orb]; try lia
         | |- context [N.eqb ?a ?b] =>
             destruct (N.eqb_spec a b); cbn [andb orb]; try lia
         end;
    reflexivity.
Qed.

Lemma trimStart_whitespace (s : list N) : whitespace_only s → trimStart s = [].
Proof.
  induction 1 as [| c s Hc _ IH]; [reflexivity |]. cbn. now rewrite Hc.
Qed.

Lemma trim_whitespace (s : list N) : whitespace_only s → trim s = [].
Proof.
  intros Hs. unfold trim, trimEnd. now rewrite (trimStart_whitespace s Hs).
Qed.

Lemma trimStart_digits (s : list N) : Forall decimal_digit s → trimStart s = s.
Proof.
  destruct 1 as [| c s Hc _]; [reflexivity |].
  cbn. now rewrite (digit_not_whitespace c Hc).
Qed.

(** A string of digits has nothing to trim. *)
Lemma trim_digits (s : list N) : Forall decimal_digit s → trim s = s.
Proof.
  intros Hs. unfold trim, trimEnd.
  rewrite (trimStart_digits s Hs), trimStart_digits, rev_involutive;
    [reflexivity |].
  rewrite Forall_forall in *. intros c Hin. apply Hs.
  apply list_elem_of_In. apply list_elem_of_In in Hin.
  now apply in_rev.
Qed.

Lemma truthy_spec (s : list N) : truthy s = true ↔ s ≠ [].
Proof. destruct s; cbn; split; congruence. Qed.

End Strings.

(** ** Enquiry form: validation of one field *)

Section FieldValidation.
Import FormValidator.

Lemma clearError_eq (i : nat) (st : state) (x : field) :
  inputs st !! i = Some x →
  clearError i st
  = set_errors (remove_first_error (f_parent x) (errors st))
      (set_inputs (<[i := cleared x]> (inputs st)) st).
Proof. intros Hi. unfold clearError. now rewrite Hi. Qed.

Lemma showError_eq (i : nat) (message : string) (st : state) (x : field) :
  inputs st !! i = Some x →
  showError i message st
  = set_errors
      (remove_first_error (f_parent x) (errors st) ++ [error_of x message])
      (set_inputs (<[i := flagged x]> (inputs st)) st).
Proof.
  intros Hi. unfold showError. rewrite (clearError_eq i st x Hi). cbn.
  rewrite list_lookup_insert_eq by (eapply lookup_lt_Some; eassumption).
  cbn. rewrite list_insert_insert_eq. reflexivity.
Qed.

Lemma validateField_eq (i : nat) (st : state) (x : field) :
  inputs st !! i = Some x →
  validateField i st
  = (if fst (check x) then clearError i st
     else showError i (snd (check x)) st,
     fst (check x)).
Proof.
  intros Hi. unfold validateField. rewrite Hi.
  destruct (check x) as [[|] message]; reflexivity.
Qed.

(** What a failed validation leaves on the page. *)
Lemma validateField_invalid (i : nat) (st : state) (x : field) :
  inputs st !! i = Some x → fst (check x) = false →
  snd (validateField i st) = false ∧
  errors (onBlur i st)
  = remove_first_error (f_parent x) (errors st) ++ [error_of x (snd (check x))] ∧
  inputs (onBlur i st) !! i = Some (flagged x).
Proof.
  intros Hi Hbad. unfold onBlur.
  rewrite (validateField_eq i st x Hi), Hbad. cbn [fst snd].
  rewrite (showError_eq i _ st x Hi). cbn.
  rewrite list_lookup_insert_eq by (eapply lookup_lt_Some; eassumption).
  repeat split.
Qed.

(** What a passed validation leaves on the page. *)
Lemma validateField_valid (i : nat) (st : state) (x : field) :
  inputs st !! i = Some x → fst (check x) = true →
  snd (validateField i st) = true ∧
  errors (onBlur i st) = remove_first_error (f_parent x) (errors st) ∧
  inputs (onBlur i st) !! i = Some (cleared x).
Proof.
  intros Hi Hok. unfold onBlur.
  rewrite (validateField_eq i st x Hi), Hok. cbn [fst snd].
  rewrite (clearError_eq i st x Hi). cbn.
  rewrite list_lookup_insert_eq by (eapply lookup_lt_Some; eassumption).
  repeat split.
Qed.

Lemma check_tel (x : field) :
  f_type x = "tel" → JS.trim (f_value x) ≠ [] →
  check x
  = if JS.phoneRegex_test (JS.trim (f_value x)) then (true, EmptyString)
    else (false, phoneMessage).
Proof.
  intros Htel Hvalue. unfold check. cbv zeta.
  apply truthy_spec in Hvalue. rewrite Hvalue, Htel.
  rewrite andb_false_r. cbn [String.eqb Ascii.eqb Bool.eqb andb negb].
  destruct (JS.phoneRegex_test (JS.trim (f_value x))); reflexivity.
Qed.

Lemma check_required_blank (x : field) :
  f_required x = true → whitespace_only (f_value x) →
  check x = (false, requiredMessage).
Proof.
  intros Hreq Hws. unfold check. cbv zeta.
  now rewrite (trim_whitespace _ Hws), Hreq.
Qed.

End FieldValidation.

(** C5, as stated, fails for a value with surrounding whitespace: a space
    followed by ten digits is a non-empty value that is not exactly ten
    decimal digits, and the phone field accepts it without an error. *)
Lemma phone_with_leading_space_accepted :
  let x := tel_input "phone" 0 true (JS.of_string " 1234567890") in
  let st := FormValidator.load [x] [] in
  FormValidator.f_value x ≠ [] ∧
  ¬ ten_digits (FormValidator.f_value x) ∧
  snd (FormValidator.validateField 0 st) = true ∧
  FormValidator.errors (FormValidator.onBlur 0 st) = [].
Proof.
  cbv zeta. split; [discriminate |]. split; [| split; reflexivity].
  intros [Hlen _]. vm_compute in Hlen. discriminate.
Qed.

(** C5, amended. For every phone-typed field whose value is non-empty
    after trimming surrounding whitespace, validation on blur fails, and
    shows the phone error, if and only if the trimmed value is not exactly
    ten decimal digits; in particular a value of 9 or of 11 digits
    produces the error and a value of exactly 10 digits produces none. *)
Theorem phone_field_validation (st : FormValidator.state) (i : nat)
    (x : FormValidator.field)
    (Hi : FormValidator.inputs st !! i = Some x)
    (Htel : FormValidator.f_type x = "tel")
    (Hvalue : JS.trim (FormValidator.f_value x) ≠ []) :
  (snd (FormValidator.validateField i st) = false
   ↔ ¬ ten_digits (JS.trim (FormValidator.f_value x))) ∧
  (¬ ten_digits (JS.trim (FormValidator.f_value x)) →
   FormValidator.errors (FormValidator.onBlur i st)
   = FormValidator.remove_first_error (FormValidator.f_parent x)
       (FormValidator.errors st)
     ++ [error_of x "Please enter a valid 10-digit phone number"] ∧
   FormValidator.inputs (FormValidator.onBlur i st) !! i = Some (flagged x)) ∧
  (ten_digits (JS.trim (FormValidator.f_value x)) →
   FormValidator.errors (FormValidator.onBlur i st)
   = FormValidator.remove_first_error (FormValidator.f_parent x)
       (FormValidator.errors st) ∧
   FormValidator.inputs (FormValidator.onBlur i st) !! i = Some (cleared x)) ∧
  (Forall decimal_digit (FormValidator.f_value x) →
   (length (FormValidator.f_value x) = 9%nat
    ∨ length (FormValidator.f_value x) = 11%nat →
    snd (FormValidator.validateField i st) = false) ∧
   (length (FormValidator.f_value x) = 10%nat →
    snd (FormValidator.validateField i st) = true)).
Proof.
  pose proof (check_tel x Htel Hvalue) as Hcheck.
  pose proof (phoneRegex_test_spec (JS.trim (FormValidator.f_value x))) as Hre.
  assert (Hiff : snd (FormValidator.validateField i st) = false
                 ↔ ¬ ten_digits (JS.trim (FormValidator.f_value x))).
  { rewrite (validateField_eq i st x Hi), Hcheck. cbn [snd].
    destruct (JS.phoneRegex_test (JS.trim (FormValidator.f_value x)));
      cbn [fst]; split; try discriminate; try reflexivity.
    - intros Hnot. exfalso. apply Hnot, Hre. reflexivity.
    - intros _ Hten. apply Hre in Hten. discriminate. }
  split; [exact Hiff |]. split; [| split].
  - intros Hnot.
    assert (Hbad : fst (FormValidator.check x) = false).
    { rewrite Hcheck.
      destruct (JS.phoneRegex_test (JS.trim (FormValidator.f_value x)));
        [exfalso; apply Hnot, Hre; reflexivity | reflexivity]. }
    destruct (validateField_invalid i st x Hi Hbad) as (_ & Herr & Hin).
    split; [| exact Hin]. rewrite Herr, Hcheck.
    destruct (JS.phoneRegex_test (JS.trim (FormValidator.f_value x)));
      [exfalso; apply Hnot, Hre; reflexivity | reflexivity].
  - intros Hten.
    assert (Hok : fst (FormValidator.check x) = true).
    { rewrite Hcheck. apply Hre in Hten. now rewrite Hten. }
    destruct (validateField_valid i st x Hi Hok) as (_ & Herr & Hin).
    split; assumption.
  - intros Hdigits. rewrite (trim_digits _ Hdigits) in Hiff. split.
    + intros Hlen. apply Hiff. intros [Hten _]. lia.
    + intros Hlen.
      destruct (snd (FormValidator.validateField i st)); [reflexivity |].
      exfalso. apply (proj1 Hiff); [reflexivity |]. split; assumption.
Qed.

Lemma phone_field_validation_witness :
  let nine := tel_input "phone" 0 false (JS.of_string "123456789") in
  let ten := tel_input "phone" 0 false (JS.of_string "1234567890") in
  let eleven := tel_input "phone" 0 false (JS.of_string "12345678901") in
  snd (FormValidator.validateField 0 (FormValidator.load [nine] [])) = false ∧
  snd (FormValidator.validateField 0 (FormValidator.load [ten] [])) = true ∧
  snd (FormValidator.validateField 0 (FormValidator.load [eleven] [])) = false.
Proof.
  cbv zeta. split; [| split].
  - refine (proj1 (proj2 (proj2 (proj2
      (phone_field_validation
         (FormValidator.load [tel_input "phone" 0 false (JS.of_string "123456789")] [])
         0 (tel_input "phone" 0 false (JS.of_string "123456789")) _ _ _))) _) _).
    + reflexivity.
    + reflexivity.
    + vm_compute. discriminate.
    + vm_compute. repeat constructor; discriminate.
    + left. reflexivity.
  - refine (proj2 (proj2 (proj2 (proj2
      (phone_field_validation
         (FormValidator.load [tel_input "phone" 0 false (JS.of_string "1234567890")] [])
         0 (tel_input "phone" 0 false (JS.of_string "1234567890")) _ _ _))) _) _).
    + reflexivity.
    + reflexivity.
    + vm_compute. discriminate.
    + vm_compute. repeat constructor; discriminate.
    + reflexivity.
  - refine (proj1 (proj2 (proj2 (proj2
      (phone_field_validation
         (FormValidator.load [tel_input "phone" 0 false (JS.of_string "12345678901")] [])
         0 (tel_input "phone" 0 false (JS.of_string "12345678901")) _ _ _))) _) _).
    + reflexivity.
    + reflexivity.
    + vm_compute. discriminate.
    + vm_compute. repeat constructor; discriminate.
    + right. reflexivity.
Defined.

(** C10. A required field whose value consists only of whitespace is
    treated as empty by the blur validation: the value is trimmed before
    the emptiness check, so validation fails and the required-field error
    is shown. *)
Theorem required_whitespace_only_fails (st : FormValidator.state) (i : nat)
    (x : FormValidator.field)
    (Hi : FormValidator.inputs st !! i = Some x)
    (Hrequired : FormValidator.f_required x = true)
    (Hblank : whitespace_only (FormValidator.f_value x)) :
  JS.trim (FormValidator.f_value x) = [] ∧
  snd (FormValidator.validateField i st) = false ∧
  FormValidator.errors (FormValidator.onBlur i st)
  = FormValidator.remove_first_error (FormValidator.f_parent x)
      (FormValidator.errors st)
    ++ [error_of x "This field is required"] ∧
  FormValidator.inputs (FormValidator.onBlur i st) !! i = Some (flagged x).
Proof.
  split; [now apply trim_whitespace |].
  pose proof (check_required_blank x Hrequired Hblank) as Hcheck.
  assert (Hbad : fst (FormValidator.check x) = false) by now rewrite Hcheck.
  destruct (validateField_invalid i st x Hi Hbad) as (Hres & Herr & Hin).
  rewrite Hcheck in Herr. repeat split; assumption.
Qed.

Lemma required_whitespace_only_fails_witness :
  let x := text_input "name" 0 true [32; 9; 160; 8195]%N in
  let st := FormValidator.load [x] [] in
  snd (FormValidator.validateField 0 st) = false ∧
  FormValidator.errors (FormValidator.onBlur 0 st)
  = [error_of x "This field is required"].
Proof.
  cbv zeta.
  destruct (required_whitespace_only_fails
              (FormValidator.load [text_input "name" 0 true [32; 9; 160; 8195]%N] [])
              0 (text_input "name" 0 true [32; 9; 160; 8195]%N))
    as (_ & Hres & Herr & _).
  - reflexivity.
  - reflexivity.
  - repeat constructor.
  - split; [exact Hres | exact Herr].
Defined.

(** ** Enquiry form: submission *)

Section Submission.
Import FormValidator.



Lemma check_static (x y : field) : cleared x = cleared y → check x = check y.
Proof.
  intros H.
  change (check x) with (check (cleared x)).
  change (check y) with (check (cleared y)).
  now rewrite H.
Qed.


Lemma cleared_verdict (x : field) : cleared (verdict x) = cleared x.
Proof. unfold verdict. destruct (fst (check x)); reflexivity. Qed.

Lemma lookup_same_static (st st0 : state) (i : nat) (x : field) :
  same_static st st0 → inputs st !! i = Some x →
  ∃ x0, inputs st0 !! i = Some x0 ∧ cleared x = cleared x0.
Proof.
  unfold same_static. intros Hst Hi.
  assert (H : (cleared <$> inputs st0) !! i = Some (cleared x)).
  { rewrite <- Hst, list_lookup_fmap, Hi. reflexivity. }
  rewrite list_lookup_fmap in H.
  destruct (inputs st0 !! i) as [x0 |]; [| discriminate].
  exists x0. split; [reflexivity |]. cbn in H. congruence.
Qed.

Lemma same_static_sym (st st0 : state) : same_static st st0 → same_static st0 st.
Proof. unfold same_static. congruence. Qed.

Lemma validateField_inputs (i : nat) (st : state) (x : field) :
  inputs st !! i = Some x →
  inputs (fst (validateField i st)) = <[i := verdict x]> (inputs st).
Proof.
  intros Hi. rewrite (validateField_eq i st x Hi). cbn [fst]. unfold verdict.
  destruct (fst (check x)).
  - now rewrite (clearError_eq i st x Hi).
  - now rewrite (showError_eq i _ st x Hi).
Qed.

Lemma validateField_errors (i : nat) (st : state) (x : field) :
  inputs st !! i = Some x →
  errors (fst (validateField i st))
  = remove_first_error (f_parent x) (errors st)
    ++ (if fst (check x) then [] else [error_of x (snd (check x))]).
Proof.
  intros Hi. rewrite (validateField_eq i st x Hi). cbn [fst].
  destruct (fst (check x)).
  - rewrite (clearError_eq i st x Hi). cbn. now rewrite app_nil_r.
  - now rewrite (showError_eq i _ st x Hi).
Qed.

Lemma validateField_frame (i : nat) (st : state) :
  same_frame (fst (validateField i st)) st.
Proof.
  unfold same_frame.
  destruct (inputs st !! i) as [x |] eqn:Hi.
  - rewrite (validateField_eq i st x Hi). cbn [fst].
    destruct (fst (check x)).
    + rewrite (clearError_eq i st x Hi). repeat split.
    + rewrite (showError_eq i _ st x Hi). repeat split.
  - unfold validateField. rewrite Hi. repeat split.
Qed.

Lemma validateField_same_static (i : nat) (st : state) :
  same_static (fst (validateField i st)) st.
Proof.
  unfold same_static.
  destruct (inputs st !! i) as [x |] eqn:Hi.
  - rewrite (validateField_inputs i st x Hi), list_fmap_insert, cleared_verdict.
    apply list_insert_id. now rewrite list_lookup_fmap, Hi.
  - unfold validateField. now rewrite Hi.
Qed.

Lemma validateField_result (i : nat) (st : state) :
  snd (validateField i st) = valid_at st i.
Proof.
  unfold valid_at. destruct (inputs st !! i) as [x |] eqn:Hi.
  - now rewrite (validateField_eq i st x Hi).
  - unfold validateField. now rewrite Hi.
Qed.

End Submission.

Section ValidateForm.
Import FormValidator.

Lemma validateForm_fold (st : state) :
  validateForm st = fold_left validate_step (requiredInputs st) (st, true).
Proof. reflexivity. Qed.

Lemma valid_at_static (st st0 : state) (i : nat) :
  same_static st st0 → valid_at st i = valid_at st0 i.
Proof.
  intros Hst. unfold valid_at.
  destruct (inputs st !! i) as [x |] eqn:Hi.
  - destruct (lookup_same_static st st0 i x Hst Hi) as (x0 & -> & Hx).
    now rewrite (check_static x x0 Hx).
  - destruct (inputs st0 !! i) as [x0 |] eqn:Hi0; [| reflexivity].
    destruct (lookup_same_static st0 st i x0 (same_static_sym _ _ Hst) Hi0)
      as (x & Hx & _). congruence.
Qed.

Lemma validate_step_eq (acc : state * bool) (i : nat) :
  validate_step acc i
  = (fst (validateField i (fst acc)), valid_at (fst acc) i && snd acc).
Proof.
  unfold validate_step. rewrite <- validateField_result.
  destruct (validateField i (fst acc)) as [st1 [|]]; reflexivity.
Qed.

Lemma fold_validate (st0 : state) (l : list nat) :
  ∀ acc : state * bool,
    same_static (fst acc) st0 →
    same_static (fst (fold_left validate_step l acc)) st0 ∧
    same_frame (fst (fold_left validate_step l acc)) (fst acc) ∧
    snd (fold_left validate_step l acc) = forallb (valid_at st0) l && snd acc.
Proof.
  induction l as [| i l IH]; intros acc Hacc; cbn [fold_left forallb].
  - repeat split. exact Hacc.
  - assert (Hnext : same_static (fst (validate_step acc i)) st0).
    { rewrite validate_step_eq. cbn [fst].
      unfold same_static in *. rewrite <- Hacc.
      apply validateField_same_static. }
    destruct (IH _ Hnext) as (Hst & Hfr & Hres).
    split; [exact Hst |]. split.
    + pose proof (validateField_frame i (fst acc)) as Hone.
      assert (Hfst : fst (validate_step acc i) = fst (validateField i (fst acc)))
        by now rewrite validate_step_eq.
      rewrite <- Hfst in Hone.
      unfold same_frame in *. intuition congruence.
    + rewrite Hres, validate_step_eq. cbn [snd].
      rewrite (valid_at_static _ _ i Hacc).
      destruct (valid_at st0 i), (forallb (valid_at st0) l), (snd acc);
        reflexivity.
Qed.








End ValidateForm.

Section HandleSubmit.
Import FormValidator.













Lemma validateForm_facts (st : state) :
  same_static (fst (validateForm st)) st ∧
  same_frame (fst (validateForm st)) st ∧
  snd (validateForm st) = forallb (valid_at st) (requiredInputs st).
Proof.
  rewrite validateForm_fold.
  destruct (fold_validate st (requiredInputs st) (st, true))
    as (Hst & Hfr & Hres); [reflexivity |].
  rewrite Hres, andb_true_r. auto.
Qed.

Lemma onSubmit_eq (st : state) :
  onSubmit st
  = if snd (validateForm st) then handleSubmit (fst (validateForm st))
    else fst (validateForm st).
Proof. unfold onSubmit. destruct (validateForm st) as [st1 [|]]; reflexivity. Qed.

Lemma clearError_frame (i : nat) (st : state) : same_frame (clearError i st) st.
Proof.
  unfold clearError, same_frame. destruct (inputs st !! i); repeat split.
Qed.

Lemma onInput_frame (i : nat) (v : list N) (st : state) :
  same_frame (onInput i v st) st.
Proof.
  unfold onInput. destruct (inputs st !! i) as [x |]; [| repeat split].
  match goal with
  | |- same_frame (clearError i ?st') _ =>
      pose proof (clearError_frame i st') as H
  end.
  unfold same_frame in *. cbn in *. exact H.
Qed.



End HandleSubmit.





(** ** Scroll-reveal observer *)

Section Observer.
Import Page.

Lemma onEntry_observed (e : env) (p : t) (en : entry) (j : nat) :
  observedBy j (onEntry e p en)
  ↔ observedBy j p ∧ (isIntersecting en && Nat.eqb (target en) j) = false.
Proof.
  unfold onEntry, observedBy.
  destruct (isIntersecting en); cbn [andb]; [| tauto].
  cbv zeta.
  assert (Hobs : ∀ q, scrollObserver (unobserve (target en) q)
                     = match scrollObserver q with
                       | Some o => Some {| opts := opts o;
                                           observed := observed o ∖ {[target en]} |}
                       | None => None
                       end) by reflexivity.
  rewrite Hobs.
  assert (Hsame : scrollObserver
                    (if hasClass "exhibition-benefits" (target en)
                          (addClass "animate-in" (target en) p)
                        && bool_decide
                             (is_Some (benefitsSlider
                                         (addClass "animate-in" (target en) p)))
                     then initBenefits e (addClass "animate-in" (target en) p)
                     else addClass "animate-in" (target en) p)
                  = scrollObserver p).
  { destruct (_ && _); reflexivity. }
  rewrite Hsame. destruct (scrollObserver p) as [o |]; [| tauto]. cbn.
  rewrite elem_of_difference, elem_of_singleton.
  destruct (Nat.eqb_spec (target en) j); split; intros [? ?];
    try split; try congruence; try assumption.
Qed.

Lemma callback_observed (e : env) (entries : list entry) (j : nat) :
  ∀ p : t,
    observedBy j (callback e p entries)
    ↔ observedBy j p ∧ reveals j entries = false.
Proof.
  unfold callback, reveals.
  induction entries as [| en entries IH]; intros p; cbn [fold_left existsb].
  - tauto.
  - rewrite IH, onEntry_observed, orb_false_iff. tauto.
Qed.

Lemma onEntry_elements (e : env) (p : t) (en : entry) :
  elements (onEntry e p en)
  = if isIntersecting en
    then alter (fun classList => {["animate-in"]} ∪ classList) (target en)
               (elements p)
    else elements p.
Proof.
  unfold onEntry. destruct (isIntersecting en); [| reflexivity].
  cbv zeta. cbn [unobserve elements].
  destruct (_ && _); reflexivity.
Qed.

Lemma onEntry_length (e : env) (p : t) (en : entry) :
  length (elements (onEntry e p en)) = length (elements p).
Proof.
  rewrite onEntry_elements. destruct (isIntersecting en); [| reflexivity].
  apply length_alter.
Qed.

Lemma callback_length (e : env) (entries : list entry) :
  ∀ p : t, length (elements (callback e p entries)) = length (elements p).
Proof.
  unfold callback. induction entries as [| en entries IH]; intros p;
    cbn [fold_left]; [reflexivity |].
  rewrite IH. apply onEntry_length.
Qed.

(** Class lists only grow, and only by the reveal class. *)
Lemma onEntry_hasClass (e : env) (p : t) (en : entry) (c : string) (j : nat) :
  hasClass c j (onEntry e p en)
  = hasClass c j p
    || (isIntersecting en && Nat.eqb (target en) j && String.eqb c "animate-in"
        && bool_decide (j < length (elements p))%nat).
Proof.
  unfold hasClass. rewrite onEntry_elements.
  destruct (isIntersecting en); cbn [andb]; [| now rewrite orb_false_r].
  rewrite list_lookup_alter.
  destruct (Nat.eqb_spec (target en) j) as [-> | Hne].
  - rewrite decide_True by reflexivity.
    destruct (elements p !! j) as [classList |] eqn:Hj; cbn.
    + rewrite (bool_decide_eq_true_2 (j < length (elements p))%nat)
        by (eapply lookup_lt_Some; eassumption).
      rewrite andb_true_r. unfold contains.
      destruct (String.eqb_spec c "animate-in") as [-> | Hc].
      * rewrite orb_true_r. apply bool_decide_eq_true.
        apply elem_of_union. left. now apply elem_of_singleton.
      * rewrite orb_false_r. apply bool_decide_ext.
        rewrite elem_of_union, elem_of_singleton. intuition congruence.
    + rewrite (bool_decide_eq_false_2 (j < length (elements p))%nat)
        by (apply lookup_ge_None in Hj; lia).
      now rewrite andb_false_r.
  - rewrite decide_False by assumption. cbn. now rewrite orb_false_r.
Qed.

Lemma callback_hasClass_other (e : env) (entries : list entry) (c : string)
    (j : nat) :
  c ≠ "animate-in" →
  ∀ p : t, hasClass c j (callback e p entries) = hasClass c j p.
Proof.
  intros Hc. unfold callback.
  induction entries as [| en entries IH]; intros p; cbn [fold_left];
    [reflexivity |].
  rewrite IH, onEntry_hasClass.
  destruct (String.eqb_spec c "animate-in"); [contradiction |].
  now rewrite andb_false_r, andb_false_l, orb_false_r.
Qed.

Lemma callback_hasClass_kept (e : env) (entries : list entry) (c : string)
    (j : nat) :
  ∀ p : t, hasClass c j p = true → hasClass c j (callback e p entries) = true.
Proof.
  unfold callback.
  induction entries as [| en entries IH]; intros p Hp; cbn [fold_left];
    [exact Hp |].
  apply IH. rewrite onEntry_hasClass, Hp. reflexivity.
Qed.

Lemma callback_reveals (e : env) (entries : list entry) (j : nat) :
  ∀ p : t,
    (j < length (elements p))%nat →
    reveals j entries = true →
    hasClass "animate-in" j (callback e p entries) = true.
Proof.
  unfold callback, reveals.
  induction entries as [| en entries IH]; intros p Hj Hrev;
    cbn [fold_left existsb] in *; [discriminate |].
  destruct (isIntersecting en && Nat.eqb (target en) j) eqn:Hen.
  - apply (callback_hasClass_kept e entries).
    rewrite onEntry_hasClass. apply andb_true_iff in Hen as [-> ->].
    rewrite (bool_decide_eq_true_2 _ Hj). cbn. apply orb_true_r.
  - apply IH; [now rewrite onEntry_length | exact Hrev].
Qed.

Lemma callback_unrevealed (e : env) (entries : list entry) (j : nat) :
  ∀ p : t,
    reveals j entries = false →
    elements (callback e p entries) !! j = elements p !! j.
Proof.
  unfold callback, reveals.
  induction entries as [| en entries IH]; intros p Hrev;
    cbn [fold_left existsb] in *; [reflexivity |].
  apply orb_false_iff in Hrev as [Hen Hrest].
  rewrite (IH _ Hrest), onEntry_elements.
  destruct (isIntersecting en); [| reflexivity].
  cbn in Hen. apply Nat.eqb_neq in Hen.
  now apply list_lookup_alter_ne.
Qed.

Lemma deliverable_reveals (p : t) (entries : list entry) (j : nat) :
  deliverable p entries → reveals j entries = true → observedBy j p.
Proof.
  unfold deliverable, reveals, observedBy. intros Hdel Hrev.
  apply existsb_exists in Hrev as (en & Hin & Hen).
  apply andb_true_iff in Hen as [_ Htarget]. apply Nat.eqb_eq in Htarget.
  destruct (scrollObserver p) as [o |].
  - rewrite Forall_forall in Hdel. subst j.
    apply Hdel. now apply list_elem_of_In.
  - subst entries. destruct Hin.
Qed.

End Observer.

Section ObserverRuns.
Import Page.

Lemma benefits_init_idem (e : env) (s : ExhibitionBenefitsSlider.t) :
  ExhibitionBenefitsSlider.init e (ExhibitionBenefitsSlider.init e s)
  = ExhibitionBenefitsSlider.init e s.
Proof.
  destruct (ExhibitionBenefitsSlider._activated s) eqn:Ha.
  { assert (ExhibitionBenefitsSlider.init e s = s) as ->
      by (unfold ExhibitionBenefitsSlider.init; now rewrite Ha).
    unfold ExhibitionBenefitsSlider.init. now rewrite Ha. }
  destruct (negb (ExhibitionBenefitsSlider.track s)
            || Nat.eqb (ExhibitionBenefitsSlider.cards s) 0) eqn:Hg.
  { assert (ExhibitionBenefitsSlider.init e s = s) as ->
      by (unfold ExhibitionBenefitsSlider.init; now rewrite Ha, Hg).
    unfold ExhibitionBenefitsSlider.init. now rewrite Ha, Hg. }
  assert (Hinit : ExhibitionBenefitsSlider.init e s
                  = ExhibitionBenefitsSlider.updateSlider e
                      (ExhibitionBenefitsSlider.set_activated true s))
    by (unfold ExhibitionBenefitsSlider.init; now rewrite Ha, Hg).
  rewrite Hinit. unfold ExhibitionBenefitsSlider.init.
  rewrite benefits_update_activated. reflexivity.
Qed.

Lemma onEntry_slider (e : env) (p : t) (en : entry) :
  benefitsSlider (onEntry e p en)
  = if isIntersecting en && hasClass "exhibition-benefits" (target en) p
    then ExhibitionBenefitsSlider.init e <$> benefitsSlider p
    else benefitsSlider p.
Proof.
  unfold onEntry. destruct (isIntersecting en); [| reflexivity].
  cbv zeta. cbn [andb unobserve benefitsSlider].
  assert (Hclass : hasClass "exhibition-benefits" (target en)
                     (addClass "animate-in" (target en) p)
                   = hasClass "exhibition-benefits" (target en) p).
  { unfold hasClass, addClass. cbn [elements].
    rewrite list_lookup_alter_eq.
    destruct (elements p !! target en) as [classList |]; [| reflexivity].
    cbn. unfold contains. apply bool_decide_ext.
    rewrite elem_of_union, elem_of_singleton.
    split; [intros [H | H]; [discriminate | exact H] | tauto]. }
  rewrite Hclass.
  change (benefitsSlider (addClass "animate-in" (target en) p))
    with (benefitsSlider p).
  destruct (hasClass "exhibition-benefits" (target en) p); cbn [andb];
    [| reflexivity].
  destruct (benefitsSlider p) as [s |] eqn:Hs.
  - rewrite bool_decide_eq_true_2 by eauto.
    cbn [initBenefits benefitsSlider addClass]. now rewrite Hs.
  - rewrite bool_decide_eq_false_2 by (intros [? ?]; discriminate).
    exact Hs.
Qed.

Lemma callback_slider (e : env) (p0 : t) (entries : list entry) :
  ∀ p : t,
    (∀ j, hasClass "exhibition-benefits" j p
          = hasClass "exhibition-benefits" j p0) →
    benefitsSlider (callback e p entries)
    = if existsb (fun en => isIntersecting en
                            && hasClass "exhibition-benefits" (target en) p0)
                 entries
      then ExhibitionBenefitsSlider.init e <$> benefitsSlider p
      else benefitsSlider p.
Proof.
  unfold callback.
  induction entries as [| en entries IH]; intros p Hp; cbn [fold_left existsb];
    [reflexivity |].
  rewrite IH.
  - rewrite onEntry_slider, Hp.
    destruct (isIntersecting en && hasClass "exhibition-benefits" (target en) p0);
      cbn [orb]; [| reflexivity].
    destruct (existsb _ entries); [| reflexivity].
    destruct (benefitsSlider p) as [s |]; [| reflexivity].
    cbn. now rewrite benefits_init_idem.
  - intros j. rewrite <- Hp.
    exact (callback_hasClass_other e [en] "exhibition-benefits" j
             ltac:(discriminate) p).
Qed.

Lemma run_app (p : t) (l1 l2 : list (env * list entry)) :
  run p (l1 ++ l2) = run (run p l1) l2.
Proof. unfold run. apply fold_left_app. Qed.

Lemma deliveries_app (l1 l2 : list (env * list entry)) :
  ∀ p : t,
    deliveries p (l1 ++ l2) ↔ deliveries p l1 ∧ deliveries (run p l1) l2.
Proof.
  induction l1 as [| [e entries] l1 IH]; intros p; cbn [app deliveries].
  - cbn. tauto.
  - rewrite IH. cbn. tauto.
Qed.

Lemma run_length (l : list (env * list entry)) :
  ∀ p : t, length (elements (run p l)) = length (elements p).
Proof.
  unfold run. induction l as [| [e entries] l IH]; intros p; cbn [fold_left];
    [reflexivity |].
  rewrite IH. apply callback_length.
Qed.

Lemma run_hasClass_kept (c : string) (j : nat) (l : list (env * list entry)) :
  ∀ p : t, hasClass c j p = true → hasClass c j (run p l) = true.
Proof.
  unfold run. induction l as [| [e entries] l IH]; intros p Hp; cbn [fold_left];
    [exact Hp |].
  apply IH. now apply callback_hasClass_kept.
Qed.

Lemma run_observed (j : nat) (l : list (env * list entry)) :
  ∀ p : t, observedBy j (run p l) → observedBy j p.
Proof.
  unfold run. induction l as [| [e entries] l IH]; intros p Hobs;
    cbn [fold_left] in *; [exact Hobs |].
  apply IH in Hobs. now apply callback_observed in Hobs.
Qed.

(** Once an element has left the observer, no deliverable batch reveals
    it; and an observed element is revealed by one batch at most. *)
Lemma reveals_at_most_once (j : nat) (l : list (env * list entry)) :
  ∀ p : t,
    deliveries p l →
    (¬ observedBy j p →
     List.filter (fun b => reveals j (snd b)) l = []) ∧
    (length (List.filter (fun b => reveals j (snd b)) l) <= 1)%nat.
Proof.
  induction l as [| [e entries] l IH]; intros p Hdel; cbn [deliveries] in Hdel.
  - split; [reflexivity | cbn; lia].
  - destruct Hdel as [Hnow Hlater].
    destruct (IH _ Hlater) as [IHgone IHonce].
    cbn [List.filter snd].
    destruct (reveals j entries) eqn:Hrev.
    + split.
      * intros Hnot. exfalso. apply Hnot.
        now apply (deliverable_reveals p entries).
      * rewrite IHgone; [cbn; lia |].
        rewrite callback_observed. intros [_ Hfalse]. congruence.
    + split; [| exact IHonce].
      intros Hnot. apply IHgone. rewrite callback_observed. tauto.
Qed.

Lemma load_observer (e : env) (doc : list (gset string))
    (bc : option ExhibitionBenefitsSlider.markup) :
  reducedMotion e = false →
  scrollObserver (load e doc bc)
  = Some {| opts := observerOptions;
            observed := list_to_set (trackedSections doc) |} ∧
  elements (load e doc bc) = doc.
Proof.
  intros Hmotion. unfold load, initScrollAnimations. rewrite Hmotion.
  split; reflexivity.
Qed.

Lemma trackedSections_lt (doc : list (gset string)) (j : nat) :
  j ∈ trackedSections doc → (j < length doc)%nat.
Proof.
  unfold trackedSections. rewrite list_elem_of_omap.
  intros ([k cl] & Hin & Hsome).
  apply elem_of_lookup_imap in Hin as (k' & cl' & Heq & Hlook).
  injection Heq as -> ->. cbn [fst snd] in Hsome.
  destruct (tracked cl'); [| discriminate].
  assert (k' = j) as -> by congruence.
  eapply lookup_lt_Some. eassumption.
Qed.

End ObserverRuns.

Lemma filter_nil_Forall {A : Type} (f : A → bool) (l : list A) :
  List.filter f l = [] → Forall (fun a => f a = false) l.
Proof.
  induction l as [| a l IH]; cbn; [constructor |].
  destruct (f a) eqn:Ha; [discriminate |]. intros H. constructor; auto.
Qed.

(** C6. Without the reduced-motion preference an observer is installed
    with threshold 0.1 and root margin "0px 0px -50px 0px" on the tracked
    sections.  For every section, at most one callback run reveals it: the
    run that carries the first intersecting entry for it adds the reveal
    class and unobserves the section (and, when the section carries the
    class of the benefits section and the deferred slider exists, calls
    the slider's [init()] in that same run); the class then stays, the
    section is not observed again, and no other run touches it. *)
Theorem reveal_is_one_shot (e : env) (doc : list (gset string))
    (bc : option ExhibitionBenefitsSlider.markup)
    (batches : list (env * list Page.entry)) (i : nat)
    (Hmotion : reducedMotion e = false)
    (Hdeliver : Page.deliveries (Page.load e doc bc) batches) :
  let p0 := Page.load e doc bc in
  Page.scrollObserver p0
  = Some {| Page.opts := {| Page.threshold := (1 # 10)%Q;
                            Page.rootMargin := "0px 0px -50px 0px" |};
            Page.observed := list_to_set (Page.trackedSections doc) |} ∧
  (length (List.filter (fun b => Page.reveals i (snd b)) batches) <= 1)%nat ∧
  (∀ pre e1 entries post,
     batches = pre ++ (e1, entries) :: post →
     let q := Page.run p0 pre in
     let q' := Page.callback e1 q entries in
     (Page.reveals i entries = false →
      Page.elements q' !! i = Page.elements q !! i ∧
      (observedBy i q' ↔ observedBy i q)) ∧
     (Page.reveals i entries = true →
      observedBy i q ∧ i ∈ Page.trackedSections doc ∧
      Page.hasClass "animate-in" i q' = true ∧
      ¬ observedBy i q' ∧
      (Page.hasClass "exhibition-benefits" i q = true →
       Page.benefitsSlider q'
       = ExhibitionBenefitsSlider.init e1 <$> Page.benefitsSlider q) ∧
      Page.hasClass "animate-in" i (Page.run p0 batches) = true ∧
      ¬ observedBy i (Page.run p0 batches) ∧
      Forall (fun b => Page.reveals i (snd b) = false) (pre ++ post))).
Proof.
  cbv zeta.
  destruct (load_observer e doc bc Hmotion) as [Hobserver Hdoc].
  split; [exact Hobserver |].
  pose proof (reveals_at_most_once i batches _ Hdeliver) as [_ Honce].
  split; [exact Honce |].
  intros pre e1 entries post ->.
  apply deliveries_app in Hdeliver as [Hpre Hrest].
  cbn [Page.deliveries] in Hrest. destruct Hrest as [Hnow Hpost].
  set (q := Page.run (Page.load e doc bc) pre) in *.
  split.
  - intros Hrev. split; [now apply callback_unrevealed |].
    rewrite callback_observed. tauto.
  - intros Hrev.
    assert (Hobs : observedBy i q) by now apply (deliverable_reveals q entries).
    assert (Htracked : i ∈ Page.trackedSections doc).
    { apply run_observed in Hobs. unfold observedBy in Hobs.
      rewrite Hobserver in Hobs. now apply elem_of_list_to_set in Hobs. }
    assert (Hlt : (i < length (Page.elements q))%nat).
    { unfold q. rewrite run_length, Hdoc. now apply trackedSections_lt. }
    assert (Hclass : Page.hasClass "animate-in" i (Page.callback e1 q entries)
                     = true) by now apply callback_reveals.
    assert (Hgone : ¬ observedBy i (Page.callback e1 q entries)).
    { rewrite callback_observed. intros [_ Hfalse]. congruence. }
    assert (Hrun : Page.run (Page.load e doc bc) (pre ++ (e1, entries) :: post)
                   = Page.run (Page.callback e1 q entries) post).
    { rewrite run_app. reflexivity. }
    repeat split; try assumption.
    + intros Hbenefits. rewrite (callback_slider e1 q entries q) by reflexivity.
      assert (Hex : existsb
                      (fun en => Page.isIntersecting en
                                 && Page.hasClass "exhibition-benefits"
                                      (Page.target en) q) entries = true).
      { unfold Page.reveals in Hrev.
        apply existsb_exists in Hrev as (en & Hin & Hen).
        apply andb_true_iff in Hen as [Hint Htarget].
        apply Nat.eqb_eq in Htarget. subst i.
        apply existsb_exists. exists en. split; [exact Hin |].
        now rewrite Hint, Hbenefits. }
      now rewrite Hex.
    + rewrite Hrun. now apply run_hasClass_kept.
    + rewrite Hrun. intros Hlater. apply Hgone. now apply run_observed in Hlater.
    + rewrite List.filter_app in Honce. cbn [List.filter snd] in Honce.
      rewrite Hrev, length_app in Honce. cbn [length] in Honce.
      apply Forall_app. split; apply filter_nil_Forall.
      * destruct (List.filter _ pre); [reflexivity | cbn in Honce; lia].
      * destruct (List.filter _ post); [reflexivity | cbn in Honce; lia].
Qed.

Lemma deliverable_observed (p : Page.t) (entries : list Page.entry) :
  Forall (fun en => observedBy (Page.target en) p) entries →
  Page.deliverable p entries.
Proof.
  unfold Page.deliverable, observedBy.
  destruct (Page.scrollObserver p); [tauto |].
  destruct 1; [reflexivity | contradiction].
Qed.

Lemma sample_observed (i : nat) :
  i = 1%nat ∨ i = 2%nat →
  observedBy i (Page.load desktop sample_doc (Some eight_benefits)).
Proof.
  unfold observedBy.
  destruct (load_observer desktop sample_doc (Some eight_benefits) eq_refl)
    as [-> _].
  cbn [Page.observed].
  intros Hi. apply elem_of_list_to_set.
  assert (Page.trackedSections sample_doc = [1; 2]%nat) as ->
    by (vm_compute; reflexivity).
  destruct Hi as [-> | ->]; repeat constructor.
Qed.

Lemma sample_batches_deliverable :
  Page.deliveries (Page.load desktop sample_doc (Some eight_benefits))
    sample_batches.
Proof.
  cbn [Page.deliveries sample_batches]. repeat split.
  - apply deliverable_observed.
    constructor; [| constructor; [| constructor]]; cbn [Page.target];
      apply sample_observed; auto.
  - apply deliverable_observed. constructor; [| constructor].
    cbn [Page.target]. apply callback_observed.
    split; [apply sample_observed; auto | reflexivity].
Qed.

Lemma reveal_is_one_shot_witness :
  let p := Page.run (Page.load desktop sample_doc (Some eight_benefits))
             sample_batches in
  Page.hasClass "animate-in" 2 p = true ∧ ¬ observedBy 2 p ∧
  (length (List.filter (fun b => Page.reveals 2 (snd b)) sample_batches) <= 1)%nat.
Proof.
  cbv zeta.
  destruct (reveal_is_one_shot desktop sample_doc (Some eight_benefits)
              sample_batches 2 eq_refl sample_batches_deliverable)
    as (_ & Honce & Hsplit).
  destruct (Hsplit []
              desktop
              [{| Page.target := 1; Page.isIntersecting := false |};
               {| Page.target := 2; Page.isIntersecting := true |}]
              [(desktop, [{| Page.target := 1; Page.isIntersecting := true |}])]
              eq_refl) as [_ Hrevealed].
  destruct (Hrevealed eq_refl) as (_ & _ & _ & _ & _ & Hclass & Hgone & _).
  split; [exact Hclass |]. split; [exact Hgone | exact Honce].
Defined.

(** ** Reduced motion: the observer is never installed *)

Lemma step_idle (p : Page.t) (c : env * Page.event) :
  Page.scrollObserver p = None →
  (∀ s, Page.benefitsSlider p = Some s →
        ExhibitionBenefitsSlider._activated s = false) →
  Page.step p c = p.
Proof.
  intros Hnone Hidle. destruct p as [els obs slider]. cbn in *. subst obs.
  unfold Page.step. destruct (snd c) as [entries | ev]; cbn; [reflexivity |].
  destruct slider as [s |]; [| reflexivity].
  unfold ExhibitionBenefitsSlider.dispatch.
  now rewrite (Hidle s eq_refl).
Qed.

(** C9. If the user prefers reduced motion when the page starts, the
    observer is never installed: whatever happens afterwards (intersection
    changes, events on the benefits slider, a later change of the
    preference), no element receives the reveal class and the deferred
    benefits slider is never initialised; it stays as its constructor
    left it, inactive. *)
Theorem reduced_motion_never_reveals (e : env) (doc : list (gset string))
    (bc : option ExhibitionBenefitsSlider.markup)
    (evs : list (env * Page.event))
    (Hmotion : reducedMotion e = true) :
  let p := Page.steps (Page.load e doc bc) evs in
  Page.scrollObserver p = None ∧
  Page.elements p = doc ∧
  Page.benefitsSlider p = ExhibitionBenefitsSlider.construct e <$> bc ∧
  (∀ s, Page.benefitsSlider p = Some s →
        ExhibitionBenefitsSlider._activated s = false).
Proof.
  cbv zeta.
  assert (Hload : Page.scrollObserver (Page.load e doc bc) = None ∧
                  Page.elements (Page.load e doc bc) = doc ∧
                  Page.benefitsSlider (Page.load e doc bc)
                  = ExhibitionBenefitsSlider.construct e <$> bc).
  { unfold Page.load, Page.initScrollAnimations. rewrite Hmotion.
    destruct bc; repeat split. }
  assert (Hidle : ∀ s, Page.benefitsSlider (Page.load e doc bc) = Some s →
                       ExhibitionBenefitsSlider._activated s = false).
  { intros s Hs. destruct Hload as (_ & _ & Hslider). rewrite Hslider in Hs.
    destruct bc as [m |]; [| discriminate]. injection Hs as <-. reflexivity. }
  assert (Hsteps : Page.steps (Page.load e doc bc) evs = Page.load e doc bc).
  { unfold Page.steps. induction evs as [| c evs IH]; [reflexivity |].
    cbn [fold_left]. rewrite step_idle; [exact IH | apply Hload | exact Hidle]. }
  rewrite Hsteps. destruct Hload as (H1 & H2 & H3). auto.
Qed.

Lemma reduced_motion_never_reveals_witness :
  let p := Page.steps (Page.load calm sample_doc (Some eight_benefits))
             [(calm, Page.Intersections
                       [{| Page.target := 2; Page.isIntersecting := true |}]);
              (desktop, Page.Benefits ExhibitionBenefitsSlider.ClickNext);
              (desktop, Page.Intersections
                          [{| Page.target := 2; Page.isIntersecting := true |}])] in
  Page.scrollObserver p = None ∧
  Page.elements p = sample_doc ∧
  Page.benefitsSlider p
  = Some (ExhibitionBenefitsSlider.construct calm eight_benefits).
Proof.
  cbv zeta.
  destruct (reduced_motion_never_reveals calm sample_doc (Some eight_benefits)
              [(calm, Page.Intersections
                        [{| Page.target := 2; Page.isIntersecting := true |}]);
               (desktop, Page.Benefits ExhibitionBenefitsSlider.ClickNext);
               (desktop, Page.Intersections
                           [{| Page.target := 2; Page.isIntersecting := true |}])]
              eq_refl) as (Hobserver & Hdoc & Hslider & _).
  split; [exact Hobserver |]. split; [exact Hdoc | exact Hslider].
Defined.

(** * Further properties *)

(** ** School-choice slider: what its listeners keep *)

Section SchoolRendering.
Import ChooseSchoolSlider.

Lemma school_update_controls (e : env) (s : t) :
  prevBtn (updateSlider e s)
  = match prevBtn s with
    | Some _ => Some {| disabled := currentIndex s =? 0;
                        aria_disabled := currentIndex s =? 0 |}
    | None => None
    end ∧
  nextBtn (updateSlider e s)
  = match nextBtn s with
    | Some _ => Some {| disabled := currentIndex s =? maxIndex s;
                        aria_disabled := currentIndex s =? maxIndex s |}
    | None => None
    end ∧
  dots (updateSlider e s)
  = imap (fun index _ =>
            {| dot_active := Z.of_nat index =? currentIndex s;
               aria_selected := Z.of_nat index =? currentIndex s |}) (dots s).
Proof.
  destruct s as [n [p |] [q |] ds idx cpv mx tr tn];
    unfold updateSlider; cbn; destruct (reducedMotion e); cbn;
    (split; [| split]); reflexivity.
Qed.

Lemma school_update_rendered (e : env) (s : t) :
  school_rendered (updateSlider e s).
Proof.
  destruct (school_update_controls e s) as (Hprev & Hnext & Hdots).
  unfold school_rendered.
  rewrite Hprev, Hnext, Hdots, school_update_currentIndex, school_update_maxIndex.
  split; [| split].
  - intros b Hb. destruct (prevBtn s); [| discriminate].
    injection Hb as <-. split; reflexivity.
  - intros b Hb. destruct (nextBtn s); [| discriminate].
    injection Hb as <-. split; reflexivity.
  - intros i d. rewrite list_lookup_imap.
    destruct (dots s !! i); [| discriminate].
    cbn. intros [= <-]. split; reflexivity.
Qed.

Lemma school_update_dots (e : env) (s : t) :
  length (dots (updateSlider e s)) = length (dots s).
Proof.
  destruct (school_update_controls e s) as (_ & _ & ->). apply length_imap.
Qed.

Lemma school_perform_rendered (s : t) (c : env * op) :
  school_rendered s → school_rendered (perform s c).
Proof.
  intros Hs. destruct c as [e [| | index |]]; unfold perform; cbn [fst snd].
  - unfold goToNext. destruct (_ <? _); [apply school_update_rendered | exact Hs].
  - unfold goToPrev. destruct (_ <? _); [apply school_update_rendered | exact Hs].
  - apply school_update_rendered.
  - apply school_update_rendered.
Qed.

Lemma school_perform_dots (s : t) (c : env * op) :
  length (dots (perform s c)) = length (dots s).
Proof.
  destruct c as [e [| | index |]]; unfold perform; cbn [fst snd].
  - unfold goToNext.
    destruct (_ <? _); [now rewrite school_update_dots | reflexivity].
  - unfold goToPrev.
    destruct (_ <? _); [now rewrite school_update_dots | reflexivity].
  - unfold goToIndex. now rewrite school_update_dots.
  - unfold onResize. now rewrite school_update_dots.
Qed.

End SchoolRendering.

Section SchoolListeners.
Import SchoolEvents.

(** Each listener does what some call of the slider does, or nothing. *)
Lemma school_dispatch_call (w : t) (c : env * event) :
  dispatch w c = w ∨
  (∃ o, ChooseSchoolSlider.from_dot o ∧
        slider (dispatch w c) = ChooseSchoolSlider.perform (slider w) (fst c, o) ∧
        listening (dispatch w c) = listening w) ∨
  (slider (dispatch w c) = slider w ∧ listening (dispatch w c) = listening w).
Proof.
  destruct c as [e ev]. unfold dispatch. cbn [fst snd].
  destruct (negb (listening w)); [now left |].
  destruct ev as [| | index | x | x | key |].
  - destruct (ChooseSchoolSlider.prevBtn (slider w)); [| now left].
    right. left. exists ChooseSchoolSlider.Prev. repeat split.
  - destruct (ChooseSchoolSlider.nextBtn (slider w)); [| now left].
    right. left. exists ChooseSchoolSlider.Next. repeat split.
  - destruct (Nat.ltb index _); [| now left].
    right. left. exists (ChooseSchoolSlider.GoToIndex (Z.of_nat index)).
    repeat split. cbn. lia.
  - right. right. split; reflexivity.
  - cbn [slider listening]. unfold ChooseSchoolSlider.handleSwipe. cbv zeta.
    destruct (50 <? Z.abs (touchStartX w - x)); [| right; right; now split].
    right. left.
    destruct (0 <? touchStartX w - x);
      [exists ChooseSchoolSlider.Next | exists ChooseSchoolSlider.Prev];
      repeat split.
  - cbn [set_slider slider listening]. unfold onKeyDown.
    destruct (String.eqb key "ArrowLeft").
    { right. left. exists ChooseSchoolSlider.Prev. repeat split. }
    destruct (String.eqb key "ArrowRight").
    { right. left. exists ChooseSchoolSlider.Next. repeat split. }
    right. right. split; reflexivity.
  - right. left. exists ChooseSchoolSlider.Resize. repeat split.
Qed.

Lemma school_dispatch_all_inv (evs : list (env * event)) :
  ∀ (w : t) (width : Z),
    school_sized width (slider w) →
    (listening w = true → school_rendered (slider w)) →
    (∃ width', school_sized width' (slider (dispatch_all w evs))) ∧
    (listening w = true → school_rendered (slider (dispatch_all w evs))) ∧
    length (ChooseSchoolSlider.dots (slider (dispatch_all w evs)))
    = length (ChooseSchoolSlider.dots (slider w)).
Proof.
  induction evs as [| c evs IH]; intros w width Hsized Hrendered.
  { split; [now exists width |]. split; [exact Hrendered | reflexivity]. }
  cbn [dispatch_all fold_left].
  destruct (school_dispatch_call w c)
    as [Hsame | [(o & Hdot & Hslider & Hlisten) | (Hslider & Hlisten)]].
  - rewrite Hsame. now apply (IH w width).
  - destruct (IH (dispatch w c)
                (ChooseSchoolSlider.lastWidth width [(fst c, o)]))
      as (H1 & H2 & H3).
    + rewrite Hslider. now apply school_perform_sized.
    + rewrite Hlisten, Hslider. intros Hl.
      now apply school_perform_rendered, Hrendered.
    + split; [exact H1 |]. split; [now rewrite <- Hlisten |].
      unfold dispatch_all in H3. rewrite H3, Hslider.
      apply school_perform_dots.
  - destruct (IH (dispatch w c) width) as (H1 & H2 & H3).
    + now rewrite Hslider.
    + now rewrite Hlisten, Hslider.
    + split; [exact H1 |]. split; [now rewrite <- Hlisten |].
      unfold dispatch_all in H3. now rewrite H3, Hslider.
Qed.

End SchoolListeners.

(** X1. Whatever reaches the listeners of the school-choice slider
    (buttons, dots, swipes, arrow keys, resize callbacks), the index stays
    within [0, maxIndex]; and once [init()] has attached them the controls
    always show it: the prev button is disabled exactly at index 0, the
    next button exactly at maxIndex, and the active dot is the one at the
    index. *)
Theorem school_listeners_keep_index_and_controls
    (e : env) (m : ChooseSchoolSlider.markup)
    (evs : list (env * SchoolEvents.event)) :
  let s := SchoolEvents.slider
             (SchoolEvents.dispatch_all (SchoolEvents.attach e m) evs) in
  0 <= ChooseSchoolSlider.currentIndex s <= ChooseSchoolSlider.maxIndex s ∧
  length (ChooseSchoolSlider.dots s) = length (ChooseSchoolSlider.m_dots m) ∧
  (ChooseSchoolSlider.initialised m = true → school_rendered s).
Proof.
  cbv zeta.
  destruct (school_dispatch_all_inv evs (SchoolEvents.attach e m) (innerWidth e))
    as ((width' & Hsized) & Hrendered & Hdots).
  - apply school_create_sized.
  - cbn. intros Hinit. unfold ChooseSchoolSlider.create. rewrite Hinit.
    apply school_update_rendered.
  - split; [apply Hsized |]. split; [| exact Hrendered].
    rewrite Hdots. cbn. unfold ChooseSchoolSlider.create.
    destruct (ChooseSchoolSlider.initialised m);
      [apply school_update_dots | reflexivity].
Qed.

Lemma school_listeners_keep_index_and_controls_witness :
  let s := SchoolEvents.slider
             (SchoolEvents.dispatch_all six_schools_listening
                [(desktop, SchoolEvents.ClickDot 2);
                 (desktop, SchoolEvents.KeyDown "ArrowRight");
                 (phone, SchoolEvents.WindowResize);
                 (phone, SchoolEvents.TouchStart 300);
                 (phone, SchoolEvents.TouchEnd 100)]) in
  school_rendered s ∧ ChooseSchoolSlider.currentIndex s = 3.
Proof.
  cbv zeta. split; [| reflexivity].
  apply (school_listeners_keep_index_and_controls desktop six_schools
           [(desktop, SchoolEvents.ClickDot 2);
            (desktop, SchoolEvents.KeyDown "ArrowRight");
            (phone, SchoolEvents.WindowResize);
            (phone, SchoolEvents.TouchStart 300);
            (phone, SchoolEvents.TouchEnd 100)]).
  reflexivity.
Defined.

(** ** Benefits slider: what its listeners keep *)

Section BenefitsRendering.
Import ExhibitionBenefitsSlider.

Lemma benefits_update_controls (e : env) (s : t) :
  prevBtn (updateSlider e s)
  = match prevBtn s with
    | Some _ => Some {| disabled := currentIndex s =? 0;
                        aria_disabled := currentIndex s =? 0 |}
    | None => None
    end ∧
  nextBtn (updateSlider e s)
  = match nextBtn s with
    | Some _ => Some {| disabled := currentIndex s =? maxIndex s;
                        aria_disabled := currentIndex s =? maxIndex s |}
    | None => None
    end.
Proof.
  destruct s as [tk n [p |] [q |] idx cpv mx act tr tn v];
    unfold updateSlider; cbn; destruct (reducedMotion e); cbn;
    split; reflexivity.
Qed.

Lemma benefits_update_rendered (e : env) (s : t) :
  benefits_rendered (updateSlider e s).
Proof.
  destruct (benefits_update_controls e s) as (Hprev & Hnext).
  unfold benefits_rendered.
  rewrite Hprev, Hnext, benefits_update_currentIndex, benefits_update_maxIndex.
  split.
  - intros b Hb. destruct (prevBtn s); [| discriminate].
    injection Hb as <-. split; reflexivity.
  - intros b Hb. destruct (nextBtn s); [| discriminate].
    injection Hb as <-. split; reflexivity.
Qed.

Lemma benefits_next_rendered (e : env) (s : t) :
  benefits_rendered s → benefits_rendered (goToNext e s).
Proof.
  intros Hs. unfold goToNext.
  destruct (_ <? _); [apply benefits_update_rendered | exact Hs].
Qed.

Lemma benefits_prev_rendered (e : env) (s : t) :
  benefits_rendered s → benefits_rendered (goToPrev e s).
Proof.
  intros Hs. unfold goToPrev.
  destruct (_ <? _); [apply benefits_update_rendered | exact Hs].
Qed.

Lemma benefits_swipe_rendered (e : env) (x0 x1 : Z) (s : t) :
  benefits_rendered s → benefits_rendered (handleSwipe e x0 x1 s).
Proof.
  intros Hs. unfold handleSwipe. cbv zeta.
  destruct (50 <? Z.abs (x0 - x1)); [| exact Hs].
  destruct (0 <? x0 - x1);
    [now apply benefits_next_rendered | now apply benefits_prev_rendered].
Qed.

Lemma benefits_pointerUp_rendered (e : env) (s : t) :
  benefits_rendered s → benefits_rendered (onPointerUp e s).
Proof.
  intros Hs. unfold onPointerUp. cbv zeta.
  destruct (negb (isDragging (vars s))); [exact Hs |].
  apply benefits_update_rendered.
Qed.

Lemma benefits_pointerUp_activated (e : env) (s : t) :
  _activated (onPointerUp e s) = _activated s.
Proof.
  unfold onPointerUp. cbv zeta.
  destruct (negb (isDragging (vars s))); [reflexivity |].
  now rewrite benefits_update_activated.
Qed.

Lemma benefits_swipe_activated (e : env) (x0 x1 : Z) (s : t) :
  _activated (handleSwipe e x0 x1 s) = _activated s.
Proof.
  unfold handleSwipe. cbv zeta.
  destruct (50 <? Z.abs (x0 - x1)); [| reflexivity].
  destruct (0 <? x0 - x1);
    [apply benefits_next_static | apply benefits_prev_static].
Qed.

Lemma benefits_dispatch_rendered (s : t) (c : env * event) :
  benefits_rendered s →
  benefits_rendered (dispatch s c) ∧ _activated (dispatch s c) = _activated s.
Proof.
  intros Hs. destruct c as [e ev]. unfold dispatch. cbn [fst snd].
  destruct (negb (_activated s)); [split; [exact Hs | reflexivity] |].
  destruct ev.
  - destruct (prevBtn s); [| split; [exact Hs | reflexivity]].
    split; [now apply benefits_prev_rendered | apply benefits_prev_static].
  - destruct (nextBtn s); [| split; [exact Hs | reflexivity]].
    split; [now apply benefits_next_rendered | apply benefits_next_static].
  - split; [exact Hs | reflexivity].
  - unfold onPointerMove. cbv zeta.
    destruct (negb (isDragging (vars s))); split; try reflexivity; exact Hs.
  - split.
    + apply benefits_pointerUp_rendered. unfold onTouchEnd. cbv zeta.
      apply benefits_swipe_rendered. exact Hs.
    + rewrite benefits_pointerUp_activated. unfold onTouchEnd. cbv zeta.
      now rewrite benefits_swipe_activated.
  - split; [exact Hs | reflexivity].
  - unfold onPointerMove. cbv zeta.
    destruct (negb (isDragging (vars s))); split; try reflexivity; exact Hs.
  - split; [now apply benefits_pointerUp_rendered
           | apply benefits_pointerUp_activated].
  - unfold onWheel.
    destruct (Z.abs deltaX <? Z.abs deltaY); [| split; [exact Hs | reflexivity]].
    destruct (5 <? deltaY).
    { split; [now apply benefits_next_rendered | apply benefits_next_static]. }
    destruct (deltaY <? -5).
    { split; [now apply benefits_prev_rendered | apply benefits_prev_static]. }
    split; [exact Hs | reflexivity].
  - unfold onKeyDown. cbv zeta.
    destruct (String.eqb key "ArrowLeft"), (String.eqb key "ArrowRight").
    + split; [now apply benefits_next_rendered, benefits_prev_rendered |].
      destruct (benefits_next_static e (goToPrev e s)) as (_ & _ & _ & -> & _).
      apply benefits_prev_static.
    + split; [now apply benefits_prev_rendered | apply benefits_prev_static].
    + split; [now apply benefits_next_rendered | apply benefits_next_static].
    + split; [exact Hs | reflexivity].
  - split; [apply benefits_update_rendered | apply benefits_resize_fields].
Qed.

Lemma benefits_dispatch_all_rendered (evs : list (env * event)) :
  ∀ s : t,
    benefits_rendered s →
    benefits_rendered (dispatch_all s evs) ∧
    _activated (dispatch_all s evs) = _activated s.
Proof.
  induction evs as [| c evs IH]; intros s Hs; [split; [exact Hs | reflexivity] |].
  destruct (benefits_dispatch_rendered s c Hs) as [Hr Ha].
  destruct (IH (dispatch s c) Hr) as [Hr' Ha'].
  split; [exact Hr' |]. unfold dispatch_all in *. cbn [fold_left]. congruence.
Qed.

Lemma benefits_dispatch_all_idle (evs : list (env * event)) (s : t) :
  _activated s = false → dispatch_all s evs = s.
Proof.
  intros Hs. induction evs as [| c evs IH]; [reflexivity |].
  unfold dispatch_all in *. cbn [fold_left].
  assert (dispatch s c = s) as -> by (unfold dispatch; now rewrite Hs).
  exact IH.
Qed.

Lemma benefits_init_cases (e : env) (s : t) :
  _activated s = false →
  (init e s = s) ∨
  (_activated (init e s) = true ∧ benefits_rendered (init e s)).
Proof.
  intros Hs. unfold init. rewrite Hs.
  destruct (negb (track s) || Nat.eqb (cards s) 0); [now left |].
  right. split; [now rewrite benefits_update_activated
                | apply benefits_update_rendered].
Qed.

End BenefitsRendering.

(** X2. The benefits slider from its construction on: until [init()] has
    activated it no event changes anything; once it is activated, whatever
    reaches its listeners (buttons, touch and mouse drags, wheel, arrow
    keys, resize callbacks), the index stays within [0, maxIndex] and the
    buttons show it, prev disabled exactly at index 0 and next exactly at
    maxIndex. *)
Theorem benefits_listeners_keep_index_and_controls
    (e e' : env) (m : ExhibitionBenefitsSlider.markup)
    (evs evs' : list (env * ExhibitionBenefitsSlider.event)) :
  let s0 := ExhibitionBenefitsSlider.create e m false in
  let s1 := ExhibitionBenefitsSlider.init e'
              (ExhibitionBenefitsSlider.dispatch_all s0 evs) in
  let s := ExhibitionBenefitsSlider.dispatch_all s1 evs' in
  ExhibitionBenefitsSlider.dispatch_all s0 evs = s0 ∧
  0 <= ExhibitionBenefitsSlider.currentIndex s
    <= ExhibitionBenefitsSlider.maxIndex s ∧
  (ExhibitionBenefitsSlider.m_track m = true →
   ExhibitionBenefitsSlider.m_cards m ≠ O →
   ExhibitionBenefitsSlider._activated s = true ∧ benefits_rendered s) ∧
  (ExhibitionBenefitsSlider.m_track m = false
   ∨ ExhibitionBenefitsSlider.m_cards m = O →
   s = s0).
Proof.
  cbv zeta.
  assert (Hidle : ExhibitionBenefitsSlider.dispatch_all
                    (ExhibitionBenefitsSlider.create e m false) evs
                  = ExhibitionBenefitsSlider.create e m false)
    by now apply benefits_dispatch_all_idle.
  rewrite Hidle. split; [reflexivity |].
  split.
  { apply (benefits_dispatch_all_within evs' (innerWidth e)).
    apply benefits_init_sized, benefits_construct_sized. }
  split.
  - intros Htrack Hcards.
    assert (Hinit : ExhibitionBenefitsSlider.init e'
                      (ExhibitionBenefitsSlider.create e m false)
                    = ExhibitionBenefitsSlider.updateSlider e'
                        (ExhibitionBenefitsSlider.set_activated true
                           (ExhibitionBenefitsSlider.create e m false))).
    { unfold ExhibitionBenefitsSlider.init. cbn.
      rewrite Htrack. destruct (ExhibitionBenefitsSlider.m_cards m);
        [contradiction | reflexivity]. }
    rewrite Hinit.
    destruct (benefits_dispatch_all_rendered evs'
                (ExhibitionBenefitsSlider.updateSlider e'
                   (ExhibitionBenefitsSlider.set_activated true
                      (ExhibitionBenefitsSlider.create e m false)))
                (benefits_update_rendered e' _)) as [Hr Ha].
    split; [| exact Hr].
    rewrite Ha. now rewrite benefits_update_activated.
  - intros Hmissing.
    assert (Hinit : ExhibitionBenefitsSlider.init e'
                      (ExhibitionBenefitsSlider.create e m false)
                    = ExhibitionBenefitsSlider.create e m false).
    { unfold ExhibitionBenefitsSlider.init. cbn.
      destruct Hmissing as [-> | ->]; [reflexivity |].
      now rewrite orb_true_r. }
    rewrite Hinit. now apply benefits_dispatch_all_idle.
Qed.

Lemma benefits_listeners_keep_index_and_controls_witness :
  let s := ExhibitionBenefitsSlider.dispatch_all
             (ExhibitionBenefitsSlider.init phone
                (ExhibitionBenefitsSlider.create desktop eight_benefits false))
             [(phone, ExhibitionBenefitsSlider.WindowResize);
              (phone, ExhibitionBenefitsSlider.Wheel 0 40);
              (phone, ExhibitionBenefitsSlider.MouseDown 500);
              (phone, ExhibitionBenefitsSlider.MouseMove (-600));
              (phone, ExhibitionBenefitsSlider.MouseUp)] in
  ExhibitionBenefitsSlider._activated s = true ∧ benefits_rendered s.
Proof.
  cbv zeta.
  apply (benefits_listeners_keep_index_and_controls desktop phone eight_benefits
           [(desktop, ExhibitionBenefitsSlider.ClickNext)]
           [(phone, ExhibitionBenefitsSlider.WindowResize);
            (phone, ExhibitionBenefitsSlider.Wheel 0 40);
            (phone, ExhibitionBenefitsSlider.MouseDown 500);
            (phone, ExhibitionBenefitsSlider.MouseMove (-600));
            (phone, ExhibitionBenefitsSlider.MouseUp)]).
  - reflexivity.
  - discriminate.
Defined.

(** ** Benefits slider: drags, clicks on the track, single steps *)

Section BenefitsDrag.
Import ExhibitionBenefitsSlider.

(** [round_div a b] is the integer nearest to [a / b], a tie going up. *)
Lemma round_div_nearest (a b : Z) :
  0 < b →
  2 * b * round_div a b - b <= 2 * a < 2 * b * round_div a b + b.
Proof.
  intros Hb. unfold round_div.
  pose proof (Z.mul_div_le (2 * a + b) (2 * b) ltac:(lia)) as Hle.
  pose proof (Z.mul_succ_div_gt (2 * a + b) (2 * b) ltac:(lia)) as Hgt.
  lia.
Qed.

Lemma round_div_zero (b : Z) : 0 < b → round_div (- 0) b = 0.
Proof. intros Hb. unfold round_div. apply Z.div_small. lia. Qed.

Lemma cardWidth_nonneg (e : env) (s : t) : 0 <= offsetWidth e → 0 <= cardWidth e s.
Proof. intros He. unfold cardWidth. destruct (cards s); lia. Qed.

Lemma benefits_pointerUp_index (e : env) (s : t) :
  isDragging (vars s) = true →
  currentIndex (onPointerUp e s)
  = Z.max 0 (Z.min (maxIndex s)
               (round_div (- currentTranslate (vars s)) (cardWidth e s + 24))) ∧
  maxIndex (onPointerUp e s) = maxIndex s ∧
  transform (onPointerUp e s)
  = Some (- (currentIndex (onPointerUp e s) * (cardWidth e s + 24))) ∧
  isDragging (vars (onPointerUp e s)) = false ∧
  currentTranslate (vars (onPointerUp e s)) = currentTranslate (vars s).
Proof.
  intros Hdrag. unfold onPointerUp. cbv zeta. rewrite Hdrag. cbn [negb].
  rewrite benefits_update_currentIndex, benefits_update_maxIndex,
    benefits_update_transform, benefits_update_vars.
  repeat split.
Qed.

Lemma benefits_quiet_vars (s : t) (c : env * event) :
  not_pointer (snd c) → vars (dispatch s c) = vars s.
Proof.
  destruct c as [e ev]. unfold dispatch. cbn [fst snd]. intros Hev.
  destruct (negb (_activated s)); [reflexivity |].
  destruct ev; cbn [not_pointer] in Hev; try contradiction.
  - destruct (prevBtn s); [apply benefits_prev_static | reflexivity].
  - destruct (nextBtn s); [apply benefits_next_static | reflexivity].
  - unfold onWheel. destruct (_ <? _); [| reflexivity].
    destruct (5 <? deltaY); [apply benefits_next_static |].
    destruct (deltaY <? -5); [apply benefits_prev_static | reflexivity].
  - unfold onKeyDown. cbv zeta.
    destruct (String.eqb key "ArrowLeft"), (String.eqb key "ArrowRight");
      try reflexivity.
    + destruct (benefits_next_static e (goToPrev e s)) as (_ & _ & _ & _ & ->).
      apply benefits_prev_static.
    + apply benefits_prev_static.
    + apply benefits_next_static.
  - unfold onResize. now rewrite benefits_update_vars.
Qed.

Lemma benefits_quiet_all_vars (evs : list (env * event)) :
  ∀ s : t,
    Forall (fun c => not_pointer (snd c)) evs →
    vars (dispatch_all s evs) = vars s.
Proof.
  induction evs as [| c evs IH]; intros s Hevs; [reflexivity |].
  inversion Hevs as [| ? ? Hc Hrest]; subst.
  unfold dispatch_all in *. cbn [fold_left].
  rewrite (IH _ Hrest). now apply benefits_quiet_vars.
Qed.

End BenefitsDrag.

(** X3. Releasing a drag on the benefits track settles the slider on the
    slide nearest to the dragged offset (a tie going to the higher slide),
    clamped to [0, maxIndex], renders that slide's offset and ends the
    drag. *)
Theorem drag_release_snaps_to_nearest_slide (e : env)
    (s : ExhibitionBenefitsSlider.t)
    (Hdrag : ExhibitionBenefitsSlider.isDragging
               (ExhibitionBenefitsSlider.vars s) = true)
    (Hwidth : 0 <= offsetWidth e)
    (Hmax : 0 <= ExhibitionBenefitsSlider.maxIndex s) :
  let slideWidth := ExhibitionBenefitsSlider.cardWidth e s + 24 in
  let dragged := - ExhibitionBenefitsSlider.currentTranslate
                     (ExhibitionBenefitsSlider.vars s) in
  let s' := ExhibitionBenefitsSlider.onPointerUp e s in
  ∃ nearest,
    2 * slideWidth * nearest - slideWidth <= 2 * dragged
      < 2 * slideWidth * nearest + slideWidth ∧
    ExhibitionBenefitsSlider.currentIndex s'
    = Z.max 0 (Z.min (ExhibitionBenefitsSlider.maxIndex s) nearest) ∧
    0 <= ExhibitionBenefitsSlider.currentIndex s'
      <= ExhibitionBenefitsSlider.maxIndex s' ∧
    ExhibitionBenefitsSlider.transform s'
    = Some (- (ExhibitionBenefitsSlider.currentIndex s' * slideWidth)) ∧
    ExhibitionBenefitsSlider.isDragging (ExhibitionBenefitsSlider.vars s')
    = false.
Proof.
  cbv zeta.
  destruct (benefits_pointerUp_index e s Hdrag) as (Hidx & Hmx & Htr & Hup & _).
  pose proof (cardWidth_nonneg e s Hwidth) as Hcw.
  exists (ExhibitionBenefitsSlider.round_div
            (- ExhibitionBenefitsSlider.currentTranslate
                 (ExhibitionBenefitsSlider.vars s))
            (ExhibitionBenefitsSlider.cardWidth e s + 24)).
  split; [apply round_div_nearest; lia |].
  split; [exact Hidx |]. split; [rewrite Hidx, Hmx; lia |].
  split; [exact Htr | exact Hup].
Qed.

Lemma drag_release_snaps_to_nearest_slide_witness :
  let s := ExhibitionBenefitsSlider.onPointerMove (-500)
             (ExhibitionBenefitsSlider.onPointerDown 0
                (ExhibitionBenefitsSlider.create desktop eight_benefits true)) in
  ExhibitionBenefitsSlider.currentIndex
    (ExhibitionBenefitsSlider.onPointerUp desktop s) = 2.
Proof.
  cbv zeta.
  destruct (drag_release_snaps_to_nearest_slide desktop
              (ExhibitionBenefitsSlider.onPointerMove (-500)
                 (ExhibitionBenefitsSlider.onPointerDown 0
                    (ExhibitionBenefitsSlider.create desktop eight_benefits true))))
    as (nearest & Hnear & Hidx & _).
  - reflexivity.
  - vm_compute. discriminate.
  - vm_compute. discriminate.
  - rewrite Hidx.
    change (2 * 324 * nearest - 324 <= 2 * 500 < 2 * 324 * nearest + 324)
      in Hnear.
    assert (nearest = 2) as -> by lia. reflexivity.
Defined.

Section BenefitsPress.
Import ExhibitionBenefitsSlider.

Lemma benefits_swipe_static (e : env) (x0 x1 : Z) (s : t) :
  maxIndex (handleSwipe e x0 x1 s) = maxIndex s ∧
  vars (handleSwipe e x0 x1 s) = vars s.
Proof.
  unfold handleSwipe. cbv zeta.
  destruct (50 <? Z.abs (x0 - x1)); [| split; reflexivity].
  destruct (0 <? x0 - x1).
  - destruct (benefits_next_static e s) as (-> & _ & _ & _ & ->). now split.
  - destruct (benefits_prev_static e s) as (-> & _ & _ & _ & ->). now split.
Qed.

(** A release that follows a press with nothing dragged in between. *)
Lemma benefits_release_at_rest (e : env) (s : t) :
  isDragging (vars s) = true →
  currentTranslate (vars s) = 0 →
  0 <= offsetWidth e → 0 <= maxIndex s →
  currentIndex (onPointerUp e s) = 0.
Proof.
  intros Hdrag Hrest Hwidth Hmax.
  destruct (benefits_pointerUp_index e s Hdrag) as (-> & _).
  rewrite Hrest, round_div_zero by (pose proof (cardWidth_nonneg e s Hwidth); lia).
  lia.
Qed.

End BenefitsPress.

Lemma benefits_active_within_range
    (e e' : env) (m : ExhibitionBenefitsSlider.markup)
    (evs : list (env * ExhibitionBenefitsSlider.event)) :
  ExhibitionBenefitsSlider.m_track m = true →
  ExhibitionBenefitsSlider.m_cards m ≠ O →
  let s := ExhibitionBenefitsSlider.dispatch_all
             (ExhibitionBenefitsSlider.init e'
                (ExhibitionBenefitsSlider.create e m false)) evs in
  ExhibitionBenefitsSlider._activated s = true ∧
  0 <= ExhibitionBenefitsSlider.currentIndex s
    <= ExhibitionBenefitsSlider.maxIndex s.
Proof.
  intros Htrack Hcards. cbv zeta. split.
  - assert (Hinit : ExhibitionBenefitsSlider.init e'
                      (ExhibitionBenefitsSlider.create e m false)
                    = ExhibitionBenefitsSlider.updateSlider e'
                        (ExhibitionBenefitsSlider.set_activated true
                           (ExhibitionBenefitsSlider.create e m false))).
    { unfold ExhibitionBenefitsSlider.init. cbn.
      rewrite Htrack. destruct (ExhibitionBenefitsSlider.m_cards m);
        [contradiction | reflexivity]. }
    rewrite Hinit.
    destruct (benefits_dispatch_all_rendered evs
                (ExhibitionBenefitsSlider.updateSlider e'
                   (ExhibitionBenefitsSlider.set_activated true
                      (ExhibitionBenefitsSlider.create e m false)))
                (benefits_update_rendered e' _)) as [_ Ha].
    rewrite Ha. now rewrite benefits_update_activated.
  - apply (benefits_dispatch_all_within evs (innerWidth e)).
    apply benefits_init_sized, benefits_construct_sized.
Qed.

(** X4. The drag offset of the benefits slider is not moved by buttons,
    wheel, keys or resizes, and a release snaps to it: after any such
    events, wherever they left the index, a press and release on the
    track with nothing dragged in between (a mouse click, or a touch that
    starts and ends without a move) puts the index back to 0. *)
Theorem press_without_drag_resets_index
    (e e' e1 e2 : env) (m : ExhibitionBenefitsSlider.markup)
    (evs : list (env * ExhibitionBenefitsSlider.event))
    (x screenX pageX screenX' : Z)
    (Htrack : ExhibitionBenefitsSlider.m_track m = true)
    (Hcards : ExhibitionBenefitsSlider.m_cards m ≠ O)
    (Hquiet : Forall (fun c => not_pointer (snd c)) evs)
    (Hwidth : 0 <= offsetWidth e2) :
  let s := ExhibitionBenefitsSlider.dispatch_all
             (ExhibitionBenefitsSlider.init e'
                (ExhibitionBenefitsSlider.create e m false)) evs in
  ExhibitionBenefitsSlider.currentTranslate (ExhibitionBenefitsSlider.vars s) = 0 ∧
  ExhibitionBenefitsSlider.currentIndex
    (ExhibitionBenefitsSlider.dispatch_all s
       [(e1, ExhibitionBenefitsSlider.MouseDown x);
        (e2, ExhibitionBenefitsSlider.MouseUp)]) = 0 ∧
  ExhibitionBenefitsSlider.currentIndex
    (ExhibitionBenefitsSlider.dispatch_all s
       [(e1, ExhibitionBenefitsSlider.TouchStart screenX pageX);
        (e2, ExhibitionBenefitsSlider.TouchEnd screenX')]) = 0.
Proof.
  cbv zeta.
  set (s := ExhibitionBenefitsSlider.dispatch_all
              (ExhibitionBenefitsSlider.init e'
                 (ExhibitionBenefitsSlider.create e m false)) evs).
  destruct (benefits_active_within_range e e' m evs Htrack Hcards)
    as (Hact & Hrange).
  fold s in Hact, Hrange.
  assert (Hvars : ExhibitionBenefitsSlider.vars s
                  = ExhibitionBenefitsSlider.vars
                      (ExhibitionBenefitsSlider.create e m false)).
  { unfold s. rewrite (benefits_quiet_all_vars evs _ Hquiet).
    unfold ExhibitionBenefitsSlider.init. cbn. rewrite Htrack.
    destruct (ExhibitionBenefitsSlider.m_cards m); [contradiction |].
    cbn. now rewrite benefits_update_vars. }
  assert (Hrest : ExhibitionBenefitsSlider.currentTranslate
                    (ExhibitionBenefitsSlider.vars s) = 0)
    by now rewrite Hvars.
  split; [exact Hrest |].
  unfold ExhibitionBenefitsSlider.dispatch_all. cbn [fold_left].
  unfold ExhibitionBenefitsSlider.dispatch at 2 4. cbn [fst snd].
  rewrite Hact. cbn [negb].
  unfold ExhibitionBenefitsSlider.dispatch. cbn [fst snd].
  change (ExhibitionBenefitsSlider._activated
            (ExhibitionBenefitsSlider.onPointerDown x s))
    with (ExhibitionBenefitsSlider._activated s).
  change (ExhibitionBenefitsSlider._activated
            (ExhibitionBenefitsSlider.onPointerDown pageX
               (ExhibitionBenefitsSlider.onTouchStart screenX s)))
    with (ExhibitionBenefitsSlider._activated s).
  rewrite Hact. cbn [negb]. split.
  - apply benefits_release_at_rest; try assumption; try reflexivity.
    change (0 <= ExhibitionBenefitsSlider.maxIndex s). lia.
  - unfold ExhibitionBenefitsSlider.onTouchEnd. cbv zeta.
    match goal with
    | |- context [ExhibitionBenefitsSlider.handleSwipe ?e0 ?a ?b ?t0] =>
        destruct (benefits_swipe_static e0 a b t0) as [Hmx Hvs]
    end.
    apply benefits_release_at_rest; try assumption.
    + rewrite Hvs. reflexivity.
    + rewrite Hvs. exact Hrest.
    + rewrite Hmx. change (0 <= ExhibitionBenefitsSlider.maxIndex s). lia.
Qed.

Lemma press_without_drag_resets_index_witness :
  let s := ExhibitionBenefitsSlider.dispatch_all
             (ExhibitionBenefitsSlider.init desktop
                (ExhibitionBenefitsSlider.create desktop eight_benefits false))
             [(desktop, ExhibitionBenefitsSlider.ClickNext);
              (desktop, ExhibitionBenefitsSlider.KeyDown "ArrowRight");
              (desktop, ExhibitionBenefitsSlider.Wheel 0 40)] in
  ExhibitionBenefitsSlider.currentIndex s = 3 ∧
  ExhibitionBenefitsSlider.currentIndex
    (ExhibitionBenefitsSlider.dispatch_all s
       [(desktop, ExhibitionBenefitsSlider.MouseDown 640);
        (desktop, ExhibitionBenefitsSlider.MouseUp)]) = 0.
Proof.
  cbv zeta. split; [reflexivity |].
  refine (proj1 (proj2
    (press_without_drag_resets_index desktop desktop desktop desktop
       eight_benefits
       [(desktop, ExhibitionBenefitsSlider.ClickNext);
        (desktop, ExhibitionBenefitsSlider.KeyDown "ArrowRight");
        (desktop, ExhibitionBenefitsSlider.Wheel 0 40)]
       640 0 0 0 _ _ _ _))).
  - reflexivity.
  - discriminate.
  - repeat constructor.
  - vm_compute. discriminate.
Defined.

(** X5. A click on a navigation button, a wheel event or a key press on
    the benefits slider moves the index by at most one position and
    leaves maxIndex alone; a wheel event that is mostly horizontal, or
    whose vertical delta is within 5 either way, and keys other than the
    two arrows leave the whole slider as it is. *)
Theorem benefits_controls_step_by_one (e : env)
    (s : ExhibitionBenefitsSlider.t) (ev : ExhibitionBenefitsSlider.event)
    (Hev : stepping ev) :
  let s' := ExhibitionBenefitsSlider.dispatch s (e, ev) in
  Z.abs (ExhibitionBenefitsSlider.currentIndex s'
         - ExhibitionBenefitsSlider.currentIndex s) <= 1 ∧
  ExhibitionBenefitsSlider.maxIndex s' = ExhibitionBenefitsSlider.maxIndex s ∧
  (∀ deltaX deltaY,
     ev = ExhibitionBenefitsSlider.Wheel deltaX deltaY →
     Z.abs deltaY <= Z.abs deltaX ∨ -5 <= deltaY <= 5 → s' = s) ∧
  (∀ key,
     ev = ExhibitionBenefitsSlider.KeyDown key →
     key ≠ "ArrowLeft" → key ≠ "ArrowRight" → s' = s).
Proof.
  cbv zeta. unfold ExhibitionBenefitsSlider.dispatch. cbn [fst snd].
  destruct (negb (ExhibitionBenefitsSlider._activated s)).
  { rewrite Z.sub_diag. repeat split; try reflexivity. cbn. lia. }
  assert (Hnext : Z.abs (ExhibitionBenefitsSlider.currentIndex
                           (ExhibitionBenefitsSlider.goToNext e s)
                         - ExhibitionBenefitsSlider.currentIndex s) <= 1 ∧
                  ExhibitionBenefitsSlider.maxIndex
                    (ExhibitionBenefitsSlider.goToNext e s)
                  = ExhibitionBenefitsSlider.maxIndex s).
  { rewrite benefits_next_currentIndex.
    split; [destruct (_ <? _); lia | apply benefits_next_static]. }
  assert (Hprev : Z.abs (ExhibitionBenefitsSlider.currentIndex
                           (ExhibitionBenefitsSlider.goToPrev e s)
                         - ExhibitionBenefitsSlider.currentIndex s) <= 1 ∧
                  ExhibitionBenefitsSlider.maxIndex
                    (ExhibitionBenefitsSlider.goToPrev e s)
                  = ExhibitionBenefitsSlider.maxIndex s).
  { rewrite benefits_prev_currentIndex.
    split; [destruct (_ <? _); lia | apply benefits_prev_static]. }
  assert (Hsame : Z.abs (ExhibitionBenefitsSlider.currentIndex s
                         - ExhibitionBenefitsSlider.currentIndex s) <= 1 ∧
                  ExhibitionBenefitsSlider.maxIndex s
                  = ExhibitionBenefitsSlider.maxIndex s)
    by (rewrite Z.sub_diag; split; [cbn; lia | reflexivity]).
  destruct ev; cbn [stepping] in Hev; try contradiction.
  - destruct (ExhibitionBenefitsSlider.prevBtn s);
      (split; [| split; [| split; discriminate]]);
      first [apply Hprev | apply Hsame].
  - destruct (ExhibitionBenefitsSlider.nextBtn s);
      (split; [| split; [| split; discriminate]]);
      first [apply Hnext | apply Hsame].
  - unfold ExhibitionBenefitsSlider.onWheel.
    destruct (Z.ltb_spec (Z.abs deltaX) (Z.abs deltaY)) as [Hvert | Hhoriz].
    + destruct (Z.ltb_spec 5 deltaY) as [Hdown | Hdown].
      * split; [apply Hnext |]. split; [apply Hnext |].
        split; [| discriminate]. intros dx dy [= <- <-] Hsmall. lia.
      * destruct (Z.ltb_spec deltaY (-5)) as [Hup | Hup].
        -- split; [apply Hprev |]. split; [apply Hprev |].
           split; [| discriminate]. intros dx dy [= <- <-] Hsmall. lia.
        -- split; [apply Hsame |]. split; [reflexivity |].
           split; [reflexivity | discriminate].
    + split; [apply Hsame |]. split; [reflexivity |].
      split; [reflexivity | discriminate].
  - unfold ExhibitionBenefitsSlider.onKeyDown. cbv zeta.
    destruct (String.eqb_spec key "ArrowLeft") as [-> | Hleft].
    + cbn [String.eqb Ascii.eqb Bool.eqb].
      split; [apply Hprev |]. split; [apply Hprev |].
      split; [discriminate |]. intros k [= <-] Hk. contradiction.
    + destruct (String.eqb_spec key "ArrowRight") as [-> | Hright].
      * split; [apply Hnext |]. split; [apply Hnext |].
        split; [discriminate |]. intros k [= <-] _ Hk. contradiction.
      * split; [apply Hsame |]. split; [reflexivity |].
        split; [discriminate | reflexivity].
Qed.

Lemma benefits_controls_step_by_one_witness :
  let s := ExhibitionBenefitsSlider.create desktop eight_benefits true in
  ExhibitionBenefitsSlider.dispatch s
    (desktop, ExhibitionBenefitsSlider.Wheel 30 20) = s ∧
  ExhibitionBenefitsSlider.dispatch s
    (desktop, ExhibitionBenefitsSlider.KeyDown "Enter") = s.
Proof.
  cbv zeta.
  destruct (benefits_controls_step_by_one desktop
              (ExhibitionBenefitsSlider.create desktop eight_benefits true)
              (ExhibitionBenefitsSlider.Wheel 30 20) I) as (_ & _ & Hwheel & _).
  destruct (benefits_controls_step_by_one desktop
              (ExhibitionBenefitsSlider.create desktop eight_benefits true)
              (ExhibitionBenefitsSlider.KeyDown "Enter") I) as (_ & _ & _ & Hkey).
  split.
  - apply (Hwheel 30 20 eq_refl). left. lia.
  - apply (Hkey "Enter" eq_refl); discriminate.
Defined.

(** ** Hero slider: the active slide, cycles, autoplay *)

Section HeroRendering.
Import HeroSlider.

Lemma map_seq_lookup {B : Type} (f : nat → B) (n : nat) :
  ∀ j i : nat,
    map f (seq j n) !! i
    = if decide (i < n)%nat then Some (f (j + i)%nat) else None.
Proof.
  induction n as [| n IH]; intros j i; cbn [seq map].
  - destruct (decide (i < 0)%nat); [lia | reflexivity].
  - destruct i as [| i]; cbn.
    + rewrite Nat.add_0_r. destruct (decide (0 < S n)%nat); [reflexivity | lia].
    + rewrite IH. replace (S j + i)%nat with (j + S i)%nat by lia.
      destruct (decide (i < n)%nat), (decide (S i < S n)%nat);
        try reflexivity; lia.
Qed.

Lemma hero_update_active (s : t) :
  slide_active (updateSlider s)
  = map (fun index => Z.of_nat index =? currentSlide s) (seq 0 (slides s)).
Proof. reflexivity. Qed.

Lemma hero_perform_fields (s : t) (o : op) :
  slide_active (perform s o)
  = map (fun index => Z.of_nat index =? currentSlide (perform s o))
        (seq 0 (slides s)) ∧
  slides (perform s o) = slides s ∧
  isPaused (perform s o) = isPaused s.
Proof. destruct o; repeat split. Qed.

End HeroRendering.

(** X6. After every navigation step of the hero slider exactly one slide
    carries the active class, the current one: the list of slides keeps
    its length, slide [i] is active if and only if [i] is the index, and
    the index names one of the slides. *)
Theorem hero_shows_exactly_the_current_slide (s : HeroSlider.t)
    (o : HeroSlider.op)
    (Hslides : (0 < HeroSlider.slides s)%nat)
    (Hwithin : 0 <= HeroSlider.currentSlide s <= HeroSlider.maxIndex s) :
  let s' := HeroSlider.perform s o in
  length (HeroSlider.slide_active s') = HeroSlider.slides s ∧
  (∀ i, HeroSlider.slide_active s' !! i = Some true
        ↔ Z.of_nat i = HeroSlider.currentSlide s') ∧
  0 <= HeroSlider.currentSlide s' < Z.of_nat (HeroSlider.slides s).
Proof.
  cbv zeta.
  destruct (hero_perform_fields s o) as (Hactive & Hn & _).
  destruct (hero_perform_within s o Hslides Hwithin) as [Hin _].
  unfold hero_within, HeroSlider.maxIndex in Hin. rewrite Hn in Hin.
  rewrite Hactive. split; [now rewrite length_map, length_seq |].
  split; [| lia].
  intros i. rewrite map_seq_lookup. cbn [Nat.add].
  destruct (decide (i < HeroSlider.slides s)%nat) as [Hlt | Hge].
  - split.
    + intros [= Heq]. now apply Z.eqb_eq.
    + intros Heq. f_equal. now apply Z.eqb_eq.
  - split; [discriminate | lia].
Qed.

Lemma hero_shows_exactly_the_current_slide_witness :
  HeroSlider.slide_active
    (HeroSlider.perform three_slides HeroSlider.Prev) !! 2%nat = Some true.
Proof.
  apply (hero_shows_exactly_the_current_slide three_slides HeroSlider.Prev).
  - vm_compute. lia.
  - vm_compute. split; discriminate.
  - reflexivity.
Defined.

Section HeroCycles.
Import HeroSlider.

Lemma hero_repeat_next (k : nat) :
  ∀ s : t,
    (0 < slides s)%nat → 0 <= currentSlide s < Z.of_nat (slides s) →
    currentSlide (run s (repeat Next k))
    = (currentSlide s + Z.of_nat k) mod Z.of_nat (slides s).
Proof.
  induction k as [| k IH]; intros s Hn Hc.
  - cbn. rewrite Z.add_0_r. symmetry. apply Z.mod_small. lia.
  - cbn [repeat]. unfold run in *. cbn [fold_left perform].
    rewrite IH.
    + rewrite hero_next_slides, hero_next_currentSlide.
      rewrite Z.rem_mod_nonneg by lia.
      rewrite Zplus_mod_idemp_l. f_equal. lia.
    + now rewrite hero_next_slides.
    + rewrite hero_next_slides, hero_next_currentSlide.
      rewrite Z.rem_mod_nonneg by lia. apply Z.mod_pos_bound. lia.
Qed.

End HeroCycles.

(** X7. On the hero slider [next()] and [prev()] undo each other, also
    across the wrap-around at either end, and as many [next()] steps as
    there are slides lead back to the slide they started from. *)
Theorem hero_next_prev_cancel_and_cycle (s : HeroSlider.t)
    (Hslides : (0 < HeroSlider.slides s)%nat)
    (Hwithin : 0 <= HeroSlider.currentSlide s <= HeroSlider.maxIndex s) :
  HeroSlider.currentSlide (HeroSlider.goToPrevSlide (HeroSlider.goToNextSlide s))
  = HeroSlider.currentSlide s ∧
  HeroSlider.currentSlide (HeroSlider.goToNextSlide (HeroSlider.goToPrevSlide s))
  = HeroSlider.currentSlide s ∧
  HeroSlider.currentSlide
    (HeroSlider.run s (repeat HeroSlider.Next (HeroSlider.slides s)))
  = HeroSlider.currentSlide s.
Proof.
  unfold HeroSlider.maxIndex in Hwithin.
  assert (Hin : 0 <= HeroSlider.currentSlide s < Z.of_nat (HeroSlider.slides s))
    by lia.
  pose proof (hero_next_wraps s Hin) as Hnext.
  pose proof (hero_prev_wraps s Hin) as Hprev.
  split; [| split].
  - rewrite hero_prev_wraps; rewrite hero_next_slides, Hnext;
      destruct (Z.ltb_spec (HeroSlider.currentSlide s + 1)
                  (Z.of_nat (HeroSlider.slides s)));
      try lia.
    + destruct (Z.ltb_spec 0 (HeroSlider.currentSlide s + 1)); lia.
    + cbn. lia.
  - rewrite hero_next_wraps; rewrite hero_prev_slides, Hprev;
      destruct (Z.ltb_spec 0 (HeroSlider.currentSlide s)); try lia.
    + destruct (Z.ltb_spec (HeroSlider.currentSlide s - 1 + 1)
                  (Z.of_nat (HeroSlider.slides s))); lia.
    + destruct (Z.ltb_spec (Z.of_nat (HeroSlider.slides s) - 1 + 1)
                  (Z.of_nat (HeroSlider.slides s))); lia.
  - rewrite hero_repeat_next by assumption.
    replace (HeroSlider.currentSlide s + Z.of_nat (HeroSlider.slides s))
      with (HeroSlider.currentSlide s + 1 * Z.of_nat (HeroSlider.slides s))
      by lia.
    rewrite Z_mod_plus_full. apply Z.mod_small. lia.
Qed.

Lemma hero_next_prev_cancel_and_cycle_witness :
  HeroSlider.currentSlide
    (HeroSlider.goToNextSlide (HeroSlider.goToPrevSlide three_slides)) = 0 ∧
  HeroSlider.currentSlide
    (HeroSlider.run three_slides
       [HeroSlider.Next; HeroSlider.Next; HeroSlider.Next]) = 0.
Proof.
  destruct (hero_next_prev_cancel_and_cycle three_slides) as (_ & Hnp & Hcycle).
  - vm_compute. lia.
  - vm_compute. split; discriminate.
  - split; [exact Hnp | exact Hcycle].
Defined.

Section HeroTimers.
Import HeroAutoplay.

Lemma stopAutoplay_clears (h : t) :
  intervals h
  = match autoplayInterval h with
    | Some id => [id]
    | None => []
    end →
  autoplayInterval (stopAutoplay h) = None ∧
  intervals (stopAutoplay h) = [] ∧
  slider (stopAutoplay h) = slider h ∧
  listening (stopAutoplay h) = listening h.
Proof.
  intros Hint. unfold stopAutoplay.
  destruct (autoplayInterval h) as [id |] eqn:Hid; cbn.
  - rewrite Hint. cbn. rewrite Pos.eqb_refl. repeat split.
  - rewrite Hid. repeat split. exact Hint.
Qed.

Lemma stopAutoplay_tidy (h : t) :
  hero_timers_tidy h →
  autoplayInterval (stopAutoplay h) = None ∧
  intervals (stopAutoplay h) = [] ∧
  slider (stopAutoplay h) = slider h ∧
  listening (stopAutoplay h) = listening h.
Proof. intros [Hint _]. now apply stopAutoplay_clears. Qed.

Lemma startAutoplay_tidy (e : env) (h : t) :
  hero_timers_tidy h →
  HeroSlider.isPaused (slider h) = false →
  hero_timers_tidy (startAutoplay e h) ∧
  slider (startAutoplay e h) = slider h ∧
  listening (startAutoplay e h) = listening h.
Proof.
  intros Hh Hplay. unfold startAutoplay.
  destruct (reducedMotion e); [repeat split; apply Hh |].
  destruct (stopAutoplay_tidy h Hh) as (_ & Hint & Hs & Hl).
  cbv zeta. unfold hero_timers_tidy. cbn. rewrite Hint, Hs, Hl.
  repeat split. congruence.
Qed.

Lemma set_slider_tidy (s : HeroSlider.t) (h : t) :
  hero_timers_tidy h →
  HeroSlider.isPaused s = HeroSlider.isPaused (slider h) →
  hero_timers_tidy (set_slider s h).
Proof.
  unfold hero_timers_tidy. cbn. intros [H1 H2] ->. tauto.
Qed.

Lemma toggleAutoplay_tidy (e : env) (h : t) :
  hero_timers_tidy h →
  hero_timers_tidy (toggleAutoplay e h) ∧
  listening (toggleAutoplay e h) = listening h ∧
  HeroSlider.slides (slider (toggleAutoplay e h)) = HeroSlider.slides (slider h) ∧
  HeroSlider.currentSlide (slider (toggleAutoplay e h))
  = HeroSlider.currentSlide (slider h).
Proof.
  intros Hh. unfold toggleAutoplay. cbv zeta.
  set (h1 := set_slider
               (set_isPaused (negb (HeroSlider.isPaused (slider h))) (slider h)) h).
  assert (Hint1 : intervals h1
                  = match autoplayInterval h1 with
                    | Some id => [id]
                    | None => []
                    end) by apply Hh.
  destruct (HeroSlider.isPaused (slider h)) eqn:Hp; cbn [negb].
  - (* resuming *)
    assert (Htidy1 : hero_timers_tidy h1).
    { split; [exact Hint1 |]. unfold h1. cbn. try rewrite Hp. discriminate. }
    assert (Hplay : HeroSlider.isPaused (slider h1) = false)
      by (unfold h1; cbn; try rewrite Hp; reflexivity).
    rewrite Hplay.
    destruct (startAutoplay_tidy e h1 Htidy1 Hplay) as (Ht & Hs & Hl).
    split; [| rewrite Hs; repeat split; exact Hl].
    apply set_slider_tidy; [exact Ht | reflexivity].
  - (* pausing *)
    assert (Hpaused : HeroSlider.isPaused (slider h1) = true)
      by (unfold h1; cbn; try rewrite Hp; reflexivity).
    rewrite Hpaused.
    pose proof (stopAutoplay_clears h1 Hint1) as Hstop.
    destruct Hstop as (Hnone & Hempty & Hs & Hl).
    split; [| rewrite Hs; repeat split; exact Hl].
    unfold hero_timers_tidy. cbn. rewrite Hnone, Hempty. split; reflexivity.
Qed.

Lemma hero_dispatch_tidy (h : t) (c : env * event) :
  hero_timers_tidy h →
  hero_timers_tidy (dispatch h c) ∧
  listening (dispatch h c) = listening h ∧
  HeroSlider.slides (slider (dispatch h c)) = HeroSlider.slides (slider h).
Proof.
  intros Hh. destruct c as [e ev]. unfold dispatch. cbn [fst snd].
  destruct (negb (listening h)); [repeat split; apply Hh |].
  destruct ev as [| | | key | | | x | x | id].
  - destruct (prevBtn h); [| repeat split; apply Hh].
    split; [now apply set_slider_tidy | split; reflexivity].
  - destruct (nextBtn h); [| repeat split; apply Hh].
    split; [now apply set_slider_tidy | split; reflexivity].
  - destruct (HeroSlider.pauseBtn (slider h)); [| repeat split; apply Hh].
    destruct (toggleAutoplay_tidy e h Hh) as (H1 & H2 & H3 & _). auto.
  - unfold onKeyDown.
    destruct (String.eqb key "ArrowLeft").
    { split; [now apply set_slider_tidy | split; reflexivity]. }
    destruct (String.eqb key "ArrowRight").
    { split; [now apply set_slider_tidy | split; reflexivity]. }
    destruct (String.eqb key " "); [| repeat split; apply Hh].
    destruct (toggleAutoplay_tidy e h Hh) as (H1 & H2 & H3 & _). auto.
  - unfold pauseAutoplay.
    destruct (stopAutoplay_tidy h Hh) as (Hnone & Hempty & Hs & Hl).
    split; [| rewrite Hs; split; [exact Hl | reflexivity]].
    unfold hero_timers_tidy. rewrite Hnone, Hempty. split; reflexivity.
  - destruct (HeroSlider.isPaused (slider h)) eqn:Hp; cbn [negb];
      [repeat split; apply Hh |].
    destruct (startAutoplay_tidy e h Hh Hp) as (Ht & Hs & Hl).
    split; [exact Ht |]. rewrite Hs. split; [exact Hl | reflexivity].
  - split; [apply Hh | split; reflexivity].
  - split; [| split; [reflexivity |]].
    + unfold hero_timers_tidy. cbn [intervals autoplayInterval slider].
      unfold HeroSlider.handleSwipe. cbv zeta.
      destruct (50 <? _); [destruct (0 <? _) |]; apply Hh.
    + cbn [slider]. unfold HeroSlider.handleSwipe. cbv zeta.
      destruct (50 <? _); [destruct (0 <? _) |]; reflexivity.
  - destruct (existsb (Pos.eqb id) (intervals h)); [| repeat split; apply Hh].
    split; [now apply set_slider_tidy | split; reflexivity].
Qed.

Lemma hero_dispatch_all_tidy (evs : list (env * event)) :
  ∀ h : t,
    hero_timers_tidy h →
    hero_timers_tidy (dispatch_all h evs) ∧
    listening (dispatch_all h evs) = listening h ∧
    HeroSlider.slides (slider (dispatch_all h evs))
    = HeroSlider.slides (slider h).
Proof.
  induction evs as [| c evs IH]; intros h Hh; [repeat split; apply Hh |].
  destruct (hero_dispatch_tidy h c Hh) as (H1 & H2 & H3).
  destruct (IH (dispatch h c) H1) as (H4 & H5 & H6).
  unfold dispatch_all in *. cbn [fold_left].
  split; [exact H4 |]. split; congruence.
Qed.

Lemma hero_attach_tidy (e : env) (track : bool) (n : nat)
    (active0 : list bool) (live0 : string)
    (pause0 : option HeroSlider.pause_button) (prev0 next0 : bool)
    (firstTimer : positive) :
  hero_timers_tidy
    (attach e track n active0 live0 pause0 prev0 next0 firstTimer) ∧
  slider (attach e track n active0 live0 pause0 prev0 next0 firstTimer)
  = HeroSlider.create track n active0 live0 pause0.
Proof.
  unfold attach, HeroSlider.create. cbv zeta.
  destruct (negb track || Nat.eqb n 0).
  { split; [split; [reflexivity | discriminate] | reflexivity]. }
  unfold startAutoplay. destruct (reducedMotion e); cbn.
  - split; [split; [reflexivity | discriminate] | reflexivity].
  - split; [split; [reflexivity | discriminate] | reflexivity].
Qed.

End HeroTimers.

(** X8. The hero slider never leaks an interval timer and never rotates
    while paused: whatever reaches its listeners, the browser holds
    exactly the one interval the object remembers, or none; while
    [isPaused] is set there is none, so no timer advances the slides; and
    the number of slides never changes. *)
Theorem hero_autoplay_keeps_one_timer
    (e : env) (track : bool) (n : nat) (active0 : list bool) (live0 : string)
    (pause0 : option HeroSlider.pause_button) (prev0 next0 : bool)
    (firstTimer : positive) (evs : list (env * HeroAutoplay.event)) :
  let h := HeroAutoplay.dispatch_all
             (HeroAutoplay.attach e track n active0 live0 pause0 prev0 next0
                firstTimer) evs in
  HeroAutoplay.intervals h
  = match HeroAutoplay.autoplayInterval h with
    | Some id => [id]
    | None => []
    end ∧
  (HeroSlider.isPaused (HeroAutoplay.slider h) = true →
   HeroAutoplay.intervals h = [] ∧
   ∀ e' id, HeroAutoplay.dispatch h (e', HeroAutoplay.Tick id) = h) ∧
  HeroSlider.slides (HeroAutoplay.slider h) = n.
Proof.
  cbv zeta.
  destruct (hero_attach_tidy e track n active0 live0 pause0 prev0 next0
              firstTimer) as [Htidy Hslider].
  destruct (hero_dispatch_all_tidy evs _ Htidy) as ((Hint & Hpaused) & _ & Hn).
  split; [exact Hint |]. split.
  - intros Hp. rewrite (Hpaused Hp) in Hint. split; [exact Hint |].
    intros e' id. unfold HeroAutoplay.dispatch. cbn [fst snd].
    rewrite Hint. cbn. now destruct (negb _).
  - rewrite Hn, Hslider. unfold HeroSlider.create. cbv zeta.
    now destruct (negb track || Nat.eqb n 0).
Qed.

Lemma hero_autoplay_keeps_one_timer_witness :
  let h := HeroAutoplay.dispatch_all hero_stage
             [(desktop, HeroAutoplay.MouseEnter);
              (desktop, HeroAutoplay.MouseLeave);
              (desktop, HeroAutoplay.KeyDown " ");
              (desktop, HeroAutoplay.MouseLeave)] in
  HeroAutoplay.intervals h = [] ∧
  HeroAutoplay.dispatch h (desktop, HeroAutoplay.Tick 2) = h.
Proof.
  cbv zeta.
  destruct (hero_autoplay_keeps_one_timer desktop true 3 [true; false; false]
              "off"
              (Some {| HeroSlider.aria_label := "Pause slideshow";
                       HeroSlider.shows_play := false |})
              true true 1%positive
              [(desktop, HeroAutoplay.MouseEnter);
               (desktop, HeroAutoplay.MouseLeave);
               (desktop, HeroAutoplay.KeyDown " ");
               (desktop, HeroAutoplay.MouseLeave)]) as (_ & Hpaused & _).
  destruct (Hpaused eq_refl) as [Hnone Htick].
  split; [exact Hnone | apply Htick].
Defined.

(** X9. Under the reduced-motion preference the hero slider never
    rotates by itself: as long as every handler finds the preference
    set, no interval timer is ever armed, whatever the user does (pause
    and play included), so the slides change on the user's navigation
    only. *)
Theorem hero_reduced_motion_never_autoplays
    (e : env) (track : bool) (n : nat) (active0 : list bool) (live0 : string)
    (pause0 : option HeroSlider.pause_button) (prev0 next0 : bool)
    (firstTimer : positive) (evs : list (env * HeroAutoplay.event))
    (Hstart : reducedMotion e = true)
    (Hlater : Forall (fun c => reducedMotion (fst c) = true) evs) :
  let h := HeroAutoplay.dispatch_all
             (HeroAutoplay.attach e track n active0 live0 pause0 prev0 next0
                firstTimer) evs in
  HeroAutoplay.intervals h = [] ∧
  HeroAutoplay.autoplayInterval h = None ∧
  ∀ e' id, HeroAutoplay.dispatch h (e', HeroAutoplay.Tick id) = h.
Proof.
  cbv zeta.
  assert (Hstop : ∀ h, HeroAutoplay.autoplayInterval h = None →
                       HeroAutoplay.stopAutoplay h = h).
  { intros h Hnone. unfold HeroAutoplay.stopAutoplay. now rewrite Hnone. }
  assert (Hstep : ∀ h e0 ev,
            reducedMotion e0 = true →
            HeroAutoplay.intervals h = [] ∧ HeroAutoplay.autoplayInterval h = None →
            HeroAutoplay.intervals (HeroAutoplay.dispatch h (e0, ev)) = [] ∧
            HeroAutoplay.autoplayInterval (HeroAutoplay.dispatch h (e0, ev))
            = None).
  { intros h e0 ev He Hh.
    assert (Htoggle : HeroAutoplay.intervals (HeroAutoplay.toggleAutoplay e0 h) = []
                      ∧ HeroAutoplay.autoplayInterval
                          (HeroAutoplay.toggleAutoplay e0 h) = None).
    { unfold HeroAutoplay.toggleAutoplay. cbv zeta.
      unfold HeroAutoplay.startAutoplay. rewrite He.
      rewrite Hstop by apply Hh.
      destruct (HeroSlider.isPaused _); exact Hh. }
    unfold HeroAutoplay.dispatch. cbn [fst snd].
    destruct (negb (HeroAutoplay.listening h)); [exact Hh |].
    destruct ev as [| | | key | | | x | x | id].
    - destruct (HeroAutoplay.prevBtn h); exact Hh.
    - destruct (HeroAutoplay.nextBtn h); exact Hh.
    - destruct (HeroSlider.pauseBtn _); [exact Htoggle | exact Hh].
    - unfold HeroAutoplay.onKeyDown.
      destruct (String.eqb key "ArrowLeft"); [exact Hh |].
      destruct (String.eqb key "ArrowRight"); [exact Hh |].
      destruct (String.eqb key " "); [exact Htoggle | exact Hh].
    - unfold HeroAutoplay.pauseAutoplay. rewrite Hstop by apply Hh. exact Hh.
    - unfold HeroAutoplay.startAutoplay. rewrite He.
      destruct (negb _); exact Hh.
    - exact Hh.
    - exact Hh.
    - destruct (existsb _ _); exact Hh. }
  assert (Hquiet : ∀ evs h,
            Forall (fun c => reducedMotion (fst c) = true) evs →
            HeroAutoplay.intervals h = [] →
            HeroAutoplay.autoplayInterval h = None →
            HeroAutoplay.intervals (HeroAutoplay.dispatch_all h evs) = [] ∧
            HeroAutoplay.autoplayInterval (HeroAutoplay.dispatch_all h evs)
            = None).
  { clear - Hstep. induction evs as [| [e0 ev] evs IH]; intros h Hevs Hint Hnone;
      [split; assumption |].
    inversion Hevs as [| ? ? He Hrest]; subst. cbn [fst] in He.
    unfold HeroAutoplay.dispatch_all in *. cbn [fold_left].
    destruct (Hstep h e0 ev He (conj Hint Hnone)) as [H1 H2].
    now apply IH. }
  destruct (Hquiet evs
              (HeroAutoplay.attach e track n active0 live0 pause0 prev0 next0
                 firstTimer) Hlater) as [Hint Hnone].
  - unfold HeroAutoplay.attach. cbv zeta. rewrite Hstart. cbn.
    now destruct (negb track || Nat.eqb n 0).
  - unfold HeroAutoplay.attach. cbv zeta. rewrite Hstart. cbn.
    now destruct (negb track || Nat.eqb n 0).
  - split; [exact Hint |]. split; [exact Hnone |].
    intros e' id. unfold HeroAutoplay.dispatch. cbn [fst snd].
    rewrite Hint. cbn. now destruct (negb _).
Qed.

Lemma hero_reduced_motion_never_autoplays_witness :
  HeroAutoplay.intervals
    (HeroAutoplay.dispatch_all
       (HeroAutoplay.attach calm true 3 [true; false; false] "off" None
          true true 1%positive)
       [(calm, HeroAutoplay.KeyDown " "); (calm, HeroAutoplay.KeyDown " ");
        (calm, HeroAutoplay.MouseLeave)]) = [].
Proof.
  apply (hero_reduced_motion_never_autoplays calm true 3 [true; false; false]
           "off" None true true 1%positive
           [(calm, HeroAutoplay.KeyDown " "); (calm, HeroAutoplay.KeyDown " ");
            (calm, HeroAutoplay.MouseLeave)]).
  - reflexivity.
  - repeat constructor.
Defined.

(** ** Enquiry form: when validation fails, and what the page shows *)

(** X10. Validation of a field fails in exactly two cases: the field is
    required and its trimmed value is empty (message "This field is
    required"), or it is a phone field whose trimmed value is non-empty
    and not exactly ten digits (the phone message).  So an optional field
    left empty always passes, a phone field included, and a non-empty
    value in a field of any other type always passes. *)
Theorem validation_fails_exactly_when (x : FormValidator.field) :
  let v := JS.trim (FormValidator.f_value x) in
  (fst (FormValidator.check x) = false
   ↔ (FormValidator.f_required x = true ∧ v = [])
     ∨ (FormValidator.f_type x = "tel" ∧ v ≠ [] ∧ ¬ ten_digits v)) ∧
  (FormValidator.f_required x = true ∧ v = [] →
   snd (FormValidator.check x) = "This field is required") ∧
  (FormValidator.f_type x = "tel" ∧ v ≠ [] ∧ ¬ ten_digits v →
   snd (FormValidator.check x) = "Please enter a valid 10-digit phone number").
Proof.
  cbv zeta. unfold FormValidator.check. cbv zeta.
  set (v := JS.trim (FormValidator.f_value x)).
  assert (Hblank : v = [] ↔ JS.truthy v = false)
    by (destruct v; cbn; split; congruence).
  assert (Hten : ten_digits v ↔ JS.phoneRegex_test v = true)
    by (symmetry; apply phoneRegex_test_spec).
  assert (Htel : FormValidator.f_type x = "tel"
                 ↔ String.eqb (FormValidator.f_type x) "tel" = true)
    by (symmetry; apply String.eqb_eq).
  unfold FormValidator.requiredMessage, FormValidator.phoneMessage.
  destruct (FormValidator.f_required x), (JS.truthy v),
    (String.eqb (FormValidator.f_type x) "tel"), (JS.phoneRegex_test v);
    cbn [andb negb fst snd];
    intuition (try discriminate; try congruence).
Qed.

Lemma validation_fails_exactly_when_witness :
  let x := tel_input "phone" 1 false (JS.of_string "12345") in
  fst (FormValidator.check x) = false ∧
  snd (FormValidator.check x) = "Please enter a valid 10-digit phone number".
Proof.
  cbv zeta.
  pose proof (validation_fails_exactly_when
                (tel_input "phone" 1 false (JS.of_string "12345"))) as H.
  cbv zeta in H. destruct H as (Hiff & _ & Hmessage).
  assert (Hcase :
    FormValidator.f_type (tel_input "phone" 1 false (JS.of_string "12345")) = "tel" ∧
    JS.trim (FormValidator.f_value
               (tel_input "phone" 1 false (JS.of_string "12345"))) ≠ [] ∧
    ¬ ten_digits (JS.trim (FormValidator.f_value
                             (tel_input "phone" 1 false (JS.of_string "12345"))))).
  { split; [reflexivity |]. split; [vm_compute; discriminate |].
    intros [Hlen _]. vm_compute in Hlen. discriminate Hlen. }
  split; [apply Hiff; right; exact Hcase | apply Hmessage; exact Hcase].
Defined.

Section FormPage.
Import FormValidator.



Lemma remove_first_error_none (p : nat) (l : list error_div) :
  List.filter (fun d => Nat.eqb (e_parent d) p) l = [] →
  remove_first_error p l = l.
Proof.
  induction l as [| d l IH]; cbn; [reflexivity |].
  destruct (Nat.eqb (e_parent d) p); [discriminate |].
  intros H. now rewrite IH.
Qed.

Lemma remove_first_error_last (p : nat) (l : list error_div) (d : error_div) :
  List.filter (fun d => Nat.eqb (e_parent d) p) l = [] →
  e_parent d = p →
  remove_first_error p (l ++ [d]) = l.
Proof.
  intros Hl Hd. induction l as [| d' l IH]; cbn.
  - now rewrite Hd, Nat.eqb_refl.
  - cbn in Hl. destruct (Nat.eqb (e_parent d') p); [discriminate |].
    now rewrite IH.
Qed.





Lemma NoDup_map_snd_inj (T : list (Z * nat)) (p q : Z * nat) :
  NoDup (map snd T) → In p T → In q T → snd p = snd q → p = q.
Proof.
  induction T as [| a T IH]; cbn; intros Hnd Hp Hq Heq; [contradiction |].
  inversion Hnd as [| ? ? Hnotin Hnd']; subst.
  destruct Hp as [-> | Hp], Hq as [-> | Hq]; [reflexivity | | | now apply IH].
  - exfalso. apply Hnotin. apply list_elem_of_In. rewrite Heq. now apply in_map.
  - exfalso. apply Hnotin. apply list_elem_of_In. rewrite <- Heq. now apply in_map.
Qed.

Lemma filter_map_swap {A B : Type} (f : A → B) (g : B → bool) (l : list A) :
  List.filter g (map f l) = map f (List.filter (fun a => g (f a)) l).
Proof.
  induction l as [| a l IH]; cbn; [reflexivity |].
  destruct (g (f a)); cbn; now rewrite IH.
Qed.

Lemma filter_none {A : Type} (f : A → bool) (l : list A) :
  (∀ a, In a l → f a = false) → List.filter f l = [].
Proof.
  induction l as [| a l IH]; cbn; intros H; [reflexivity |].
  rewrite (H a) by now left. apply IH. intros b Hb. apply H. now right.
Qed.

Lemma NoDup_map_filter {A B : Type} (f : A → B) (g : A → bool) (l : list A) :
  NoDup (map f l) → NoDup (map f (List.filter g l)).
Proof.
  induction l as [| a l IH]; cbn; intros Hnd; [constructor |].
  inversion Hnd as [| ? ? Hnotin Hnd']; subst.
  destruct (g a); cbn; [| now apply IH].
  constructor; [| now apply IH].
  intros Hin. apply Hnotin.
  apply list_elem_of_In in Hin. apply list_elem_of_In.
  apply in_map_iff in Hin as (b & Hb & Hin).
  apply List.filter_In in Hin as [Hin _].
  apply in_map_iff. now exists b.
Qed.

(** The success elements whose timer ran are exactly those removed. *)
Lemma advance_success (T : list (Z * nat)) (t : Z) :
  NoDup (map snd T) →
  List.filter
    (fun n => negb (existsb (fun p => Nat.eqb (snd p) n)
                      (List.filter (fun p => Z.leb (fst p) t) T)))
    (map snd T)
  = map snd (List.filter (fun p => negb (Z.leb (fst p) t)) T).
Proof.
  intros Hnd. rewrite filter_map_swap. f_equal.
  apply List.filter_ext_in. intros p Hp. f_equal.
  destruct (Z.leb (fst p) t) eqn:Hdue.
  - apply List.existsb_exists. exists p. split; [| apply Nat.eqb_refl].
    apply List.filter_In. now split.
  - destruct (existsb _ _) eqn:He; [| reflexivity].
    apply List.existsb_exists in He as (q & Hq & Heq).
    apply List.filter_In in Hq as [Hq Hq_due].
    apply Nat.eqb_eq in Heq.
    assert (q = p) by (eapply NoDup_map_snd_inj; eassumption).
    subst. congruence.
Qed.

Lemma success_timed_frame (st st' : state) :
  same_frame st' st → success_timed st → success_timed st'.
Proof.
  unfold same_frame, success_timed.
  intros (-> & -> & -> & -> & _). auto.
Qed.

Lemma handleSubmit_timed (st : state) :
  success_timed st → success_timed (handleSubmit st).
Proof.
  unfold success_timed. intros (Hs & Hdue & Hids & Hnd). cbn.
  rewrite map_app. cbn. split; [now rewrite Hs |].
  split; [| split].
  - apply Forall_app. split; [exact Hdue |].
    constructor; [cbn; lia | constructor].
  - apply Forall_app. split.
    + eapply Forall_impl; [exact Hids |]. cbn. intros p Hp. lia.
    + constructor; [cbn; lia | constructor].
  - apply NoDup_app. split; [exact Hnd |]. split.
    + intros n Hn Hin. apply list_elem_of_singleton in Hin. subst n.
      apply list_elem_of_In, in_map_iff in Hn as (p & Hp & Hin).
      rewrite List.Forall_forall in Hids. apply Hids in Hin. lia.
    + apply NoDup_singleton.
Qed.

Lemma advance_timed (dt : Z) (st : state) :
  0 <= dt → success_timed st → success_timed (advance dt st).
Proof.
  unfold success_timed. intros Hdt (Hs & Hdue & Hids & Hnd). cbn.
  split; [rewrite Hs; now apply advance_success |].
  rewrite List.Forall_forall in Hdue, Hids.
  split; [| split].
  - apply List.Forall_forall. intros p Hp.
    apply List.filter_In in Hp as [Hp Hlate].
    apply Hdue in Hp. apply negb_true_iff, Z.leb_gt in Hlate. lia.
  - apply List.Forall_forall. intros p Hp.
    apply List.filter_In in Hp as [Hp _]. now apply Hids.
  - now apply NoDup_map_filter.
Qed.

Lemma handle_timed (st : state) (ev : event) :
  forward ev → success_timed st → success_timed (handle st ev).
Proof.
  intros Hev H. destruct ev as [i | i v | | dt]; cbn [handle].
  - eapply success_timed_frame; [apply validateField_frame | exact H].
  - eapply success_timed_frame; [apply onInput_frame | exact H].
  - rewrite onSubmit_eq.
    destruct (validateForm_facts st) as (_ & Hframe & _).
    pose proof (success_timed_frame _ _ Hframe H) as H1.
    destruct (snd (validateForm st)); [now apply handleSubmit_timed | exact H1].
  - now apply advance_timed.
Qed.

End FormPage.



(** X12. Correcting a field: when an input whose parent holds no error
    element loses focus with an invalid value, one error element is added
    and the input is flagged; typing a value then removes that element and
    the flags at once, before any new validation; and when the new value
    is valid, the next blur leaves the page as it was before the error. *)
Theorem error_shown_on_blur_goes_on_input
    (st : FormValidator.state) (i : nat) (x : FormValidator.field) (v : list N)
    (Hi : FormValidator.inputs st !! i = Some x)
    (Hclean : errors_under (FormValidator.f_parent x) st = [])
    (Hbad : fst (FormValidator.check x) = false) :
  let st1 := FormValidator.onBlur i st in
  let st2 := FormValidator.onInput i v st1 in
  let st3 := FormValidator.onBlur i st2 in
  (FormValidator.errors st1
   = FormValidator.errors st ++ [error_of x (snd (FormValidator.check x))] ∧
   FormValidator.inputs st1 !! i = Some (flagged x)) ∧
  (FormValidator.errors st2 = FormValidator.errors st ∧
   FormValidator.inputs st2 !! i = Some (cleared (typed v x))) ∧
  (fst (FormValidator.check (typed v x)) = true →
   FormValidator.errors st3 = FormValidator.errors st ∧
   FormValidator.inputs st3 !! i = Some (cleared (typed v x))).
Proof.
  cbv zeta. unfold errors_under in Hclean.
  pose proof (lookup_lt_Some _ _ _ Hi) as Hlt.
  assert (Herr1 : FormValidator.errors (FormValidator.onBlur i st)
                  = FormValidator.errors st
                    ++ [error_of x (snd (FormValidator.check x))]).
  { unfold FormValidator.onBlur.
    rewrite (validateField_errors i st x Hi), Hbad.
    now rewrite (remove_first_error_none _ _ Hclean). }
  assert (Hin1 : FormValidator.inputs (FormValidator.onBlur i st) !! i
                 = Some (flagged x)).
  { unfold FormValidator.onBlur.
    rewrite (validateField_inputs i st x Hi). unfold verdict. rewrite Hbad.
    now apply list_lookup_insert_eq. }
  pose proof (lookup_lt_Some _ _ _ Hin1) as Hlt1.
  set (st1 := FormValidator.onBlur i st) in *.
  assert (Hst2 : FormValidator.onInput i v st1
                 = FormValidator.clearError i
                     (FormValidator.set_inputs
                        (<[i := typed v (flagged x)]> (FormValidator.inputs st1))
                        st1)).
  { unfold FormValidator.onInput. now rewrite Hin1. }
  assert (Hin2' : FormValidator.inputs
                    (FormValidator.set_inputs
                       (<[i := typed v (flagged x)]> (FormValidator.inputs st1))
                       st1) !! i
                  = Some (typed v (flagged x))).
  { cbn. now apply list_lookup_insert_eq. }
  rewrite (clearError_eq i _ _ Hin2') in Hst2.
  assert (Herr2 : FormValidator.errors (FormValidator.onInput i v st1)
                  = FormValidator.errors st).
  { rewrite Hst2. cbn. rewrite Herr1.
    now apply remove_first_error_last. }
  assert (Hin2 : FormValidator.inputs (FormValidator.onInput i v st1) !! i
                 = Some (cleared (typed v x))).
  { rewrite Hst2. cbn.
    rewrite list_lookup_insert_eq; [reflexivity |].
    now rewrite length_insert. }
  split; [split; assumption |]. split; [split; assumption |].
  intros Hgood.
  set (st2 := FormValidator.onInput i v st1) in *.
  unfold FormValidator.onBlur. split.
  - rewrite (validateField_errors i st2 _ Hin2).
    change (FormValidator.check (cleared (typed v x)))
      with (FormValidator.check (typed v x)).
    rewrite Hgood, app_nil_r, Herr2.
    now apply remove_first_error_none.
  - rewrite (validateField_inputs i st2 _ Hin2). unfold verdict.
    change (FormValidator.check (cleared (typed v x)))
      with (FormValidator.check (typed v x)).
    rewrite Hgood.
    rewrite list_lookup_insert_eq; [reflexivity |].
    eapply lookup_lt_Some; exact Hin2.
Qed.

Lemma error_shown_on_blur_goes_on_input_witness :
  let st := FormValidator.load blank_form [] in
  let st1 := FormValidator.onBlur 1 st in
  let st2 := FormValidator.onInput 1 (JS.of_string "9876543210") st1 in
  length (FormValidator.errors st1) = 1%nat ∧
  FormValidator.errors st2 = [] ∧
  FormValidator.errors (FormValidator.onBlur 1 st2) = [].
Proof.
  cbv zeta.
  pose proof (error_shown_on_blur_goes_on_input
                (FormValidator.load blank_form []) 1
                (tel_input "phone" 1 true (JS.of_string "123456789"))
                (JS.of_string "9876543210")
                ltac:(reflexivity) ltac:(reflexivity) ltac:(reflexivity)) as H.
  cbv zeta in H. destruct H as ((Herr1 & _) & (Herr2 & _) & Hgood).
  split; [now rewrite Herr1 |]. split; [exact Herr2 |].
  apply Hgood. reflexivity.
Defined.

(** X13. As long as time only moves forward, the success messages on the
    page are exactly those whose removal timer is still pending, each due
    within the next 5000 ms; so once 5000 ms pass without another
    submission no success message is left and no timer is pending. *)
Theorem success_messages_expire
    (fields : list FormValidator.field)
    (errs : list FormValidator.error_div)
    (evs : list FormValidator.event)
    (Hforward : Forall forward evs) :
  let st := FormValidator.run (FormValidator.load fields errs) evs in
  success_timed st ∧
  ∀ dt, 5000 <= dt →
        FormValidator.success (FormValidator.advance dt st) = [] ∧
        FormValidator.timers (FormValidator.advance dt st) = [].
Proof.
  cbv zeta.
  assert (Hrun : ∀ st0, success_timed st0 →
                        success_timed (FormValidator.run st0 evs)).
  { unfold FormValidator.run.
    induction Hforward as [| ev evs Hev _ IH]; intros st0 H0; cbn [fold_left];
      [exact H0 |].
    apply IH. now apply handle_timed. }
  assert (Hload : success_timed (FormValidator.load fields errs)).
  { unfold success_timed. cbn. repeat split; constructor. }
  specialize (Hrun _ Hload).
  split; [exact Hrun |].
  intros dt Hdt.
  assert (Hgone : FormValidator.timers
                    (FormValidator.advance dt
                       (FormValidator.run (FormValidator.load fields errs) evs))
                  = []).
  { cbn. apply filter_none. intros p Hp.
    destruct Hrun as (_ & Hdue & _).
    rewrite List.Forall_forall in Hdue. apply Hdue in Hp.
    apply negb_false_iff, Z.leb_le. lia. }
  split; [| exact Hgone].
  destruct (advance_timed dt _ ltac:(lia) Hrun) as (Hs & _).
  now rewrite Hs, Hgone.
Qed.

Lemma success_messages_expire_witness :
  let st := FormValidator.run (FormValidator.load filled_form [])
              [FormValidator.Submit; FormValidator.Elapse 3000;
               FormValidator.Submit; FormValidator.Elapse 2500] in
  FormValidator.success st = map snd (FormValidator.timers st) ∧
  FormValidator.success (FormValidator.advance 5000 st) = [].
Proof.
  cbv zeta.
  pose proof (success_messages_expire filled_form []
                [FormValidator.Submit; FormValidator.Elapse 3000;
                 FormValidator.Submit; FormValidator.Elapse 2500]
                ltac:(repeat constructor; cbn; lia)) as H.
  cbv zeta in H. destruct H as ((Hs & _) & Hgone).
  split; [exact Hs |]. apply Hgone. lia.
Defined.



(** ** Debounced callbacks *)

Section DebounceFacts.
Import Debounce.
Context {A : Type}.

Lemma last_cons_default (l : list A) :
  ∀ x d : A, List.last (x :: l) d = List.last l x.
Proof.
  induction l as [| a l IH]; intros x d; [reflexivity |].
  change (List.last (x :: a :: l) d) with (List.last (a :: l) d).
  now rewrite !IH.
Qed.

Lemma run_app_events (wait : Z) (d : t A) (l1 l2 : list (event A)) :
  run wait d (l1 ++ l2) = run wait (run wait d l1) l2.
Proof. unfold run. apply fold_left_app. Qed.

Lemma timerDelay_in_range (ms : Z) :
  0 <= ms <= 2147483647 → JS.timerDelay ms = ms.
Proof.
  intros H. unfold JS.timerDelay, JS.toInt32. cbv zeta.
  rewrite Z.mod_small by lia.
  destruct (Z.ltb_spec ms 2147483648); lia.
Qed.

Lemma timerDelay_le (ms : Z) : 0 <= ms → JS.timerDelay ms <= ms.
Proof.
  intros H. unfold JS.timerDelay, JS.toInt32. cbv zeta.
  pose proof (Z.mod_pos_bound ms 4294967296 ltac:(lia)) as Hm.
  pose proof (Z.mod_le ms 4294967296 H ltac:(lia)) as Hle.
  destruct (Z.ltb_spec (ms mod 4294967296) 2147483648); lia.
Qed.

(** During a burst the timer is re-armed by every call and never runs. *)
Lemma burst_pending (wait : Z) (more : list (Z * A)) :
  Forall (fun p => 0 <= fst p < JS.timerDelay wait) more →
  ∀ (d : t A) (a : A),
    timeout d = Some (now d + JS.timerDelay wait, a) →
    let d' := run wait d
                (flat_map (fun p => [Elapse (fst p); Call (snd p)]) more) in
    invoked d' = invoked d ∧
    timeout d' = Some (now d' + JS.timerDelay wait, List.last (map snd more) a).
Proof.
  induction 1 as [| p more Hp _ IH]; intros d a Hd; cbv zeta.
  - split; [reflexivity | exact Hd].
  - unfold run. cbn [flat_map app fold_left handle map].
    rewrite last_cons_default.
    assert (Hwait : elapse (fst p) d
                    = {| now := now d + fst p; timeout := timeout d;
                         invoked := invoked d |}).
    { unfold elapse. rewrite Hd.
      destruct (Z.leb_spec (now d + JS.timerDelay wait) (now d + fst p));
        [lia | reflexivity]. }
    rewrite Hwait.
    specialize (IH (call wait (snd p)
                      {| now := now d + fst p; timeout := timeout d;
                         invoked := invoked d |}) (snd p) eq_refl).
    cbv zeta in IH. exact IH.
Qed.

Lemma spaced_all_run (wait : Z) (l : list (Z * A)) :
  Forall (fun p => JS.timerDelay wait <= fst p) l →
  ∀ d : t A,
    timeout d = None →
    invoked (run wait d (spaced l)) = invoked d ++ map snd l ∧
    timeout (run wait d (spaced l)) = None.
Proof.
  induction 1 as [| p l Hp _ IH]; intros d Hd.
  - cbn. now rewrite app_nil_r.
  - unfold run, spaced. cbn [flat_map app fold_left handle map].
    assert (Hfire : elapse (fst p) (call wait (snd p) d)
                    = {| now := now d + fst p; timeout := None;
                         invoked := invoked d ++ [snd p] |}).
    { unfold elapse, call. cbn.
      destruct (Z.leb_spec (now d + JS.timerDelay wait) (now d + fst p));
        [reflexivity | lia]. }
    rewrite Hfire.
    destruct (IH {| now := now d + fst p; timeout := None;
                    invoked := invoked d ++ [snd p] |} eq_refl) as [Hi Ht].
    unfold run, spaced in Hi, Ht. rewrite Hi, Ht. cbn.
    now rewrite <- app_assoc.
Qed.

Lemma handle_owes (wait : Z) (d : t A) (ev : event A) (cs : list A) :
  invoked d ++ pending d `sublist_of` cs →
  invoked (handle wait d ev) ++ pending (handle wait d ev)
  `sublist_of` cs ++ called [ev].
Proof.
  intros H. destruct ev as [a | dt]; cbn [handle].
  - unfold called, pending. cbn.
    apply sublist_app; [| reflexivity].
    etransitivity; [| exact H]. apply sublist_inserts_r. reflexivity.
  - unfold called. cbn. rewrite app_nil_r.
    unfold elapse, pending in *.
    destruct (timeout d) as [[due a] |]; cbn in *.
    + destruct (due <=? now d + dt); cbn; [now rewrite app_nil_r | exact H].
    + exact H.
Qed.

Lemma run_owes (wait : Z) (evs : list (event A)) :
  ∀ (d : t A) (cs : list A),
    invoked d ++ pending d `sublist_of` cs →
    invoked (run wait d evs) ++ pending (run wait d evs)
    `sublist_of` cs ++ called evs.
Proof.
  induction evs as [| ev evs IH]; intros d cs H.
  - cbn. now rewrite app_nil_r.
  - change (ev :: evs) with ([ev] ++ evs).
    unfold called. rewrite omap_app, app_assoc. fold (called [ev]) (called evs).
    rewrite run_app_events. apply IH.
    now apply handle_owes.
Qed.

End DebounceFacts.

(** X15. For a [wait] that [setTimeout] takes as it is (0 to 2147483647
    milliseconds), a burst of calls to a debounced function, each less
    than [wait] after the one before, runs the function not at all while
    it lasts and exactly once when [wait] milliseconds pass after the last
    call, with the arguments of that last call. *)
Theorem debounce_burst_runs_once {A : Type} (wait t0 dt : Z)
    (first : A) (more : list (Z * A))
    (Hwait : 0 <= wait <= 2147483647)
    (Hgaps : Forall (fun p => 0 <= fst p < wait) more)
    (Hquiet : wait <= dt) :
  let d := Debounce.run wait (Debounce.start t0) (Debounce.burst first more) in
  Debounce.invoked d = [] ∧
  Debounce.invoked (Debounce.elapse dt d) = [List.last (map snd more) first] ∧
  Debounce.timeout (Debounce.elapse dt d) = None.
Proof.
  cbv zeta. unfold Debounce.burst, Debounce.run. cbn [fold_left Debounce.handle].
  pose proof (timerDelay_in_range wait Hwait) as Hdelay.
  rewrite <- Hdelay in Hgaps.
  destruct (burst_pending wait more Hgaps
              (Debounce.call wait first (Debounce.start t0)) first eq_refl)
    as [Hinvoked Htimeout].
  unfold Debounce.run in Hinvoked, Htimeout. rewrite Hdelay in Htimeout.
  split; [exact Hinvoked |].
  unfold Debounce.elapse. rewrite Htimeout, Hinvoked.
  match goal with
  | |- context [?a <=? ?b] => destruct (Z.leb_spec a b); [| lia]
  end.
  split; reflexivity.
Qed.

Lemma debounce_burst_runs_once_witness :
  let d := Debounce.run 250 (Debounce.start 0)
             (Debounce.burst 1%nat [(100, 2%nat); (249, 3%nat)]) in
  Debounce.invoked d = [] ∧
  Debounce.invoked (Debounce.elapse 250 d) = [3%nat].
Proof.
  cbv zeta.
  pose proof (debounce_burst_runs_once 250 0 250 1%nat [(100, 2%nat); (249, 3%nat)]
                ltac:(lia) ltac:(repeat constructor; cbn; lia) ltac:(lia)) as H.
  cbv zeta in H. destruct H as (Hnone & Honce & _).
  split; [exact Hnone | exact Honce].
Defined.

(** X16. A debounced function never runs more often than it was called
    and never out of order: the calls it has made, followed by the one it
    still owes, are a subsequence of the calls it received.  When [wait]
    is not negative and every call is followed by at least [wait]
    milliseconds without a call, every call runs. *)
Theorem debounce_runs_a_subsequence_of_calls {A : Type} (wait t0 : Z)
    (evs : list (Debounce.event A)) :
  let d := Debounce.run wait (Debounce.start t0) evs in
  Debounce.invoked d ++ pending d `sublist_of` called evs ∧
  (length (Debounce.invoked d) <= length (called evs))%nat ∧
  (0 <= wait →
   ∀ l : list (Z * A),
     Forall (fun p => wait <= fst p) l →
     Debounce.invoked (Debounce.run wait (Debounce.start t0) (spaced l))
     = map snd l).
Proof.
  cbv zeta.
  assert (Hsub : Debounce.invoked (Debounce.run wait (Debounce.start t0) evs)
                 ++ pending (Debounce.run wait (Debounce.start t0) evs)
                 `sublist_of` called evs).
  { apply (run_owes wait evs (Debounce.start t0) []). reflexivity. }
  split; [exact Hsub |]. split.
  - apply sublist_length in Hsub. rewrite length_app in Hsub. lia.
  - intros Hwait l Hl.
    assert (Hl' : Forall (fun p => JS.timerDelay wait <= fst p) l).
    { eapply Forall_impl; [exact Hl |]. cbn. intros p Hp.
      pose proof (timerDelay_le wait Hwait). lia. }
    destruct (spaced_all_run wait l Hl' (Debounce.start t0) eq_refl) as [Hi _].
    exact Hi.
Qed.

Lemma debounce_runs_a_subsequence_of_calls_witness :
  Debounce.invoked
    (Debounce.run 50 (Debounce.start 0) (spaced [(50, 1%nat); (80, 2%nat)]))
  = [1%nat; 2%nat].
Proof.
  refine (proj2 (proj2 (debounce_runs_a_subsequence_of_calls 50 0
                          ([] : list (Debounce.event nat))))
            _ [(50, 1%nat); (80, 2%nat)] _).
  - lia.
  - repeat constructor; cbn; lia.
Defined.

(** Outside that range [setTimeout] wraps its delay to 32 bits: a wait of
    3000000000 ms runs the function at once, and with a wait of
    -3000000000 ms a call is still owed after any shorter pause. *)
Example debounce_delay_wraps_at_32_bits :
  Debounce.invoked
    (Debounce.elapse 0 (Debounce.call 3000000000 1%nat (Debounce.start 0)))
  = [1%nat] ∧
  Debounce.invoked
    (Debounce.run (-3000000000) (Debounce.start 0) (spaced [(1000, 1%nat)]))
  = [].
Proof. split; reflexivity. Qed.

(** ** Logo strip: dragging and the paused animation *)

Section LogosFacts.
Import LogosSlider.

Lemma logos_dispatch_drag (d0 : bool) (s : t) (ev : event) :
  (isDown s = true → dragging s = true ∧ animationPlayState s = Some Paused) →
  (d0 = false → dragging s = isDown s) →
  (isDown (dispatch s ev) = true →
   dragging (dispatch s ev) = true ∧
   animationPlayState (dispatch s ev) = Some Paused) ∧
  (d0 = false → dragging (dispatch s ev) = isDown (dispatch s ev)).
Proof.
  intros Hdown Hclass.
  destruct ev as [x cur | x | | | | x cur | x | | dx dy cur | key cur];
    cbn [dispatch]; unfold pointerDown, pointerMove, pointerUp, set_play,
      onWheel, onKeyDown, assign; cbv zeta;
    try (destruct (negb (isDown s)));
    try (destruct (String.eqb key "ArrowLeft"));
    try (destruct (String.eqb key "ArrowRight"));
    cbn; split; auto; try discriminate;
    intros Hs; destruct (Hdown Hs) as [H1 H2]; auto.
Qed.

Lemma logos_dispatch_held (x0 cur0 : Z) (s : t) (ev : event) :
  keeps_drag ev →
  isDown s = true ∧ startX s = x0 ∧ scrollLeft s = cur0 →
  isDown (dispatch s ev) = true ∧ startX (dispatch s ev) = x0 ∧
  scrollLeft (dispatch s ev) = cur0.
Proof.
  intros Hev (Hdown & Hx & Hcur).
  destruct ev as [x cur | x | | | | x cur | x | | dx dy cur | key cur];
    try contradiction; cbn [dispatch];
    unfold pointerMove, set_play, onWheel, onKeyDown, assign; cbv zeta;
    try rewrite Hdown;
    try (destruct (String.eqb key "ArrowLeft"));
    try (destruct (String.eqb key "ArrowRight"));
    cbn; auto.
Qed.

Lemma logos_dispatch_all_held (x0 cur0 : Z) (evs : list event) :
  Forall keeps_drag evs →
  ∀ s : t,
    isDown s = true ∧ startX s = x0 ∧ scrollLeft s = cur0 →
    isDown (dispatch_all s evs) = true ∧ startX (dispatch_all s evs) = x0 ∧
    scrollLeft (dispatch_all s evs) = cur0.
Proof.
  induction 1 as [| ev evs Hev _ IH]; intros s Hs; [exact Hs |].
  unfold dispatch_all in *. cbn [fold_left].
  apply IH. now apply logos_dispatch_held.
Qed.

Lemma logos_move_follows (x0 cur0 x : Z) (evs : list event) (s : t) :
  Forall keeps_drag evs →
  isDown s = true ∧ startX s = x0 ∧ scrollLeft s = cur0 →
  assigned (pointerMove x (dispatch_all s evs)) = Some (cur0 + (x0 - x)).
Proof.
  intros Hevs Hs.
  destruct (logos_dispatch_all_held x0 cur0 evs Hevs s Hs) as (Hd & Hx & Hc).
  unfold pointerMove. rewrite Hd. cbn. now rewrite Hx, Hc.
Qed.

End LogosFacts.

(** X17. On the logo strip the pointer's state, the [is-dragging] class
    and the paused animation go together: while a drag is under way the
    class is set and the track's animation is paused, and (the markup not
    carrying the class at the start) the class is set only while a drag is
    under way.  Releasing the pointer, leaving the strip or lifting the
    finger ends the drag and sets the animation running again. *)
Theorem logos_class_and_pause_follow_the_drag
    (dragging0 : bool) (evs : list LogosSlider.event) :
  let s := LogosSlider.dispatch_all (LogosSlider.setup dragging0) evs in
  (LogosSlider.isDown s = true →
   LogosSlider.dragging s = true ∧
   LogosSlider.animationPlayState s = Some LogosSlider.Paused) ∧
  (dragging0 = false → LogosSlider.dragging s = LogosSlider.isDown s) ∧
  (∀ ev, ev = LogosSlider.MouseUp ∨ ev = LogosSlider.MouseLeave
         ∨ ev = LogosSlider.TouchEnd →
         LogosSlider.isDown (LogosSlider.dispatch s ev) = false ∧
         LogosSlider.dragging (LogosSlider.dispatch s ev) = false ∧
         LogosSlider.animationPlayState (LogosSlider.dispatch s ev)
         = Some LogosSlider.Running).
Proof.
  cbv zeta.
  assert (Hinv : ∀ s,
            (LogosSlider.isDown s = true →
             LogosSlider.dragging s = true ∧
             LogosSlider.animationPlayState s = Some LogosSlider.Paused) →
            (dragging0 = false → LogosSlider.dragging s = LogosSlider.isDown s) →
            (LogosSlider.isDown (LogosSlider.dispatch_all s evs) = true →
             LogosSlider.dragging (LogosSlider.dispatch_all s evs) = true ∧
             LogosSlider.animationPlayState (LogosSlider.dispatch_all s evs)
             = Some LogosSlider.Paused) ∧
            (dragging0 = false →
             LogosSlider.dragging (LogosSlider.dispatch_all s evs)
             = LogosSlider.isDown (LogosSlider.dispatch_all s evs))).
  { induction evs as [| ev evs IH]; intros s H1 H2; [split; assumption |].
    unfold LogosSlider.dispatch_all in *. cbn [fold_left].
    destruct (logos_dispatch_drag dragging0 s ev H1 H2) as [H1' H2'].
    now apply IH. }
  destruct (Hinv (LogosSlider.setup dragging0)) as [H1 H2].
  { cbn. discriminate. }
  { cbn. auto. }
  split; [exact H1 |]. split; [exact H2 |].
  intros ev [-> | [-> | ->]]; repeat split.
Qed.

Lemma logos_class_and_pause_follow_the_drag_witness :
  let s := LogosSlider.dispatch_all (LogosSlider.setup false)
             [LogosSlider.MouseEnter; LogosSlider.MouseDown 40 0;
              LogosSlider.MouseMove 10] in
  LogosSlider.dragging s = true ∧
  LogosSlider.animationPlayState s = Some LogosSlider.Paused ∧
  LogosSlider.animationPlayState (LogosSlider.dispatch s LogosSlider.MouseUp)
  = Some LogosSlider.Running.
Proof.
  cbv zeta.
  pose proof (logos_class_and_pause_follow_the_drag false
                [LogosSlider.MouseEnter; LogosSlider.MouseDown 40 0;
                 LogosSlider.MouseMove 10]) as H.
  cbv zeta in H. destruct H as (Hdown & _ & Hup).
  destruct (Hdown ltac:(reflexivity)) as [Hclass Hpaused].
  split; [exact Hclass |]. split; [exact Hpaused |].
  apply (Hup LogosSlider.MouseUp). now left.
Defined.

(** X18. Dragging the logo strip follows the pointer without drift: after
    the pointer went down at position [x0] with the strip scrolled to
    [cur0], every move to a position [x] sets the scroll position to
    [cur0 + (x0 - x)], whatever moves, wheel turns or key presses came in
    between; with a mouse or with a finger.  A move outside a drag changes
    nothing. *)
Theorem logos_drag_follows_the_pointer
    (s : LogosSlider.t) (x0 cur0 x : Z) (evs : list LogosSlider.event)
    (Hevs : Forall keeps_drag evs) :
  LogosSlider.assigned
    (LogosSlider.dispatch_all s
       (LogosSlider.MouseDown x0 cur0 :: evs ++ [LogosSlider.MouseMove x]))
  = Some (cur0 + (x0 - x)) ∧
  LogosSlider.assigned
    (LogosSlider.dispatch_all s
       (LogosSlider.TouchStart x0 cur0 :: evs ++ [LogosSlider.TouchMove x]))
  = Some (cur0 + (x0 - x)) ∧
  (LogosSlider.isDown s = false →
   LogosSlider.dispatch s (LogosSlider.MouseMove x) = s ∧
   LogosSlider.dispatch s (LogosSlider.TouchMove x) = s).
Proof.
  unfold LogosSlider.dispatch_all. cbn [fold_left].
  rewrite !fold_left_app. cbn [fold_left LogosSlider.dispatch].
  split; [| split].
  - apply (logos_move_follows x0 cur0 x evs); [exact Hevs |]. repeat split.
  - apply (logos_move_follows x0 cur0 x evs); [exact Hevs |]. repeat split.
  - intros Hup. unfold LogosSlider.pointerMove. rewrite Hup. split; reflexivity.
Qed.

Lemma logos_drag_follows_the_pointer_witness :
  LogosSlider.assigned
    (LogosSlider.dispatch_all (LogosSlider.setup false)
       [LogosSlider.MouseDown 300 120; LogosSlider.MouseMove 280;
        LogosSlider.Wheel 0 90 140; LogosSlider.MouseMove 250])
  = Some 170.
Proof.
  refine (proj1 (logos_drag_follows_the_pointer (LogosSlider.setup false)
                   300 120 250
                   [LogosSlider.MouseMove 280; LogosSlider.Wheel 0 90 140] _)).
  repeat constructor.
Defined.

(** ** Header: the at-top class and its entrance animation *)

Section HeaderFacts.
Import Header.

Lemma header_handle_tidy (h : t) (c : env * event) :
  header_forward c → header_tidy h → header_tidy (handle h c).
Proof.
  unfold header_forward, header_tidy.
  intros Hc (Htop & Hanim & Hdue).
  destruct c as [e ev]. unfold handle. cbn [fst snd] in *.
  destruct ev as [scrollY | | dt].
  - unfold updateHeaderAtTop. cbv zeta. cbn [wasAtTop].
    destruct (negb (reducedMotion e) && (scrollY =? 0) && negb (wasAtTop h));
      cbn.
    + split; [reflexivity |]. split.
      * split; [intros _; eexists; reflexivity | reflexivity].
      * intros due [= <-]. unfold ANIM_TIMEOUT. lia.
    + split; [reflexivity |]. split; assumption.
  - destruct (frameRequested h); cbn.
    + split; [exact Htop |]. split.
      * split; [intros _; eexists; reflexivity | reflexivity].
      * intros due [= <-]. unfold ANIM_TIMEOUT. lia.
    + split; [exact Htop |]. split; assumption.
  - destruct (animTimer h) as [due |] eqn:Htimer.
    + specialize (Hdue due eq_refl).
      destruct (Z.leb_spec due (now h + dt)); cbn.
      * split; [exact Htop |]. split.
        -- split; [discriminate | intros [? [=]]].
        -- intros ? [=].
      * split; [exact Htop |]. split; [exact Hanim |].
        intros due' [= <-]. lia.
    + cbn. split; [exact Htop |]. split; [exact Hanim |]. intros ? [=].
Qed.

Lemma header_handle_calm (h : t) (c : env * event) :
  header_calm c →
  animTimer h = None ∧ frameRequested h = false →
  (animTimer (handle h c) = None ∧ frameRequested (handle h c) = false) ∧
  is_animated (handle h c) = is_animated h ∧
  at_top (handle h c)
  = match snd c with Update scrollY => scrollY =? 0 | _ => at_top h end.
Proof.
  unfold header_calm. intros Hc (Htimer & Hframe).
  destruct c as [e ev]. unfold handle. cbn [fst snd] in *.
  destruct ev as [scrollY | | dt].
  - unfold updateHeaderAtTop. cbv zeta. rewrite Hc. cbn. auto.
  - rewrite Hframe. auto.
  - rewrite Htimer. cbn. auto.
Qed.

End HeaderFacts.

(** X19. The header's entrance animation is bounded: for a header whose
    markup does not carry the animation class, and as long as time only
    moves forward, the class is on exactly while its removal timer is
    pending, that timer is due within the next 700 ms, and the at-top
    class agrees with the remembered scroll state; so 700 ms without
    another event always end the animation. *)
Theorem header_animation_ends_within_700ms
    (e : env) (scrollY : Z) (atTop0 : bool) (t0 : Z)
    (evs : list (env * Header.event))
    (Hforward : Forall header_forward evs) :
  let h := Header.run (Header.setup e scrollY atTop0 false t0) evs in
  header_tidy h ∧
  ∀ e' dt, 700 <= dt →
           Header.is_animated (Header.handle h (e', Header.Elapse dt)) = false ∧
           Header.animTimer (Header.handle h (e', Header.Elapse dt)) = None.
Proof.
  cbv zeta.
  assert (Hrun : ∀ h, header_tidy h → header_tidy (Header.run h evs)).
  { unfold Header.run.
    induction Hforward as [| c evs Hc _ IH]; intros h Hh; cbn [fold_left];
      [exact Hh |].
    apply IH. now apply header_handle_tidy. }
  assert (Hsetup : header_tidy (Header.setup e scrollY atTop0 false t0)).
  { unfold header_tidy, Header.setup, Header.updateHeaderAtTop. cbv zeta.
    cbn [Header.wasAtTop].
    destruct (reducedMotion e), (scrollY =? 0); cbn;
      (split; [reflexivity |]); (split; [| intros ? [=]]);
      (split; [discriminate | intros [? [=]]]). }
  specialize (Hrun _ Hsetup).
  split; [exact Hrun |].
  intros e' dt Hdt. destruct Hrun as (_ & Hanim & Hdue).
  unfold Header.handle. cbn [snd].
  destruct (Header.animTimer _) as [due |] eqn:Htimer.
  - specialize (Hdue due eq_refl).
    match goal with
    | |- context [?a <=? ?b] => destruct (Z.leb_spec a b); [| lia]
    end.
    split; reflexivity.
  - cbn. split; [| reflexivity].
    destruct (Header.is_animated _) eqn:Ha; [| reflexivity].
    destruct (proj1 Hanim eq_refl) as [? [=]].
Qed.

Lemma header_animation_ends_within_700ms_witness :
  let h := Header.run (Header.setup desktop 0 false false 0)
             [(desktop, Header.Frame); (desktop, Header.Elapse 300);
              (desktop, Header.Update 120); (desktop, Header.Update 0)] in
  header_tidy h ∧
  Header.is_animated (Header.handle h (desktop, Header.Elapse 700)) = false.
Proof.
  cbv zeta.
  pose proof (header_animation_ends_within_700ms desktop 0 false 0
                [(desktop, Header.Frame); (desktop, Header.Elapse 300);
                 (desktop, Header.Update 120); (desktop, Header.Update 0)]
                ltac:(repeat constructor; unfold header_forward; cbn; lia)) as H.
  cbv zeta in H. destruct H as [Htidy Hends].
  split; [exact Htidy |]. apply (Hends desktop 700). lia.
Defined.

(** X20. Under the reduced-motion preference the header never plays its
    entrance animation: no animation frame is requested at start-up, no
    timer is ever armed, the animation class stays as the markup had it,
    and the at-top class still follows the scroll position. *)
Theorem header_reduced_motion_never_animates
    (e : env) (scrollY : Z) (atTop0 animated0 : bool) (t0 : Z)
    (evs : list (env * Header.event))
    (Hmotion : reducedMotion e = true)
    (Hcalm : Forall header_calm evs) :
  let h := Header.run (Header.setup e scrollY atTop0 animated0 t0) evs in
  Header.is_animated h = animated0 ∧
  Header.animTimer h = None ∧
  Header.frameRequested h = false ∧
  Header.at_top h
  = match last (omap (fun c => match snd c with
                               | Header.Update y => Some y
                               | _ => None
                               end) evs) with
    | Some y => y =? 0
    | None => scrollY =? 0
    end.
Proof.
  cbv zeta.
  assert (Hrun : ∀ evs h,
            Forall header_calm evs →
            Header.animTimer h = None ∧ Header.frameRequested h = false →
            (Header.animTimer (Header.run h evs) = None ∧
             Header.frameRequested (Header.run h evs) = false) ∧
            Header.is_animated (Header.run h evs) = Header.is_animated h ∧
            Header.at_top (Header.run h evs)
            = match last (omap (fun c => match snd c with
                                         | Header.Update y => Some y
                                         | _ => None
                                         end) evs) with
              | Some y => y =? 0
              | None => Header.at_top h
              end).
  { clear. unfold Header.run.
    induction evs as [| c evs IH]; intros h Hevs Hh; cbn [fold_left].
    - cbn. auto.
    - inversion Hevs as [| ? ? Hc Hrest]; subst.
      destruct (header_handle_calm h c Hc Hh) as (Hh' & Hanim & Htop).
      destruct (IH _ Hrest Hh') as (Hquiet & Hanim' & Htop').
      split; [exact Hquiet |]. split; [congruence |].
      rewrite Htop', Htop.
      destruct c as [e [y | | dt]]; cbn [snd];
        match goal with
        | |- context [omap ?f (?c :: ?l)] =>
            first [ change (omap f (c :: l)) with (y :: omap f l)
                  | change (omap f (c :: l)) with (omap f l) ]
        end; try reflexivity.
      rewrite last_cons. now destruct (last _). }
  destruct (Hrun evs (Header.setup e scrollY atTop0 animated0 t0) Hcalm)
    as ((Htimer & Hframe) & Hanim & Htop).
  { unfold Header.setup, Header.updateHeaderAtTop. cbv zeta.
    rewrite Hmotion. cbn. auto. }
  split.
  { rewrite Hanim. unfold Header.setup, Header.updateHeaderAtTop. cbv zeta.
    rewrite Hmotion. reflexivity. }
  split; [exact Htimer |]. split; [exact Hframe |].
  rewrite Htop. unfold Header.setup, Header.updateHeaderAtTop. cbv zeta.
  rewrite Hmotion. reflexivity.
Qed.

Lemma header_reduced_motion_never_animates_witness :
  let h := Header.run (Header.setup calm 0 false false 0)
             [(calm, Header.Frame); (calm, Header.Update 300);
              (calm, Header.Update 0); (calm, Header.Elapse 50)] in
  Header.is_animated h = false ∧ Header.at_top h = true.
Proof.
  cbv zeta.
  pose proof (header_reduced_motion_never_animates calm 0 false false 0
                [(calm, Header.Frame); (calm, Header.Update 300);
                 (calm, Header.Update 0); (calm, Header.Elapse 50)]
                ltac:(reflexivity)
                ltac:(repeat constructor)) as H.
  cbv zeta in H. destruct H as (Hanim & _ & _ & Htop).
  split; [exact Hanim | exact Htop].
Defined.

(** ** Scroll reveal: what holds of the whole page at any time *)

Lemma benefits_dispatch_activated
    (s : ExhibitionBenefitsSlider.t) (c : env * ExhibitionBenefitsSlider.event) :
  ExhibitionBenefitsSlider._activated (ExhibitionBenefitsSlider.dispatch s c)
  = ExhibitionBenefitsSlider._activated s.
Proof.
  destruct c as [e ev]. unfold ExhibitionBenefitsSlider.dispatch. cbn [fst snd].
  destruct (negb (ExhibitionBenefitsSlider._activated s)); [reflexivity |].
  destruct ev.
  - destruct (ExhibitionBenefitsSlider.prevBtn s); [| reflexivity].
    apply benefits_prev_static.
  - destruct (ExhibitionBenefitsSlider.nextBtn s); [| reflexivity].
    apply benefits_next_static.
  - reflexivity.
  - unfold ExhibitionBenefitsSlider.onPointerMove. cbv zeta.
    now destruct (negb _).
  - rewrite benefits_pointerUp_activated.
    unfold ExhibitionBenefitsSlider.onTouchEnd. cbv zeta.
    now rewrite benefits_swipe_activated.
  - reflexivity.
  - unfold ExhibitionBenefitsSlider.onPointerMove. cbv zeta.
    now destruct (negb _).
  - apply benefits_pointerUp_activated.
  - unfold ExhibitionBenefitsSlider.onWheel.
    destruct (Z.abs deltaX <? Z.abs deltaY); [| reflexivity].
    destruct (5 <? deltaY); [apply benefits_next_static |].
    destruct (deltaY <? -5); [apply benefits_prev_static | reflexivity].
  - unfold ExhibitionBenefitsSlider.onKeyDown. cbv zeta.
    destruct (String.eqb key "ArrowLeft"), (String.eqb key "ArrowRight").
    + destruct (benefits_next_static e (ExhibitionBenefitsSlider.goToPrev e s))
        as (_ & _ & _ & -> & _).
      apply benefits_prev_static.
    + apply benefits_prev_static.
    + apply benefits_next_static.
    + reflexivity.
  - apply benefits_resize_fields.
Qed.

Lemma hasClass_lt (c : string) (j : nat) (p : Page.t) :
  Page.hasClass c j p = true → (j < length (Page.elements p))%nat.
Proof.
  unfold Page.hasClass.
  destruct (Page.elements p !! j) eqn:Hj; [| discriminate].
  intros _. eapply lookup_lt_Some. eassumption.
Qed.

(** X21. On a page loaded without the reduced-motion preference, at any
    time and whatever the browser reports: every tracked section is either
    still observed or carries the reveal class, only tracked sections are
    observed, no class other than the reveal class is ever added or
    removed, and the deferred benefits slider is active only if an element
    of the benefits section has been revealed. *)
Theorem tracked_sections_observed_until_revealed
    (e : env) (doc : list (gset string))
    (bc : option ExhibitionBenefitsSlider.markup)
    (evs : list (env * Page.event))
    (Hmotion : reducedMotion e = false) :
  let p := Page.steps (Page.load e doc bc) evs in
  (∀ i, i ∈ Page.trackedSections doc →
        observedBy i p ∨ Page.hasClass "animate-in" i p = true) ∧
  (∀ i, observedBy i p → i ∈ Page.trackedSections doc) ∧
  (∀ c j, c ≠ "animate-in" →
          Page.hasClass c j p = Page.hasClass c j (Page.load e doc bc)) ∧
  (∀ s, Page.benefitsSlider p = Some s →
        ExhibitionBenefitsSlider._activated s = true →
        ∃ j, Page.hasClass "exhibition-benefits" j p = true ∧
             Page.hasClass "animate-in" j p = true).
Proof.
  cbv zeta.
  destruct (load_observer e doc bc Hmotion) as [Hobserver Hdoc].
  set (p0 := Page.load e doc bc) in *.
  set (Inv := fun p : Page.t =>
    (∀ i, i ∈ Page.trackedSections doc →
          observedBy i p ∨ Page.hasClass "animate-in" i p = true) ∧
    (∀ i, observedBy i p → i ∈ Page.trackedSections doc) ∧
    (∀ c j, c ≠ "animate-in" → Page.hasClass c j p = Page.hasClass c j p0) ∧
    (∀ s, Page.benefitsSlider p = Some s →
          ExhibitionBenefitsSlider._activated s = true →
          ∃ j, Page.hasClass "exhibition-benefits" j p = true ∧
               Page.hasClass "animate-in" j p = true) ∧
    length (Page.elements p) = length doc).
  assert (Hstep : ∀ p c, Inv p → Inv (Page.step p c)).
  { intros p [e1 [entries | ev]] (I1 & I2 & I3 & I4 & I5); unfold Page.step;
      cbn [fst snd].
    - destruct (Page.scrollObserver p) as [o |] eqn:Ho;
        [| repeat split; assumption].
      split; [| split; [| split; [| split]]].
      + intros i Hi. destruct (Page.reveals i entries) eqn:Hrev.
        * right. apply callback_reveals; [| exact Hrev].
          rewrite I5. now apply trackedSections_lt.
        * destruct (I1 i Hi) as [Hobs | Hclass].
          -- left. apply callback_observed. now split.
          -- right. now apply callback_hasClass_kept.
      + intros i Hi. apply callback_observed in Hi as [Hi _]. now apply I2.
      + intros c j Hc. rewrite callback_hasClass_other by exact Hc. now apply I3.
      + intros s Hs Hactive.
        rewrite (callback_slider e1 p entries p) in Hs by reflexivity.
        destruct (existsb _ entries) eqn:Hex.
        * apply existsb_exists in Hex as (en & Hin & Hen).
          apply andb_true_iff in Hen as [Hint Hclass].
          exists (Page.target en). split.
          -- rewrite callback_hasClass_other by discriminate. exact Hclass.
          -- apply callback_reveals; [now apply hasClass_lt in Hclass |].
             unfold Page.reveals. apply existsb_exists. exists en.
             split; [exact Hin |]. now rewrite Hint, Nat.eqb_refl.
        * destruct (I4 s Hs Hactive) as (j & Hj1 & Hj2). exists j. split.
          -- rewrite callback_hasClass_other by discriminate. exact Hj1.
          -- now apply callback_hasClass_kept.
      + now rewrite callback_length.
    - split; [exact I1 |]. split; [exact I2 |]. split; [exact I3 |].
      split; [| exact I5].
      intros s Hs Hactive. cbn [Page.benefitsSlider] in Hs.
      destruct (Page.benefitsSlider p) as [s0 |] eqn:Hs0; [| discriminate].
      injection Hs as <-. rewrite benefits_dispatch_activated in Hactive.
      exact (I4 s0 eq_refl Hactive). }
  assert (Hload : Inv p0).
  { split; [| split; [| split; [| split]]].
    - intros i Hi. left. unfold observedBy. rewrite Hobserver. cbn.
      now apply elem_of_list_to_set.
    - intros i Hi. unfold observedBy in Hi. rewrite Hobserver in Hi. cbn in Hi.
      now apply elem_of_list_to_set in Hi.
    - reflexivity.
    - intros s Hs Hactive. exfalso.
      unfold p0, Page.load, Page.initScrollAnimations in Hs.
      rewrite Hmotion in Hs. cbn in Hs.
      destruct bc as [m |]; [| discriminate].
      injection Hs as <-. discriminate Hactive.
    - now rewrite Hdoc. }
  assert (Hsteps : ∀ evs p, Inv p → Inv (Page.steps p evs)).
  { clear - Hstep. unfold Page.steps.
    induction evs as [| c evs IH]; intros p Hp; cbn [fold_left]; [exact Hp |].
    apply IH. now apply Hstep. }
  destruct (Hsteps evs p0 Hload) as (I1 & I2 & I3 & I4 & _).
  repeat split; assumption.
Qed.

Lemma tracked_sections_observed_until_revealed_witness :
  let p := Page.steps (Page.load desktop sample_doc (Some eight_benefits))
             [(desktop,
               Page.Intersections
                 [{| Page.target := 1; Page.isIntersecting := true |}])] in
  Page.hasClass "animate-in" 1 p = true ∧ observedBy 2 p.
Proof.
  cbv zeta.
  pose proof (tracked_sections_observed_until_revealed desktop sample_doc
                (Some eight_benefits)
                [(desktop,
                  Page.Intersections
                    [{| Page.target := 1; Page.isIntersecting := true |}])]
                ltac:(reflexivity)) as H.
  cbv zeta in H. destruct H as (Hpart & _ & _ & _).
  split.
  - reflexivity.
  - destruct (Hpart 2%nat ltac:(vm_compute; repeat constructor)) as [Hobs | Hcl];
      [exact Hobs | discriminate Hcl].
Defined.
